(** * Typed memory-field catalog and codec layer of the GSC memory library

    A shallow embedding of [gsc_memory_lib.py] (and of the functions that
    [gsc_ram_fields.py] duplicates) together with the properties stated
    about them.

    Conventions of the embedding:
    - a Python [int] is a [Z]; [&], [|], [<<], [>>] are [Z.land], [Z.lor],
      [Z.shiftl], [Z.shiftr] (two's complement on negative numbers, as in
      Python);
    - a [bytes] object is a [list Z] of values in [0..255];
    - a raised exception is the [Raise] case of [result]; every exception
      the modelled code raises itself is a [ValueError], and the payload of
      [exn] records which one;
    - a function that calls the caller-supplied writer is a state
      transformer over the writer's state that also returns its outcome, so
      that an exception leaves the effects performed before it in place. *)

From Stdlib Require Import ZArith List Lia Ascii String.
From stdpp Require Import gmap strings list fin_maps.

Local Open Scope Z_scope.

(** ** Exceptions and results *)

Inductive exn : Type :=
| SlotIndexRange
    (* ValueError("slot_index must be in range 0..5") *)
| LengthMismatch (key : string) (expected got : Z)
    (* ValueError(f"{field.key}: expected {field.size} bytes, got {len(b)}") *)
| BankNegative
    (* ValueError("bank must be >= 0") *)
| Bank0AddrRange
    (* ValueError("bank 0 addr must be 0x0000..0x3FFF") *)
| BankedAddrRange
    (* ValueError("bank>0 addr must be 0x4000..0x7FFF") *)
| MissingFileRange (key : string)
    (* ValueError(f"{f.key}: missing file_range") *)
| MissingBankAddrSize (key : string)
    (* ValueError(f"{f.key}: missing bank_addr/size") *)
| InvalidIntLiteral
    (* ValueError raised by the builtin int() on a non-digit character *)
| ByteOutOfRange
    (* ValueError raised by bytes()/bytearray.append on a value outside 0..255 *)
| NegativeCount
    (* ValueError raised by bytes(n) for n < 0 *)
| IndexError
    (* IndexError raised by list indexing out of range *)
| ExternalError (code : Z).
    (* any exception of a builtin parser or of the caller's reader/writer *)

Inductive result (A : Type) : Type :=
| Ok (a : A)
| Raise (e : exn).
Arguments Ok {A} a.
Arguments Raise {A} e.

Definition bind {A B : Type} (r : result A) (k : A -> result B) : result B :=
  match r with
  | Ok a => k a
  | Raise e => Raise e
  end.

Declare Scope result_scope.
Delimit Scope result_scope with result.
Notation "'let?' x ':=' r 'in' k" := (bind r (fun x => k))
  (at level 10, x name, r at level 100, k at level 200) : result_scope.
Local Open Scope result_scope.

(** The range errors of the spec: slot index and banked address checks. *)
Definition is_range_error (e : exn) : bool :=
  match e with
  | SlotIndexRange | BankNegative | Bank0AddrRange | BankedAddrRange => true
  | _ => false
  end.

(** ** 1) RAM map constants (the ones the typed fields use) *)

Definition BATTLE_YOUR_HP_IN_BATTLE := 0xCB1C.
Definition BATTLE_ENEMY_STATUS := 0xD0FD.
Definition BATTLE_TYPE := 0xD116.
Definition WILD_POKEMON_SPECIES := 0xD0ED.
Definition WILD_POKEMON_LEVEL := 0xD0FC.
Definition PLAYER_SPRITE_ID := 0xD1FF.
Definition PLAYER_CLOTHES := 0xD203.
Definition PLAYER_X_POS := 0xD20D.
Definition PLAYER_Y_POS := 0xD20E.
Definition MAP_BANK := 0xDA00.
Definition MAP_NUMBER := 0xDA01.
Definition OVERWORLD_XY := 0xDA02.
Definition ON_BIKE_FLAG := 0xD682.
Definition REPEL_STEPS_LEFT := 0xD9EB.
Definition OPTIONS_BYTE := 0xD199.
Definition TRAINER_ID : Z * Z := (0xD1A1, 0xD1A2).
Definition TRAINER_NAME : Z * Z := (0xD1A3, 0xD1AC).
Definition WILD_BATTLES_ENABLED := 0xD20B.
Definition MONEY : Z * Z := (0xD573, 0xD575).
Definition MOM_MONEY : Z * Z := (0xD576, 0xD578).
Definition CASINO_COINS : Z * Z := (0xD57A, 0xD57B).
Definition JOHTO_BADGES := 0xD57C.
Definition KANTO_BADGES := 0xD57D.
Definition BAG_ITEM_COUNT := 0xD5B7.
Definition KEY_ITEM_COUNT := 0xD5E1.
Definition BALL_COUNT := 0xD5FC.
Definition PC_STORED_ITEMS_COUNT := 0xD616.
Definition PARTY_COUNT := 0xDA22.
Definition PARTY_SPECIES_LIST_START := 0xDA23.
Definition PARTY_MON_STRUCT_SIZE := 0x30.
Definition PARTY_MON_1_BASE := 0xDA2A.
Definition PARTY_MON_SPECIES_OFF := 0x00.
Definition PARTY_MON_HELD_ITEM_OFF := 0x01.
Definition PARTY_MON_MOVES_OFF := 0x02.
Definition PARTY_MON_ID_OFF := 0x06.
Definition PARTY_MON_EXP_OFF := 0x08.
Definition PARTY_MON_PP_OFF := 0x17.
Definition PARTY_MON_HAPPINESS_OFF := 0x1B.
Definition PARTY_MON_POKERUS_OFF := 0x1C.
Definition PARTY_MON_LEVEL_OFF := 0x1F.
Definition PARTY_MON_STATUS_OFF := 0x20.
Definition PARTY_MON_HP_OFF := 0x22.
Definition PARTY_MON_MAX_HP_OFF := 0x24.
Definition PARTY_MON_ATK_OFF := 0x26.
Definition PARTY_MON_DEF_OFF := 0x28.
Definition PARTY_MON_SPD_OFF := 0x2A.
Definition PARTY_MON_SPDEF_OFF := 0x2C.
Definition PARTY_MON_SPATK_OFF := 0x2E.

(** [party_mon_base], gsc_memory_lib.py lines 198-201. *)
Definition party_mon_base (slot_index_0_to_5 : Z) : result Z :=
  if negb ((0 <=? slot_index_0_to_5) && (slot_index_0_to_5 <=? 5))
  then Raise SlotIndexRange
  else Ok (PARTY_MON_1_BASE + (slot_index_0_to_5 * PARTY_MON_STRUCT_SIZE)).

(** ** 3) ROM map helpers *)

Module RomBankAddr.
Record t : Type := mk { bank : Z; addr : Z }.
End RomBankAddr.

(** [bankaddr_to_file_offset], gsc_memory_lib.py lines 420-429. *)
Definition bankaddr_to_file_offset (p : RomBankAddr.t) : result Z :=
  if RomBankAddr.bank p <? 0 then Raise BankNegative
  else if RomBankAddr.bank p =? 0 then
    if negb ((0x0000 <=? RomBankAddr.addr p) && (RomBankAddr.addr p <=? 0x3FFF))
    then Raise Bank0AddrRange
    else Ok (RomBankAddr.addr p)
  else if negb ((0x4000 <=? RomBankAddr.addr p) && (RomBankAddr.addr p <=? 0x7FFF))
  then Raise BankedAddrRange
  else Ok ((RomBankAddr.bank p * 0x4000) + (RomBankAddr.addr p - 0x4000)).

(** ** Python builtins used by the codec *)

(** A [bytes] object: a sequence of integers in [0..255]. *)
Definition bytes : Type := list Z.

Definition len {A : Type} (l : list A) : Z := Z.of_nat (length l).

Definition in_byte_range (x : Z) : bool := (0 <=? x) && (x <? 256).

(** [bytes(iterable_of_ints)]: raises when an element is outside [0..255]. *)
Definition bytes_of_ints (l : list Z) : result bytes :=
  if forallb in_byte_range l then Ok l else Raise ByteOutOfRange.

(** [bytearray.append(x)]. *)
Definition bytearray_append (out : bytes) (x : Z) : result bytes :=
  if in_byte_range x then Ok (out ++ [x]) else Raise ByteOutOfRange.

(** [l[i]] for a non-negative index. *)
Definition getitem {A : Type} (l : list A) (i : nat) : result A :=
  match nth_error l i with
  | Some x => Ok x
  | None => Raise IndexError
  end.

Fixpoint mapM {A B : Type} (f : A -> result B) (l : list A) : result (list B) :=
  match l with
  | [] => Ok []
  | x :: l' => let? y := f x in let? ys := mapM f l' in Ok (y :: ys)
  end.

Fixpoint foldM {A B : Type} (f : B -> A -> result B) (l : list A) (b : B) : result B :=
  match l with
  | [] => Ok b
  | x :: l' => let? b' := f b x in foldM f l' b'
  end.

(** Decimal digits of a non-negative integer, least significant first.
    The fuel bounds the number of digits; [dec_digits] supplies the number
    of binary digits, which is always enough. *)
Fixpoint dec_digits_rev (fuel : nat) (v : Z) : list Z :=
  match fuel with
  | O => []
  | S fuel' =>
      if v <? 10 then [v] else (v mod 10) :: dec_digits_rev fuel' (v / 10)
  end.

Definition dec_digits (v : Z) : list Z :=
  rev (dec_digits_rev (S (Z.to_nat (Z.log2 v))) v).

Definition digit_char (d : Z) : ascii := ascii_of_nat (Z.to_nat (48 + d)).

Definition zero_pad (width : nat) (s : list ascii) : list ascii :=
  repeat "0"%char (width - length s) ++ s.

(** [f"{v:06d}"]: sign-aware zero padding to a total width of 6. *)
Definition format_06d (v : Z) : list ascii :=
  if v <? 0
  then "-"%char :: zero_pad 5 (map digit_char (dec_digits (- v)))
  else zero_pad 6 (map digit_char (dec_digits v)).

(** [str(v)] for an integer. *)
Definition str_of_int (v : Z) : string :=
  string_of_list_ascii
    (if v <? 0
     then "-"%char :: map digit_char (dec_digits (- v))
     else map digit_char (dec_digits v)).

(** [int(ch)] for a one-character string. *)
Definition int_of_char (ch : ascii) : result Z :=
  let n := Z.of_nat (nat_of_ascii ch) in
  if (48 <=? n) && (n <=? 57) then Ok (n - 48) else Raise InvalidIntLiteral.

(** ** 2) Typed RAM fields: the codec *)

Inductive Encoding : Type :=
| U8 | U16_LE | U16_BE | U24_LE | U24_BCD | BYTES | TEXT_GSC.

Module MemField.
Record t : Type := mk {
  key : string;
  addr : Z;
  size : Z;
  enc : Encoding;
  doc : string
}.
End MemField.

Definition _decode_u16_le (b : bytes) : result Z :=
  let? b0 := getitem b 0 in
  let? b1 := getitem b 1 in
  Ok (Z.lor b0 (Z.shiftl b1 8)).

Definition _decode_u16_be (b : bytes) : result Z :=
  let? b0 := getitem b 0 in
  let? b1 := getitem b 1 in
  Ok (Z.lor (Z.shiftl b0 8) b1).

Definition _decode_u24_le (b : bytes) : result Z :=
  let? b0 := getitem b 0 in
  let? b1 := getitem b 1 in
  let? b2 := getitem b 2 in
  Ok (Z.lor (Z.lor b0 (Z.shiftl b1 8)) (Z.shiftl b2 16)).

(** [_decode_u24_bcd], gsc_memory_lib.py lines 243-251: the first loop
    appends the two nibbles of every byte to [digits], the second one
    accumulates [val = val * 10 + d].  Nothing in it can raise. *)
Definition bcd_nibbles (b : bytes) : list Z :=
  flat_map (fun x => [Z.land (Z.shiftr x 4) 0xF; Z.land x 0xF]) b.

Definition _decode_u24_bcd (b : bytes) : Z :=
  let digits := bcd_nibbles b in
  fold_left (fun val d => (val * 10) + d) digits 0.

Definition _encode_u16_le (v : Z) : result bytes :=
  bytes_of_ints [Z.land v 0xFF; Z.land (Z.shiftr v 8) 0xFF].

Definition _encode_u16_be (v : Z) : result bytes :=
  bytes_of_ints [Z.land (Z.shiftr v 8) 0xFF; Z.land v 0xFF].

Definition _encode_u24_le (v : Z) : result bytes :=
  bytes_of_ints
    [Z.land v 0xFF; Z.land (Z.shiftr v 8) 0xFF; Z.land (Z.shiftr v 16) 0xFF].

(** [_encode_u24_bcd], gsc_memory_lib.py lines 266-276. *)
Definition _encode_u24_bcd (v : Z) : result bytes :=
  let v := if v <? 0 then 0 else v in
  let v := if v >? 999999 then 999999 else v in
  let s := format_06d v in
  let? nibbles := mapM int_of_char s in
  foldM
    (fun out i =>
       let? hi := getitem nibbles i in
       let? lo := getitem nibbles (i + 1) in
       bytearray_append out (Z.lor (Z.shiftl hi 4) lo))
    [0; 2; 4]%nat [].

(** ** Field access functions *)

(** The [value] argument of [write_field] is an arbitrary Python object.
    The code observes it only through the builtins [int(value)] and
    [bytes(value)], so an object is modelled by what the two return on it. *)
Record pyvalue : Type := mkValue {
  py_int : result Z;
  py_bytes : result bytes
}.

(** An [int] object: [int(z)] is [z], [bytes(z)] is [z] zero bytes. *)
Definition VInt (z : Z) : pyvalue :=
  {| py_int := Ok z;
     py_bytes := if z <? 0 then Raise NegativeCount
                 else Ok (repeat 0 (Z.to_nat z)) |}.

(** What [read_field] returns: an integer or the raw bytes. *)
Inductive decoded : Type :=
| DInt (z : Z)
| DBytes (b : bytes).

(** Computations that call the caller's reader or writer: a state
    transformer on the caller's state [S] that keeps the state reached
    when an exception is raised. *)
Definition M (S A : Type) : Type := S -> result A * S.

Definition lift {S A : Type} (r : result A) : M S A := fun st => (r, st).

Definition bindM {S A B : Type} (m : M S A) (k : A -> M S B) : M S B :=
  fun st =>
    match m st with
    | (Ok a, st') => k a st'
    | (Raise e, st') => (Raise e, st')
    end.

Definition ReadFn (S : Type) : Type := Z -> Z -> M S bytes.
Definition WriteFn (S : Type) : Type := Z -> bytes -> M S unit.

(** [read_field], gsc_memory_lib.py lines 283-299.  [Encoding] is a closed
    enumeration, so the final [raise] of the source is not reachable. *)
Definition read_field {S : Type} (read_mem : ReadFn S) (field : MemField.t)
  : M S decoded :=
  bindM (read_mem (MemField.addr field) (MemField.size field)) (fun raw =>
    match MemField.enc field with
    | U8 => lift (let? x := getitem raw 0 in Ok (DInt x))
    | U16_LE => lift (let? x := _decode_u16_le raw in Ok (DInt x))
    | U16_BE => lift (let? x := _decode_u16_be raw in Ok (DInt x))
    | U24_LE => lift (let? x := _decode_u24_le raw in Ok (DInt x))
    | U24_BCD => lift (Ok (DInt (_decode_u24_bcd raw)))
    | BYTES => lift (Ok (DBytes raw))
    | TEXT_GSC => lift (Ok (DBytes raw))
    end).

(** [write_field], gsc_memory_lib.py lines 302-330. *)
Definition write_field {S : Type} (write_mem : WriteFn S) (field : MemField.t)
    (value : pyvalue) : M S unit :=
  match MemField.enc field with
  | U8 =>
      bindM (lift (let? n := py_int value in bytes_of_ints [Z.land n 0xFF]))
        (fun data => write_mem (MemField.addr field) data)
  | U16_LE =>
      bindM (lift (let? n := py_int value in _encode_u16_le n))
        (fun data => write_mem (MemField.addr field) data)
  | U16_BE =>
      bindM (lift (let? n := py_int value in _encode_u16_be n))
        (fun data => write_mem (MemField.addr field) data)
  | U24_LE =>
      bindM (lift (let? n := py_int value in _encode_u24_le n))
        (fun data => write_mem (MemField.addr field) data)
  | U24_BCD =>
      bindM (lift (let? n := py_int value in _encode_u24_bcd n))
        (fun data => write_mem (MemField.addr field) data)
  | BYTES =>
      bindM (lift (py_bytes value)) (fun b =>
        if negb (len b =? MemField.size field)
        then lift (Raise (LengthMismatch (MemField.key field)
                            (MemField.size field) (len b)))
        else write_mem (MemField.addr field) b)
  | TEXT_GSC =>
      bindM (lift (py_bytes value)) (fun b =>
        if negb (len b =? MemField.size field)
        then lift (Raise (LengthMismatch (MemField.key field)
                            (MemField.size field) (len b)))
        else write_mem (MemField.addr field) b)
  end.

(** The functions that [gsc_ram_fields.py] defines a second time. *)
Module GscRamFields.

(** [party_mon_base], gsc_ram_fields.py lines 202-205. *)
Definition party_mon_base (slot_index_0_to_5 : Z) : result Z :=
  if negb ((0 <=? slot_index_0_to_5) && (slot_index_0_to_5 <=? 5))
  then Raise SlotIndexRange
  else Ok (0xDA2A + (slot_index_0_to_5 * 0x30)).

(** [write_field], gsc_ram_fields.py lines 116-145; its encoders (lines
    66-88) are the same text as those of gsc_memory_lib.py. *)
Definition write_field {S : Type} (write_mem : WriteFn S)
    (field : MemField.t) (value : pyvalue) : M S unit :=
  match MemField.enc field with
  | U8 =>
      bindM (lift (let? n := py_int value in bytes_of_ints [Z.land n 0xFF]))
        (fun data => write_mem (MemField.addr field) data)
  | U16_LE =>
      bindM (lift (let? n := py_int value in _encode_u16_le n))
        (fun data => write_mem (MemField.addr field) data)
  | U16_BE =>
      bindM (lift (let? n := py_int value in _encode_u16_be n))
        (fun data => write_mem (MemField.addr field) data)
  | U24_LE =>
      bindM (lift (let? n := py_int value in _encode_u24_le n))
        (fun data => write_mem (MemField.addr field) data)
  | U24_BCD =>
      bindM (lift (let? n := py_int value in _encode_u24_bcd n))
        (fun data => write_mem (MemField.addr field) data)
  | BYTES =>
      bindM (lift (py_bytes value)) (fun b =>
        if negb (len b =? MemField.size field)
        then lift (Raise (LengthMismatch (MemField.key field)
                            (MemField.size field) (len b)))
        else write_mem (MemField.addr field) b)
  | TEXT_GSC =>
      bindM (lift (py_bytes value)) (fun b =>
        if negb (len b =? MemField.size field)
        then lift (Raise (LengthMismatch (MemField.key field)
                            (MemField.size field) (len b)))
        else write_mem (MemField.addr field) b)
  end.

End GscRamFields.

(** *** Two concrete callers *)

(** A writer that only records its calls, in order. *)
Definition log_writer : WriteFn (list (Z * bytes)) :=
  fun a data calls => (Ok tt, calls ++ [(a, data)]).

(** Python slice bounds: a negative bound counts from the end, and both
    bounds are clamped to [0..n]. *)
Definition slice_bound (n i : Z) : Z :=
  if i <? 0 then Z.max 0 (i + n) else Z.min i n.

(** [l[start:stop]]. *)
Definition py_slice {A : Type} (l : list A) (start stop : Z) : list A :=
  let s := slice_bound (len l) start in
  let e := slice_bound (len l) stop in
  firstn (Z.to_nat (e - s)) (skipn (Z.to_nat s) l).

(** [l[start:stop] = data] on a [bytearray]. *)
Definition py_slice_assign {A : Type} (l : list A) (start stop : Z)
    (data : list A) : list A :=
  let s := slice_bound (len l) start in
  let e := Z.max s (slice_bound (len l) stop) in
  firstn (Z.to_nat s) l ++ data ++ skipn (Z.to_nat e) l.

(** The [FakeMem] of tests/test_gsc_memory_lib.py: a [bytearray] with
    [read_mem] and [write_mem] (a splice). *)
Module FakeMem.
Definition read_mem : ReadFn bytes :=
  fun a size mem => (Ok (py_slice mem a (a + size)), mem).
Definition write_mem : WriteFn bytes :=
  fun a data mem => (Ok tt, py_slice_assign mem a (a + len data) data).
End FakeMem.

(** ** The RAM field catalog *)

(** A [dict] literal or [dict(...)]: items are inserted in order, a later
    item replacing an earlier one with the same key. *)
Definition dict_of_items (items : list (string * MemField.t))
  : gmap string MemField.t :=
  fold_left (fun cat kv => <[kv.1 := kv.2]> cat) items ∅.

(** [RAM_FIELDS_CORE], gsc_memory_lib.py lines 333-363. *)
Definition RAM_FIELDS_CORE_items : list (string * MemField.t) :=
  [
    ("player_sprite_id", MemField.mk "player_sprite_id" PLAYER_SPRITE_ID 1 U8
       "Player sprite ID");
    ("player_clothes", MemField.mk "player_clothes" PLAYER_CLOTHES 1 U8
       "Player clothes");
    ("options", MemField.mk "options" OPTIONS_BYTE 1 U8
       "Options byte");
    ("trainer_id", MemField.mk "trainer_id" (fst TRAINER_ID) 2 U16_LE
       "Trainer ID");
    ("player_name", MemField.mk "player_name" (fst TRAINER_NAME) (snd TRAINER_NAME - fst TRAINER_NAME + 1) TEXT_GSC
       "Player name (GSC text)");
    ("wild_battles_enabled", MemField.mk "wild_battles_enabled" WILD_BATTLES_ENABLED 1 U8
       "Wild battles flag");
    ("player_x", MemField.mk "player_x" PLAYER_X_POS 1 U8
       "Player X");
    ("player_y", MemField.mk "player_y" PLAYER_Y_POS 1 U8
       "Player Y");
    ("map_bank", MemField.mk "map_bank" MAP_BANK 1 U8
       "Map bank");
    ("map_number", MemField.mk "map_number" MAP_NUMBER 1 U8
       "Map number");
    ("overworld_xy", MemField.mk "overworld_xy" OVERWORLD_XY 2 BYTES
       "Overworld X then Y");
    ("money", MemField.mk "money" (fst MONEY) 3 U24_BCD
       "Money (3-byte BCD)");
    ("mom_money", MemField.mk "mom_money" (fst MOM_MONEY) 3 U24_BCD
       "Money held by Mom");
    ("casino_coins", MemField.mk "casino_coins" (fst CASINO_COINS) 2 U16_LE
       "Casino coins");
    ("johto_badges", MemField.mk "johto_badges" JOHTO_BADGES 1 U8
       "Johto badges bitfield");
    ("kanto_badges", MemField.mk "kanto_badges" KANTO_BADGES 1 U8
       "Kanto badges bitfield");
    ("party_count", MemField.mk "party_count" PARTY_COUNT 1 U8
       "Party count");
    ("party_species", MemField.mk "party_species" PARTY_SPECIES_LIST_START 6 BYTES
       "Party species list");
    ("bag_item_count", MemField.mk "bag_item_count" BAG_ITEM_COUNT 1 U8
       "Bag item count");
    ("key_item_count", MemField.mk "key_item_count" KEY_ITEM_COUNT 1 U8
       "Key item count");
    ("ball_count", MemField.mk "ball_count" BALL_COUNT 1 U8
       "Ball count");
    ("pc_item_count", MemField.mk "pc_item_count" PC_STORED_ITEMS_COUNT 1 U8
       "PC item count");
    ("repel_steps", MemField.mk "repel_steps" REPEL_STEPS_LEFT 1 U8
       "Repel steps left");
    ("on_bike_flag", MemField.mk "on_bike_flag" ON_BIKE_FLAG 1 U8
       "On bike flag");
    ("battle_type", MemField.mk "battle_type" BATTLE_TYPE 1 U8
       "Battle type");
    ("wild_species", MemField.mk "wild_species" WILD_POKEMON_SPECIES 1 U8
       "Wild species");
    ("wild_level", MemField.mk "wild_level" WILD_POKEMON_LEVEL 1 U8
       "Wild/enemy level");
    ("your_hp_battle", MemField.mk "your_hp_battle" BATTLE_YOUR_HP_IN_BATTLE 2 U16_BE
       "Your HP in battle");
    ("enemy_status", MemField.mk "enemy_status" BATTLE_ENEMY_STATUS 1 U8
       "Enemy status")
  ]%string.

Definition RAM_FIELDS_CORE : gmap string MemField.t :=
  dict_of_items RAM_FIELDS_CORE_items.

(** [party_fields_for_slot], gsc_memory_lib.py lines 366-387: the items of
    the returned [dict] literal, in order. *)
Definition party_fields_for_slot (slot_index_0_to_5 : Z)
  : result (list (string * MemField.t)) :=
  let? base := party_mon_base slot_index_0_to_5 in
  let pfx := ("party[" ++ str_of_int slot_index_0_to_5 ++ "]")%string in
  Ok [
    ((pfx ++ ".species")%string,
     MemField.mk (pfx ++ ".species")%string (base + PARTY_MON_SPECIES_OFF) 1 U8 "Species");
    ((pfx ++ ".item")%string,
     MemField.mk (pfx ++ ".item")%string (base + PARTY_MON_HELD_ITEM_OFF) 1 U8 "Held item");
    ((pfx ++ ".moves")%string,
     MemField.mk (pfx ++ ".moves")%string (base + PARTY_MON_MOVES_OFF) 4 BYTES "Moves");
    ((pfx ++ ".id")%string,
     MemField.mk (pfx ++ ".id")%string (base + PARTY_MON_ID_OFF) 2 U16_BE "OT/mon ID");
    ((pfx ++ ".exp")%string,
     MemField.mk (pfx ++ ".exp")%string (base + PARTY_MON_EXP_OFF) 3 U24_LE "EXP");
    ((pfx ++ ".pp")%string,
     MemField.mk (pfx ++ ".pp")%string (base + PARTY_MON_PP_OFF) 4 BYTES "PP");
    ((pfx ++ ".happiness")%string,
     MemField.mk (pfx ++ ".happiness")%string (base + PARTY_MON_HAPPINESS_OFF) 1 U8 "Happiness");
    ((pfx ++ ".pokerus")%string,
     MemField.mk (pfx ++ ".pokerus")%string (base + PARTY_MON_POKERUS_OFF) 1 U8 "Pokerus");
    ((pfx ++ ".level")%string,
     MemField.mk (pfx ++ ".level")%string (base + PARTY_MON_LEVEL_OFF) 1 U8 "Level");
    ((pfx ++ ".status")%string,
     MemField.mk (pfx ++ ".status")%string (base + PARTY_MON_STATUS_OFF) 2 U16_BE "Status");
    ((pfx ++ ".hp")%string,
     MemField.mk (pfx ++ ".hp")%string (base + PARTY_MON_HP_OFF) 2 U16_BE "HP");
    ((pfx ++ ".max_hp")%string,
     MemField.mk (pfx ++ ".max_hp")%string (base + PARTY_MON_MAX_HP_OFF) 2 U16_BE "Max HP");
    ((pfx ++ ".atk")%string,
     MemField.mk (pfx ++ ".atk")%string (base + PARTY_MON_ATK_OFF) 2 U16_BE "Attack");
    ((pfx ++ ".def")%string,
     MemField.mk (pfx ++ ".def")%string (base + PARTY_MON_DEF_OFF) 2 U16_BE "Defense");
    ((pfx ++ ".spd")%string,
     MemField.mk (pfx ++ ".spd")%string (base + PARTY_MON_SPD_OFF) 2 U16_BE "Speed");
    ((pfx ++ ".spdef")%string,
     MemField.mk (pfx ++ ".spdef")%string (base + PARTY_MON_SPDEF_OFF) 2 U16_BE "Sp Def");
    ((pfx ++ ".spatk")%string,
     MemField.mk (pfx ++ ".spatk")%string (base + PARTY_MON_SPATK_OFF) 2 U16_BE "Sp Atk")
  ].

(** [range(6)]. *)
Definition range6 : list Z := [0; 1; 2; 3; 4; 5].

(** [iter_all_party_fields], gsc_memory_lib.py lines 390-392: the fields
    the generator yields, in order.  The keys of one slot's [dict] are
    pairwise distinct, so its [values()] are the second components of its
    items. *)
Definition iter_all_party_fields : result (list MemField.t) :=
  let? slots := mapM party_fields_for_slot range6 in
  Ok (concat (map (map snd) slots)).

(** [build_ram_catalog], gsc_memory_lib.py lines 395-400. *)
Definition build_ram_catalog (include_party : bool)
  : result (gmap string MemField.t) :=
  let cat := RAM_FIELDS_CORE in
  if include_party
  then
    let? fs := iter_all_party_fields in
    Ok (fold_left (fun cat f => <[MemField.key f := f]> cat) fs cat)
  else Ok cat.

(** ** ROM ranges and typed ROM fields *)

Module RomRange.
Record t : Type := mk { start_off : Z; end_off_excl : Z; desc : string }.
End RomRange.

(** [read_rom_range], gsc_memory_lib.py lines 471-472. *)
Definition read_rom_range (rom : bytes) (r : RomRange.t) : bytes :=
  py_slice rom (RomRange.start_off r) (RomRange.end_off_excl r).

(** [read_rom_bankaddr], gsc_memory_lib.py lines 475-477. *)
Definition read_rom_bankaddr (rom : bytes) (p : RomBankAddr.t) (size : Z)
  : result bytes :=
  let? off := bankaddr_to_file_offset p in
  Ok (py_slice rom off (off + size)).

Inductive RomLocKind : Type :=
| FILE_RANGE
| BANK_ADDR.

Module RomField.
Record t : Type := mk {
  key : string;
  kind : RomLocKind;
  desc : string;
  file_range : option RomRange.t;
  bank_addr : option RomBankAddr.t;
  size : option Z
}.
End RomField.

(** [read_rom_field], gsc_memory_lib.py lines 495-504.  [RomLocKind] is a
    closed enumeration, so the final [raise] of the source is not
    reachable. *)
Definition read_rom_field (rom : bytes) (f : RomField.t) : result bytes :=
  match RomField.kind f with
  | FILE_RANGE =>
      match RomField.file_range f with
      | None => Raise (MissingFileRange (RomField.key f))
      | Some r => Ok (read_rom_range rom r)
      end
  | BANK_ADDR =>
      match RomField.bank_addr f, RomField.size f with
      | Some p, Some size => read_rom_bankaddr rom p size
      | _, _ => Raise (MissingBankAddrSize (RomField.key f))
      end
  end.

(** ** Vocabulary of the properties *)

(** The stride property as the specification words it, at one slot: both
    calls return and the two addresses are [0x30] apart. *)
Definition stride_holds_at (slot : Z) : Prop :=
  exists hi lo,
    party_mon_base (slot + 1) = Ok hi
    /\ party_mon_base slot = Ok lo
    /\ hi - lo = 0x30.

(** The accepted domain of [bankaddr_to_file_offset]. *)
Definition valid_bankaddr (p : RomBankAddr.t) : Prop :=
  (RomBankAddr.bank p = 0 /\ 0x0000 <= RomBankAddr.addr p <= 0x3FFF)
  \/ (1 <= RomBankAddr.bank p /\ 0x4000 <= RomBankAddr.addr p <= 0x7FFF).

Definition blob_encoding (e : Encoding) : Prop := e = BYTES \/ e = TEXT_GSC.

(** The decimal digit of weight [10 ^ i]. *)
Definition decimal_digit (c : Z) (i : Z) : Z := (c / 10 ^ i) mod 10.

Definition six_digits (c : Z) : list Z :=
  [decimal_digit c 5; decimal_digit c 4; decimal_digit c 3;
   decimal_digit c 2; decimal_digit c 1; decimal_digit c 0].

(** The clamp of [_encode_u24_bcd] and the three bytes it packs. *)
Definition clamp_u24_bcd (v : Z) : Z := Z.max 0 (Z.min v 999999).

Definition pack_nibbles (hi lo : Z) : Z := Z.lor (Z.shiftl hi 4) lo.

Definition packed_bcd (c : Z) : bytes :=
  [pack_nibbles (decimal_digit c 5) (decimal_digit c 4);
   pack_nibbles (decimal_digit c 3) (decimal_digit c 2);
   pack_nibbles (decimal_digit c 1) (decimal_digit c 0)].

(** The number of bytes an integer encoding writes; [BYTES] and [TEXT_GSC]
    write as many as the field declares. *)
Definition enc_width (e : Encoding) : option Z :=
  match e with
  | U8 => Some 1
  | U16_LE | U16_BE => Some 2
  | U24_LE | U24_BCD => Some 3
  | BYTES | TEXT_GSC => None
  end.

Definition width_consistent (f : MemField.t) : bool :=
  match enc_width (MemField.enc f) with
  | Some w => MemField.size f =? w
  | None => true
  end.

(** A catalog all of whose fields are width-consistent. *)
Definition catalog_consistent (cat : gmap string MemField.t) : Prop :=
  forall k f, cat !! k = Some f -> width_consistent f = true.

(** ** Further functions of the library *)

(** Party names (OT names and nicknames), gsc_memory_lib.py lines 181-183. *)
Definition PARTY_NAME_LEN := 0x0B.
Definition PARTY_OT_NAMES_START := 0xDB4A.
Definition PARTY_NICKNAMES_START := 0xDB8C.

(** [party_ot_name_addr], gsc_memory_lib.py lines 186-189. *)
Definition party_ot_name_addr (slot_index_0_to_5 : Z) : result Z :=
  if negb ((0 <=? slot_index_0_to_5) && (slot_index_0_to_5 <=? 5))
  then Raise SlotIndexRange
  else Ok (PARTY_OT_NAMES_START + (slot_index_0_to_5 * PARTY_NAME_LEN)).

(** [party_nickname_addr], gsc_memory_lib.py lines 192-195. *)
Definition party_nickname_addr (slot_index_0_to_5 : Z) : result Z :=
  if negb ((0 <=? slot_index_0_to_5) && (slot_index_0_to_5 <=? 5))
  then Raise SlotIndexRange
  else Ok (PARTY_NICKNAMES_START + (slot_index_0_to_5 * PARTY_NAME_LEN)).

(** [party_mon_field_addr], gsc_memory_lib.py lines 204-205. *)
Definition party_mon_field_addr (slot_index_0_to_5 field_offset : Z)
  : result Z :=
  let? base := party_mon_base slot_index_0_to_5 in
  Ok (base + field_offset).

(** The three per-slot tables of the party and the byte region
    [(address, length)] that a slot owns in each of them. *)
Inductive party_table : Type :=
| MonStructs
| OtNames
| Nicknames.

Definition party_region (t : party_table) (slot : Z) : result (Z * Z) :=
  match t with
  | MonStructs =>
      let? a := party_mon_base slot in Ok (a, PARTY_MON_STRUCT_SIZE)
  | OtNames =>
      let? a := party_ot_name_addr slot in Ok (a, PARTY_NAME_LEN)
  | Nicknames =>
      let? a := party_nickname_addr slot in Ok (a, PARTY_NAME_LEN)
  end.

(** A byte both of whose nibbles are decimal digits. *)
Definition bcd_byte (x : Z) : Prop :=
  0 <= x < 256 /\ x / 16 <= 9 /\ x mod 16 <= 9.

(** The integers an integer encoding stores without loss. *)
Definition fits (e : Encoding) (v : Z) : Prop :=
  match e with
  | U8 => 0 <= v < 256
  | U16_LE | U16_BE => 0 <= v < 65536
  | U24_LE => 0 <= v < 16777216
  | U24_BCD => 0 <= v <= 999999
  | BYTES | TEXT_GSC => False
  end.

(** The field's bytes lie inside a memory of [n] bytes. *)
Definition in_memory (f : MemField.t) (n : Z) : Prop :=
  0 <= MemField.addr f /\ 0 <= MemField.size f
  /\ MemField.addr f + MemField.size f <= n.

(** The bytes [write_field] hands to the writer, or the exception it
    raises before calling it. *)
Definition encoded_bytes (f : MemField.t) (value : pyvalue) : result bytes :=
  match MemField.enc f with
  | U8 => let? n := py_int value in bytes_of_ints [Z.land n 0xFF]
  | U16_LE => let? n := py_int value in _encode_u16_le n
  | U16_BE => let? n := py_int value in _encode_u16_be n
  | U24_LE => let? n := py_int value in _encode_u24_le n
  | U24_BCD => let? n := py_int value in _encode_u24_bcd n
  | BYTES | TEXT_GSC =>
      let? b := py_bytes value in
      if len b =? MemField.size f then Ok b
      else Raise (LengthMismatch (MemField.key f) (MemField.size f) (len b))
  end.

(** The items that [build_ram_catalog] inserts, in insertion order: the
    core table, then every generated party field under its own key. *)
Definition party_items : list (string * MemField.t) :=
  match iter_all_party_fields with
  | Ok fs => map (fun f => (MemField.key f, f)) fs
  | Raise _ => []
  end.

Definition catalog_items (include_party : bool)
  : list (string * MemField.t) :=
  RAM_FIELDS_CORE_items ++ (if include_party then party_items else []).

(** Two fields occupy disjoint byte ranges. *)
Definition regions_disjoint (f g : MemField.t) : Prop :=
  MemField.addr f + MemField.size f <= MemField.addr g
  \/ MemField.addr g + MemField.size g <= MemField.addr f.

Definition regions_disjointb (f g : MemField.t) : bool :=
  (MemField.addr f + MemField.size f <=? MemField.addr g)
  || (MemField.addr g + MemField.size g <=? MemField.addr f).

(** The field is stored under its own key, is not empty, and lies in the
    part of the address space that the catalog covers. *)
Definition well_placedb (kv : string * MemField.t) : bool :=
  String.eqb (MemField.key kv.2) kv.1
  && (0 <? MemField.size kv.2)
  && (0xCB1C <=? MemField.addr kv.2)
  && (MemField.addr kv.2 + MemField.size kv.2 <=? 0xDB4A).

Definition pairwise_disjointb (items : list (string * MemField.t)) : bool :=
  forallb (fun x =>
    forallb (fun y => String.eqb x.1 y.1 || regions_disjointb x.2 y.2) items)
    items.

(** One insertion of [dict_of_items]. *)
Definition insert_item (cat : gmap string MemField.t)
    (kv : string * MemField.t) : gmap string MemField.t :=
  <[kv.1 := kv.2]> cat.

(** ** The GSC text codec of the GUI (run_emulator_gui.py) *)

(** A Python [str]: the list of its code points. *)
Definition pystr : Type := list Z.

(** The byte that the loop of [encode_gsc_text] appends for one character
    (run_emulator_gui.py lines 102-111): space, [A-Z], [a-z], [0-9], and
    [0x7F] for anything else. *)
Definition encode_gsc_char (ch : Z) : Z :=
  if ch =? 32 then 0x7F
  else if (65 <=? ch) && (ch <=? 90) then 0x80 + (ch - 65)
  else if (97 <=? ch) && (ch <=? 122) then 0xA0 + (ch - 97)
  else if (48 <=? ch) && (ch <=? 57) then 0xF6 + (ch - 48)
  else 0x7F.

(** The [for ch in text] loop, with its [break] once [size] bytes are
    there. *)
Fixpoint encode_gsc_loop (text : pystr) (size : Z) (out : bytes)
  : result bytes :=
  match text with
  | [] => Ok out
  | ch :: rest =>
      if len out >=? size then Ok out
      else
        let? out' := bytearray_append out (encode_gsc_char ch) in
        encode_gsc_loop rest size out'
  end.

(** The loop [while len(out) < size: out.append(0x50)]; it runs [n] times,
    [n] being [size - len(out)] when that is positive and 0 otherwise. *)
Fixpoint append_terminators (n : nat) (out : bytes) : result bytes :=
  match n with
  | O => Ok out
  | S n' =>
      let? out' := bytearray_append out 0x50 in append_terminators n' out'
  end.

(** [encode_gsc_text], run_emulator_gui.py lines 96-116. *)
Definition encode_gsc_text (text : pystr) (size : Z) : result bytes :=
  let? out := encode_gsc_loop text size [] in
  let? out := bytearray_append out 0x50 in
  let? out := append_terminators (Z.to_nat (size - len out)) out in
  Ok (py_slice out 0 size).

(** The character that the loop of [decode_gsc_text] appends for a byte
    other than the terminator (run_emulator_gui.py lines 80-92). *)
Definition decode_gsc_char (b : Z) : Z :=
  if (b =? 0x7F) || (b =? 0x00) then 32
  else if (0x80 <=? b) && (b <=? 0x99) then 65 + (b - 0x80)
  else if (0xA0 <=? b) && (b <=? 0xB9) then 97 + (b - 0xA0)
  else if (0xF6 <=? b) && (b <=? 0xFF) then 48 + (b - 0xF6)
  else 63.

Fixpoint decode_gsc_loop (raw : bytes) : pystr :=
  match raw with
  | [] => []
  | b :: rest =>
      if b =? 0x50 then [] else decode_gsc_char b :: decode_gsc_loop rest
  end.

(** [str.isspace] on one character: the Unicode white space. *)
Definition py_isspace (c : Z) : bool :=
  ((9 <=? c) && (c <=? 13)) || ((28 <=? c) && (c <=? 32))
  || (c =? 133) || (c =? 160) || (c =? 5760)
  || ((8192 <=? c) && (c <=? 8202))
  || (c =? 8232) || (c =? 8233) || (c =? 8239) || (c =? 8287)
  || (c =? 12288).

Fixpoint py_lstrip (s : pystr) : pystr :=
  match s with
  | [] => []
  | c :: rest => if py_isspace c then py_lstrip rest else s
  end.

(** [s.strip()]. *)
Definition py_strip (s : pystr) : pystr :=
  rev (py_lstrip (rev (py_lstrip s))).

(** [decode_gsc_text], run_emulator_gui.py lines 74-93. *)
Definition decode_gsc_text (raw : bytes) : pystr :=
  py_strip (decode_gsc_loop raw).

(** The characters the text codec keeps: letters and digits. *)
Definition gsc_alnum (ch : Z) : bool :=
  ((65 <=? ch) && (ch <=? 90)) || ((97 <=? ch) && (ch <=? 122))
  || ((48 <=? ch) && (ch <=? 57)).

(** What a character looks like after encoding and decoding: kept when it
    is a letter or a digit, a space otherwise. *)
Definition gsc_sanitize (ch : Z) : Z := if gsc_alnum ch then ch else 32.

(** ** [snapshot_ram] *)

(** How [snapshot_ram] ends: with the dictionary of decoded values, with
    the [KeyError] of [cat[k]] for a key that is not in the catalog, or
    with an exception of [build_ram_catalog] or [read_field]. *)
Inductive snapshot_outcome : Type :=
| Snapshot (values : gmap string decoded)
| SnapshotKeyError (k : string)
| SnapshotRaise (e : exn).

(** The keys of a [dict] in iteration order: every key at the place of its
    first insertion. *)
Fixpoint insertion_order (seen ks : list string) : list string :=
  match ks with
  | [] => []
  | k :: rest =>
      if bool_decide (k ∈ seen) then insertion_order seen rest
      else k :: insertion_order (k :: seen) rest
  end.

(** [cat.keys()] for the catalog with the party. *)
Definition catalog_keys : list string :=
  insertion_order [] (map fst (catalog_items true)).

(** The dictionary comprehension
    [{k: read_field(read_mem, cat[k]) for k in keys}]. *)
Fixpoint snapshot_loop {S : Type} (read_mem : ReadFn S)
    (cat : gmap string MemField.t) (keys : list string)
    (acc : gmap string decoded) (st : S) : snapshot_outcome * S :=
  match keys with
  | [] => (Snapshot acc, st)
  | k :: rest =>
      match cat !! k with
      | None => (SnapshotKeyError k, st)
      | Some field =>
          match read_field read_mem field st with
          | (Ok v, st') => snapshot_loop read_mem cat rest (<[k := v]> acc) st'
          | (Raise e, st') => (SnapshotRaise e, st')
          end
      end
  end.

(** [snapshot_ram], gsc_memory_lib.py lines 403-407. *)
Definition snapshot_ram {S : Type} (read_mem : ReadFn S)
    (keys : option (list string)) (st : S) : snapshot_outcome * S :=
  match build_ram_catalog true with
  | Raise e => (SnapshotRaise e, st)
  | Ok cat =>
      let keys :=
        match keys with
        | None => catalog_keys
        | Some ks => ks
        end in
      snapshot_loop read_mem cat keys ∅ st
  end.

(** ** The bag item list of the GUI (run_emulator_gui.py) *)

Definition BAG_ITEMS_START := 0xD5B8.
Definition BAG_ITEMS_END_OF_LIST := 0xD5E0.

(** [data[i] = x] on a [bytearray]. *)
Definition bytearray_setitem (data : list Z) (i x : Z) : result bytes :=
  let j := if i <? 0 then i + len data else i in
  if (0 <=? j) && (j <? len data)
  then if in_byte_range x then Ok (<[Z.to_nat j := x]> data)
       else Raise ByteOutOfRange
  else Raise IndexError.

(** The [while i < len(blob)] loop of [_read_bag_items], run on
    [rest = blob[i:]]: every turn looks at [blob[i]] and [blob[i + 1]], the
    first two bytes of [rest], and goes on with [i + 2]. *)
Fixpoint read_items_from (rest : bytes) : list (Z * Z) :=
  match rest with
  | [] => []
  | item_id :: rest1 =>
      if item_id =? 0xFF then []
      else
        match rest1 with
        | [] => []
        | qty :: rest2 =>
            if negb (item_id =? 0)
            then (item_id, qty) :: read_items_from rest2
            else read_items_from rest2
        end
  end.

(** [EmulatorApp._read_bag_items], run_emulator_gui.py lines 1080-1096,
    over the reader it calls. *)
Definition _read_bag_items {S : Type} (read_mem : ReadFn S)
  : M S (list (Z * Z)) :=
  let total_len := (BAG_ITEMS_END_OF_LIST - BAG_ITEMS_START) + 1 in
  bindM (read_mem BAG_ITEMS_START total_len) (fun blob =>
    lift (Ok (read_items_from blob))).

(** The normalising loop of [_write_bag_items] (lines 1105-1111). *)
Fixpoint normalize_items (items : list (Z * Z)) : list (Z * Z) :=
  match items with
  | [] => []
  | (item_id, qty) :: rest =>
      let iid := Z.land item_id 0xFF in
      if (iid =? 0) || (iid =? 0xFF) then normalize_items rest
      else (iid, Z.max 1 (Z.min 99 qty)) :: normalize_items rest
  end.

(** The filling loop of [_write_bag_items] (lines 1115-1121), with its
    [break]; it returns the buffer and [pos]. *)
Fixpoint fill_items (normalized : list (Z * Z)) (data : bytes) (pos : Z)
  : result (bytes * Z) :=
  match normalized with
  | [] => Ok (data, pos)
  | (iid, q) :: rest =>
      if pos + 2 >? len data then Ok (data, pos)
      else
        let? data := bytearray_setitem data pos (Z.land iid 0xFF) in
        let? data := bytearray_setitem data (pos + 1) (Z.land q 0xFF) in
        fill_items rest data (pos + 2)
  end.

(** [EmulatorApp._write_bag_items], run_emulator_gui.py lines 1098-1127,
    over the writer it calls. *)
Definition _write_bag_items {S : Type} (write_mem : WriteFn S)
    (items : list (Z * Z)) : M S unit :=
  let total_len := (BAG_ITEMS_END_OF_LIST - BAG_ITEMS_START) + 1 in
  let max_slots := Z.max 0 ((total_len - 1) / 2) in
  let normalized := py_slice (normalize_items items) 0 max_slots in
  bindM (lift (
      let? filled := fill_items normalized (repeat 0 (Z.to_nat total_len)) 0 in
      let data := fst filled in
      let pos := snd filled in
      if pos <? len data then bytearray_setitem data pos 0xFF else Ok data))
    (fun data =>
       bindM (write_mem BAG_ITEMS_START data) (fun _ =>
         bindM (lift (bytes_of_ints [Z.land (len normalized) 0xFF]))
           (fun count => write_mem BAG_ITEM_COUNT count))).

(** The bytes of a list of items: id, quantity, id, quantity, ... *)
Fixpoint item_bytes (items : list (Z * Z)) : bytes :=
  match items with
  | [] => []
  | (iid, q) :: rest => iid :: q :: item_bytes rest
  end.

(** An entry as [_write_bag_items] stores it. *)
Definition stored_item (it : Z * Z) : Prop :=
  1 <= it.1 <= 254 /\ 1 <= it.2 <= 99.

(** ** The catalog of gsc_ram_fields.py *)

#[global] Instance Encoding_eq_dec : EqDecision Encoding.
Proof. solve_decision. Defined.

Module GscRamFieldsCatalog.

(** [FIELDS], gsc_ram_fields.py lines 148-177: the items of the literal. *)
Definition FIELDS_items : list (string * MemField.t) :=
  [
    ("player_sprite_id", MemField.mk "player_sprite_id" 0xD1FF 1 U8
       "Player sprite ID");
    ("player_clothes", MemField.mk "player_clothes" 0xD203 1 U8
       "Player clothes");
    ("options", MemField.mk "options" 0xD199 1 U8
       "Options byte");
    ("wild_battles_enabled", MemField.mk "wild_battles_enabled" 0xD20B 1 U8
       "Wild battles flag");
    ("player_x", MemField.mk "player_x" 0xD20D 1 U8
       "Player X");
    ("player_y", MemField.mk "player_y" 0xD20E 1 U8
       "Player Y");
    ("map_bank", MemField.mk "map_bank" 0xDA00 1 U8
       "Map bank");
    ("map_number", MemField.mk "map_number" 0xDA01 1 U8
       "Map number");
    ("overworld_xy", MemField.mk "overworld_xy" 0xDA02 2 BYTES
       "Overworld X then Y");
    ("money", MemField.mk "money" 0xD573 3 U24_BCD
       "Money (3-byte BCD)");
    ("mom_money", MemField.mk "mom_money" 0xD576 3 U24_BCD
       "Money held by Mom");
    ("casino_coins", MemField.mk "casino_coins" 0xD57A 2 U16_LE
       "Casino coins");
    ("johto_badges", MemField.mk "johto_badges" 0xD57C 1 U8
       "Johto badge bits");
    ("kanto_badges", MemField.mk "kanto_badges" 0xD57D 1 U8
       "Kanto badge bits");
    ("party_count", MemField.mk "party_count" 0xDA22 1 U8
       "Party count");
    ("party_species", MemField.mk "party_species" 0xDA23 6 BYTES
       "Party species list");
    ("bag_item_count", MemField.mk "bag_item_count" 0xD5B7 1 U8
       "Bag item count");
    ("key_item_count", MemField.mk "key_item_count" 0xD5E1 1 U8
       "Key item count");
    ("ball_count", MemField.mk "ball_count" 0xD5FC 1 U8
       "Ball count");
    ("pc_item_count", MemField.mk "pc_item_count" 0xD616 1 U8
       "PC item count");
    ("repel_steps", MemField.mk "repel_steps" 0xD9EB 1 U8
       "Repel steps left");
    ("on_bike_flag", MemField.mk "on_bike_flag" 0xD682 1 U8
       "On bike flag");
    ("battle_type", MemField.mk "battle_type" 0xD116 1 U8
       "Battle type");
    ("wild_species", MemField.mk "wild_species" 0xD0ED 1 U8
       "Wild species");
    ("wild_level", MemField.mk "wild_level" 0xD0FC 1 U8
       "Wild/enemy level");
    ("your_hp_battle", MemField.mk "your_hp_battle" 0xCB1C 2 U16_BE
       "Your HP in battle");
    ("enemy_level", MemField.mk "enemy_level" 0xD0FC 1 U8
       "Enemy level");
    ("enemy_status", MemField.mk "enemy_status" 0xD0FD 1 U8
       "Enemy status")
  ]%string.

Definition FIELDS : gmap string MemField.t := dict_of_items FIELDS_items.

Definition PARTY_MON_1_BASE := 0xDA2A.
Definition PARTY_MON_STRUCT_SIZE := 0x30.

Definition _OFF_SPECIES := 0x00.
Definition _OFF_ITEM := 0x01.
Definition _OFF_MOVES := 0x02.
Definition _OFF_ID := 0x06.
Definition _OFF_EXP := 0x08.
Definition _OFF_PP := 0x17.
Definition _OFF_HAPPINESS := 0x1B.
Definition _OFF_POKERUS := 0x1C.
Definition _OFF_LEVEL := 0x1F.
Definition _OFF_STATUS := 0x20.
Definition _OFF_HP := 0x22.
Definition _OFF_MAX_HP := 0x24.
Definition _OFF_ATK := 0x26.
Definition _OFF_DEF := 0x28.
Definition _OFF_SPD := 0x2A.
Definition _OFF_SPDEF := 0x2C.
Definition _OFF_SPATK := 0x2E.

(** [party_fields_for_slot], gsc_ram_fields.py lines 208-230. *)
Definition party_fields_for_slot (slot_index_0_to_5 : Z)
  : result (list (string * MemField.t)) :=
  let? b := GscRamFields.party_mon_base slot_index_0_to_5 in
  let pfx := ("party[" ++ str_of_int slot_index_0_to_5 ++ "]")%string in
  Ok [
    ((pfx ++ ".species")%string,
     MemField.mk (pfx ++ ".species")%string (b + _OFF_SPECIES) 1 U8 "Species");
    ((pfx ++ ".item")%string,
     MemField.mk (pfx ++ ".item")%string (b + _OFF_ITEM) 1 U8 "Held item");
    ((pfx ++ ".moves")%string,
     MemField.mk (pfx ++ ".moves")%string (b + _OFF_MOVES) 4 BYTES "Moves");
    ((pfx ++ ".id")%string,
     MemField.mk (pfx ++ ".id")%string (b + _OFF_ID) 2 U16_BE "OT/mon ID");
    ((pfx ++ ".exp")%string,
     MemField.mk (pfx ++ ".exp")%string (b + _OFF_EXP) 3 U24_LE "EXP");
    ((pfx ++ ".pp")%string,
     MemField.mk (pfx ++ ".pp")%string (b + _OFF_PP) 4 BYTES "PP");
    ((pfx ++ ".happiness")%string,
     MemField.mk (pfx ++ ".happiness")%string (b + _OFF_HAPPINESS) 1 U8 "Happiness");
    ((pfx ++ ".pokerus")%string,
     MemField.mk (pfx ++ ".pokerus")%string (b + _OFF_POKERUS) 1 U8 "Pokerus");
    ((pfx ++ ".level")%string,
     MemField.mk (pfx ++ ".level")%string (b + _OFF_LEVEL) 1 U8 "Level");
    ((pfx ++ ".status")%string,
     MemField.mk (pfx ++ ".status")%string (b + _OFF_STATUS) 2 U16_BE "Status");
    ((pfx ++ ".hp")%string,
     MemField.mk (pfx ++ ".hp")%string (b + _OFF_HP) 2 U16_BE "HP");
    ((pfx ++ ".max_hp")%string,
     MemField.mk (pfx ++ ".max_hp")%string (b + _OFF_MAX_HP) 2 U16_BE "Max HP");
    ((pfx ++ ".atk")%string,
     MemField.mk (pfx ++ ".atk")%string (b + _OFF_ATK) 2 U16_BE "Attack");
    ((pfx ++ ".def")%string,
     MemField.mk (pfx ++ ".def")%string (b + _OFF_DEF) 2 U16_BE "Defense");
    ((pfx ++ ".spd")%string,
     MemField.mk (pfx ++ ".spd")%string (b + _OFF_SPD) 2 U16_BE "Speed");
    ((pfx ++ ".spdef")%string,
     MemField.mk (pfx ++ ".spdef")%string (b + _OFF_SPDEF) 2 U16_BE "Sp Def");
    ((pfx ++ ".spatk")%string,
     MemField.mk (pfx ++ ".spatk")%string (b + _OFF_SPATK) 2 U16_BE "Sp Atk")
  ].

(** [iter_all_party_fields], gsc_ram_fields.py lines 233-235. *)
Definition iter_all_party_fields : result (list MemField.t) :=
  let? slots := mapM party_fields_for_slot range6 in
  Ok (concat (map (map snd) slots)).

(** [build_catalog], gsc_ram_fields.py lines 238-243. *)
Definition build_catalog (include_party : bool)
  : result (gmap string MemField.t) :=
  let cat := FIELDS in
  if include_party
  then
    let? fs := iter_all_party_fields in
    Ok (fold_left (fun cat f => <[MemField.key f := f]> cat) fs cat)
  else Ok cat.

End GscRamFieldsCatalog.

(** Two descriptors locate and decode the same bytes. *)
Definition same_placement (f g : MemField.t) : Prop :=
  MemField.addr f = MemField.addr g
  /\ MemField.size f = MemField.size g
  /\ MemField.enc f = MemField.enc g.

Definition same_placementb (f g : MemField.t) : bool :=
  (MemField.addr f =? MemField.addr g)
  && (MemField.size f =? MemField.size g)
  && bool_decide (MemField.enc f = MemField.enc g).

(** Some item of [items] has the key [k] and the placement of [f]. *)
Definition placed_in (items : list (string * MemField.t)) (k : string)
    (f : MemField.t) : bool :=
  existsb (fun kv => String.eqb kv.1 k && same_placementb f kv.2) items.

(** The items of [GscRamFieldsCatalog.build_catalog(True)]. *)
Definition ram_fields_items : list (string * MemField.t) :=
  GscRamFieldsCatalog.FIELDS_items ++ party_items.

(** * Properties *)

(** ** Address and offset helpers *)

Ltac range_cases :=
  repeat match goal with
  | |- context [?a <=? ?b] => destruct (Z.leb_spec a b)
  | |- context [?a <? ?b] => destruct (Z.ltb_spec a b)
  | |- context [?a =? ?b] => destruct (Z.eqb_spec a b)
  end; simpl; try reflexivity; try lia.

Lemma party_mon_base_in_range (slot : Z) :
  0 <= slot <= 5 ->
  party_mon_base slot = Ok (PARTY_MON_1_BASE + slot * PARTY_MON_STRUCT_SIZE).
Proof. intros H. unfold party_mon_base. range_cases. Qed.

Lemma party_mon_base_out_of_range (slot : Z) :
  ~ 0 <= slot <= 5 -> party_mon_base slot = Raise SlotIndexRange.
Proof. intros H. unfold party_mon_base. range_cases. Qed.

Lemma party_mon_base_same_in_both_modules (slot : Z) :
  GscRamFields.party_mon_base slot = party_mon_base slot.
Proof. reflexivity. Qed.

(** C5: [party_mon_base slot] is [PARTY_MON_1_BASE + slot *
    PARTY_MON_STRUCT_SIZE], that is [0xDA2A + slot * 0x30], for every slot
    in [0..5], and raises the slot range error for every other integer;
    this holds for the function of gsc_memory_lib.py and for its copy in
    gsc_ram_fields.py. *)
Theorem party_mon_base_spec (slot : Z) :
  (0 <= slot <= 5 ->
     party_mon_base slot
       = Ok (PARTY_MON_1_BASE + slot * PARTY_MON_STRUCT_SIZE)
     /\ party_mon_base slot = Ok (0xDA2A + slot * 0x30)
     /\ GscRamFields.party_mon_base slot = Ok (0xDA2A + slot * 0x30))
  /\ (~ 0 <= slot <= 5 ->
     party_mon_base slot = Raise SlotIndexRange
     /\ GscRamFields.party_mon_base slot = Raise SlotIndexRange
     /\ is_range_error SlotIndexRange = true).
Proof.
  split; intros H.
  - pose proof (party_mon_base_in_range slot H) as E.
    repeat split; exact E.
  - pose proof (party_mon_base_out_of_range slot H) as E.
    repeat split; exact E.
Qed.

Lemma party_mon_base_spec_witness :
  party_mon_base 3 = Ok (0xDA2A + 3 * 0x30)
  /\ party_mon_base 6 = Raise SlotIndexRange
  /\ party_mon_base (-1) = Raise SlotIndexRange.
Proof.
  split; [| split].
  - apply (proj1 (party_mon_base_spec 3)). lia.
  - apply (proj2 (party_mon_base_spec 6)). lia.
  - apply (proj2 (party_mon_base_spec (-1))). lia.
Defined.

(** C6, as stated, fails at the last slot: [party_mon_base 6] raises. *)
Lemma party_mon_base_stride_fails_at_5 :
  0 <= 5 <= 5 /\ ~ stride_holds_at 5.
Proof.
  split; [lia |].
  intros (hi & lo & Hhi & _). vm_compute in Hhi. discriminate Hhi.
Qed.

(** C6 (amended): for every slot in [0..4],
    [party_mon_base (slot + 1) - party_mon_base slot = 0x30]. *)
Theorem party_mon_base_stride (slot : Z) :
  0 <= slot <= 4 -> stride_holds_at slot.
Proof.
  intros H. unfold stride_holds_at.
  rewrite !party_mon_base_in_range by lia.
  eexists _, _. split; [reflexivity | split; [reflexivity |]].
  unfold PARTY_MON_STRUCT_SIZE. lia.
Qed.

Lemma party_mon_base_stride_witness : stride_holds_at 4.
Proof. apply (party_mon_base_stride 4). lia. Defined.

Lemma bankaddr_bank0 (a : Z) :
  0x0000 <= a <= 0x3FFF ->
  bankaddr_to_file_offset (RomBankAddr.mk 0 a) = Ok a.
Proof. intros H. unfold bankaddr_to_file_offset. simpl. range_cases. Qed.

Lemma bankaddr_banked (b a : Z) :
  1 <= b -> 0x4000 <= a <= 0x7FFF ->
  bankaddr_to_file_offset (RomBankAddr.mk b a)
    = Ok (b * 0x4000 + (a - 0x4000)).
Proof. intros Hb H. unfold bankaddr_to_file_offset. simpl. range_cases. Qed.

Lemma bankaddr_rejected (p : RomBankAddr.t) :
  ~ valid_bankaddr p ->
  exists e, bankaddr_to_file_offset p = Raise e /\ is_range_error e = true.
Proof.
  destruct p as [b a]. unfold valid_bankaddr, bankaddr_to_file_offset. simpl.
  intros H.
  destruct (Z.ltb_spec b 0); [eexists; split; reflexivity |].
  destruct (Z.eqb_spec b 0).
  - destruct (Z.leb_spec 0 a), (Z.leb_spec a 16383); simpl;
      try (eexists; split; reflexivity); exfalso; apply H; lia.
  - destruct (Z.leb_spec 16384 a), (Z.leb_spec a 32767); simpl;
      try (eexists; split; reflexivity); exfalso; apply H; lia.
Qed.

(** C3: [bankaddr_to_file_offset] returns [addr] for bank 0 with [addr] in
    [0x0000..0x3FFF], returns [bank * 0x4000 + (addr - 0x4000)] for a bank
    [>= 1] with [addr] in [0x4000..0x7FFF], and raises a range error in
    every other case: a negative bank, a bank-0 address above [0x3FFF] (or
    negative), an address outside [0x4000..0x7FFF] in a bank [>= 1]. *)
Theorem bankaddr_to_file_offset_spec (b a : Z) :
  (b = 0 -> 0x0000 <= a <= 0x3FFF ->
     bankaddr_to_file_offset (RomBankAddr.mk b a) = Ok a)
  /\ (1 <= b -> 0x4000 <= a <= 0x7FFF ->
     bankaddr_to_file_offset (RomBankAddr.mk b a)
       = Ok (b * 0x4000 + (a - 0x4000)))
  /\ (b < 0 ->
     bankaddr_to_file_offset (RomBankAddr.mk b a) = Raise BankNegative)
  /\ (b = 0 -> ~ 0x0000 <= a <= 0x3FFF ->
     bankaddr_to_file_offset (RomBankAddr.mk b a) = Raise Bank0AddrRange)
  /\ (1 <= b -> ~ 0x4000 <= a <= 0x7FFF ->
     bankaddr_to_file_offset (RomBankAddr.mk b a) = Raise BankedAddrRange)
  /\ (~ valid_bankaddr (RomBankAddr.mk b a) ->
     exists e, bankaddr_to_file_offset (RomBankAddr.mk b a) = Raise e
               /\ is_range_error e = true).
Proof.
  repeat split.
  - intros -> H. apply bankaddr_bank0, H.
  - apply bankaddr_banked.
  - intros H. unfold bankaddr_to_file_offset. simpl. range_cases.
  - intros -> H. unfold bankaddr_to_file_offset. simpl. range_cases.
  - intros Hb H. unfold bankaddr_to_file_offset. simpl. range_cases.
  - apply bankaddr_rejected.
Qed.

Lemma bankaddr_to_file_offset_spec_witness :
  bankaddr_to_file_offset (RomBankAddr.mk 0 0x3FFF) = Ok 0x3FFF
  /\ bankaddr_to_file_offset (RomBankAddr.mk 2 0x4000) = Ok 0x8000
  /\ bankaddr_to_file_offset (RomBankAddr.mk (-1) 0) = Raise BankNegative
  /\ bankaddr_to_file_offset (RomBankAddr.mk 0 0x4000) = Raise Bank0AddrRange
  /\ bankaddr_to_file_offset (RomBankAddr.mk 1 0x3FFF) = Raise BankedAddrRange.
Proof.
  split; [| split; [| split; [| split]]].
  - apply (proj1 (bankaddr_to_file_offset_spec 0 0x3FFF)); [reflexivity | lia].
  - apply (proj1 (proj2 (bankaddr_to_file_offset_spec 2 0x4000))); lia.
  - apply (proj1 (proj2 (proj2 (bankaddr_to_file_offset_spec (-1) 0)))); lia.
  - apply (proj1 (proj2 (proj2 (proj2
      (bankaddr_to_file_offset_spec 0 0x4000))))); [reflexivity | lia].
  - apply (proj1 (proj2 (proj2 (proj2 (proj2
      (bankaddr_to_file_offset_spec 1 0x3FFF)))))); lia.
Defined.

Lemma bankaddr_ok_inv (p : RomBankAddr.t) (off : Z) :
  bankaddr_to_file_offset p = Ok off ->
  (RomBankAddr.bank p = 0 /\ 0 <= RomBankAddr.addr p <= 0x3FFF
   /\ off = RomBankAddr.addr p)
  \/ (1 <= RomBankAddr.bank p /\ 0x4000 <= RomBankAddr.addr p <= 0x7FFF
      /\ off = RomBankAddr.bank p * 0x4000 + (RomBankAddr.addr p - 0x4000)).
Proof.
  destruct p as [b a]. unfold bankaddr_to_file_offset. simpl.
  destruct (Z.ltb_spec b 0); [discriminate |].
  destruct (Z.eqb_spec b 0).
  - destruct (Z.leb_spec 0 a), (Z.leb_spec a 16383); simpl;
      try discriminate. intros [= <-]. left. lia.
  - destruct (Z.leb_spec 16384 a), (Z.leb_spec a 32767); simpl;
      try discriminate. intros [= <-]. right. lia.
Qed.

(** C10: [bankaddr_to_file_offset] is injective on its accepted domain:
    two valid banked addresses with the same file offset are equal, so
    distinct valid addresses never alias one ROM file byte. *)
Theorem bankaddr_to_file_offset_injective (p q : RomBankAddr.t) (off : Z) :
  bankaddr_to_file_offset p = Ok off ->
  bankaddr_to_file_offset q = Ok off ->
  p = q.
Proof.
  intros Hp Hq.
  apply bankaddr_ok_inv in Hp. apply bankaddr_ok_inv in Hq.
  destruct p as [b a], q as [b' a']. simpl in *.
  assert (b = b' /\ a = a') as [-> ->]; [| reflexivity].
  destruct Hp as [(? & ? & ?) | (? & ? & ?)],
           Hq as [(? & ? & ?) | (? & ? & ?)]; lia.
Qed.

Lemma bankaddr_to_file_offset_injective_witness :
  RomBankAddr.mk 2 0x4000 = RomBankAddr.mk 2 0x4000.
Proof.
  apply (bankaddr_to_file_offset_injective _ _ 0x8000); reflexivity.
Defined.

(** ** The BCD decoder *)

Lemma land_0xF_bounds (x : Z) : 0 <= Z.land x 0xF <= 15.
Proof.
  assert (E : Z.land x 0xF = x mod 16).
  { change 0xF with (Z.ones 4). rewrite Z.land_ones by lia. reflexivity. }
  rewrite E. pose proof (Z.mod_pos_bound x 16 eq_refl). lia.
Qed.

Lemma decode_u24_bcd_positional (x0 x1 x2 : Z) :
  _decode_u24_bcd [x0; x1; x2]
  = Z.land (Z.shiftr x0 4) 0xF * 100000 + Z.land x0 0xF * 10000
    + Z.land (Z.shiftr x1 4) 0xF * 1000 + Z.land x1 0xF * 100
    + Z.land (Z.shiftr x2 4) 0xF * 10 + Z.land x2 0xF.
Proof.
  unfold _decode_u24_bcd, bcd_nibbles. cbn [flat_map app fold_left]. lia.
Qed.

(** C7: [_decode_u24_bcd] returns on every three-byte input, whatever its
    nibbles are: the result is the multiply-accumulate [val = val * 10 + d]
    over the six nibbles in the order byte0-high, byte0-low, byte1-high,
    byte1-low, byte2-high, byte2-low, every nibble counted with its literal
    value [0..15]; so it lies between [0] and [1666665]. *)
Theorem decode_u24_bcd_total (x0 x1 x2 : Z) :
  let hi x := Z.land (Z.shiftr x 4) 0xF in
  let lo x := Z.land x 0xF in
  _decode_u24_bcd [x0; x1; x2]
    = fold_left (fun val d => val * 10 + d)
        [hi x0; lo x0; hi x1; lo x1; hi x2; lo x2] 0
  /\ _decode_u24_bcd [x0; x1; x2]
    = hi x0 * 100000 + lo x0 * 10000 + hi x1 * 1000 + lo x1 * 100
      + hi x2 * 10 + lo x2
  /\ 0 <= _decode_u24_bcd [x0; x1; x2] <= 1666665.
Proof.
  intros hi lo. subst hi lo. cbv beta.
  split; [reflexivity | split; [apply decode_u24_bcd_positional |]].
  rewrite decode_u24_bcd_positional.
  pose proof (land_0xF_bounds (Z.shiftr x0 4)).
  pose proof (land_0xF_bounds (Z.shiftr x1 4)).
  pose proof (land_0xF_bounds (Z.shiftr x2 4)).
  pose proof (land_0xF_bounds x0).
  pose proof (land_0xF_bounds x1).
  pose proof (land_0xF_bounds x2).
  lia.
Qed.

(** A nibble above 9 is taken as it is: [0x1A 0x00 0x00] decodes to
    [1 * 100000 + 10 * 10000], and all-ones bytes to [15 * 111111]. *)
Example decode_u24_bcd_non_decimal_nibbles :
  _decode_u24_bcd [0x1A; 0x00; 0x00] = 200000
  /\ _decode_u24_bcd [0xFF; 0xFF; 0xFF] = 1666665.
Proof. split; reflexivity. Qed.

(** ** Typed ROM fields *)

Lemma py_slice_in_bounds {A : Type} (l : list A) (s e : Z) :
  0 <= s <= e -> e <= len l ->
  py_slice l s e = firstn (Z.to_nat (e - s)) (skipn (Z.to_nat s) l).
Proof.
  intros Hs He. unfold py_slice, slice_bound.
  destruct (Z.ltb_spec s 0); [lia |]. destruct (Z.ltb_spec e 0); [lia |].
  rewrite !Z.min_l by lia. reflexivity.
Qed.

Lemma py_slice_length {A : Type} (l : list A) (s e : Z) :
  0 <= s <= e -> e <= len l -> len (py_slice l s e) = e - s.
Proof.
  intros Hs He. rewrite py_slice_in_bounds by assumption.
  unfold len in *. rewrite length_take, length_drop. lia.
Qed.

Lemma py_slice_nth {A : Type} (l : list A) (s e : Z) (i : nat) :
  0 <= s <= e -> e <= len l -> Z.of_nat i < e - s ->
  nth_error (py_slice l s e) i = nth_error l (Z.to_nat s + i).
Proof.
  intros Hs He Hi. rewrite py_slice_in_bounds by assumption.
  rewrite nth_error_firstn.
  destruct (Nat.ltb_spec i (Z.to_nat (e - s))); [| lia].
  apply nth_error_skipn.
Qed.

(** C8: for every ROM buffer and every [RomField] of kind [FILE_RANGE],
    [read_rom_field] returns exactly the slice
    [rom[start_off:end_off_excl]] of the field's range when [file_range]
    is populated, and raises the missing-field error when it is absent.
    For a range inside the buffer the slice has [end_off_excl - start_off]
    bytes and its byte [i] is [rom[start_off + i]]. *)
Theorem read_rom_field_file_range (rom : bytes) (f : RomField.t) :
  RomField.kind f = FILE_RANGE ->
  (forall r, RomField.file_range f = Some r ->
     read_rom_field rom f
       = Ok (py_slice rom (RomRange.start_off r) (RomRange.end_off_excl r))
     /\ (0 <= RomRange.start_off r <= RomRange.end_off_excl r ->
         RomRange.end_off_excl r <= len rom ->
         exists out,
           read_rom_field rom f = Ok out
           /\ len out = RomRange.end_off_excl r - RomRange.start_off r
           /\ forall i : nat,
                Z.of_nat i < RomRange.end_off_excl r - RomRange.start_off r ->
                nth_error out i
                  = nth_error rom (Z.to_nat (RomRange.start_off r) + i)))
  /\ (RomField.file_range f = None ->
      read_rom_field rom f = Raise (MissingFileRange (RomField.key f))).
Proof.
  intros Hk. unfold read_rom_field. rewrite Hk. split.
  - intros r Hr. rewrite Hr. unfold read_rom_range.
    split; [reflexivity |]. intros Hs He. eexists. split; [reflexivity |].
    split; [apply py_slice_length; assumption |].
    intros i Hi. apply py_slice_nth; assumption.
  - intros Hr. rewrite Hr. reflexivity.
Qed.

Lemma read_rom_field_file_range_witness :
  let rom := [10; 11; 12; 13; 14; 15; 16; 17] in
  let r := RomRange.mk 2 5 "three bytes" in
  read_rom_field rom
    (RomField.mk "synthetic.range" FILE_RANGE "" (Some r) None None)
    = Ok [12; 13; 14]
  /\ read_rom_field rom
       (RomField.mk "synthetic.none" FILE_RANGE "" None None None)
     = Raise (MissingFileRange "synthetic.none").
Proof.
  intros rom r. split.
  - apply (proj1 (read_rom_field_file_range rom
      (RomField.mk "synthetic.range" FILE_RANGE "" (Some r) None None)
      eq_refl) r eq_refl).
  - apply (proj2 (read_rom_field_file_range rom
      (RomField.mk "synthetic.none" FILE_RANGE "" None None None)
      eq_refl) eq_refl).
Defined.

(** ** The length contract of [write_field] *)

Lemma write_field_blob {S : Type} (w : WriteFn S) (f : MemField.t)
    (value : pyvalue) (b : bytes) (st : S) :
  blob_encoding (MemField.enc f) ->
  py_bytes value = Ok b ->
  write_field w f value st
    = if len b =? MemField.size f
      then w (MemField.addr f) b st
      else (Raise (LengthMismatch (MemField.key f) (MemField.size f) (len b)),
            st).
Proof.
  intros He Hb. unfold write_field, bindM, lift.
  destruct He as [-> | ->]; rewrite Hb;
    destruct (len b =? MemField.size f); reflexivity.
Qed.

Lemma ram_fields_write_field_same {S : Type} (w : WriteFn S) (f : MemField.t)
    (value : pyvalue) (st : S) :
  GscRamFields.write_field w f value st = write_field w f value st.
Proof. reflexivity. Qed.

(** C1: for a field of encoding [BYTES] or [TEXT_GSC] and a value that is
    the byte sequence [b]: when the length of [b] differs from
    [field.size], [write_field] raises the length-mismatch error and the
    writer is never invoked (the writer's state is returned as it was, and
    a recording writer has recorded nothing); when the length equals
    [field.size], [write_field] is exactly one call of the writer with
    [(field.addr, b)].  Both copies of [write_field] behave so. *)
Theorem write_field_blob_length_contract {S : Type} (w : WriteFn S)
    (f : MemField.t) (value : pyvalue) (b : bytes) (st : S)
    (calls : list (Z * bytes)) :
  blob_encoding (MemField.enc f) ->
  py_bytes value = Ok b ->
  (len b <> MemField.size f ->
     let err := LengthMismatch (MemField.key f) (MemField.size f) (len b) in
     write_field w f value st = (Raise err, st)
     /\ write_field log_writer f value calls = (Raise err, calls)
     /\ GscRamFields.write_field w f value st = (Raise err, st)
     /\ GscRamFields.write_field log_writer f value calls
        = (Raise err, calls))
  /\ (len b = MemField.size f ->
     write_field w f value st = w (MemField.addr f) b st
     /\ write_field log_writer f value calls
        = (Ok tt, calls ++ [(MemField.addr f, b)])
     /\ GscRamFields.write_field w f value st = w (MemField.addr f) b st
     /\ GscRamFields.write_field log_writer f value calls
        = (Ok tt, calls ++ [(MemField.addr f, b)])).
Proof.
  intros He Hb. split; intros Hlen.
  - intros err.
    assert (E : forall (T : Type) (w' : WriteFn T) (s : T),
               write_field w' f value s = (Raise err, s)).
    { intros T w' s. rewrite (write_field_blob w' f value b) by assumption.
      destruct (Z.eqb_spec (len b) (MemField.size f));
        [contradiction | reflexivity]. }
    repeat split;
      [exact (E _ w st) | exact (E _ log_writer calls)
      | exact (E _ w st) | exact (E _ log_writer calls)].
  - assert (E : forall (T : Type) (w' : WriteFn T) (s : T),
               write_field w' f value s = w' (MemField.addr f) b s).
    { intros T w' s. rewrite (write_field_blob w' f value b) by assumption.
      destruct (Z.eqb_spec (len b) (MemField.size f));
        [reflexivity | contradiction]. }
    repeat split;
      [exact (E _ w st) | exact (E _ log_writer calls)
      | exact (E _ w st) | exact (E _ log_writer calls)].
Qed.

Lemma write_field_blob_length_contract_witness :
  let slot := MemField.mk "party[0].moves" 2 4 BYTES "Moves" in
  let three := mkValue (Raise InvalidIntLiteral) (Ok [1; 2; 3]) in
  let four := mkValue (Raise InvalidIntLiteral) (Ok [1; 2; 3; 4]) in
  let mem := [0; 0; 0; 0; 0; 0; 0; 0] in
  write_field FakeMem.write_mem slot three mem
    = (Raise (LengthMismatch "party[0].moves" 4 3), mem)
  /\ write_field FakeMem.write_mem slot four mem
     = (Ok tt, [0; 0; 1; 2; 3; 4; 0; 0]).
Proof.
  intros slot three four mem. split.
  - destruct (write_field_blob_length_contract FakeMem.write_mem slot three
                [1; 2; 3] mem [] (or_introl eq_refl) eq_refl) as [H _].
    apply H. discriminate.
  - destruct (write_field_blob_length_contract FakeMem.write_mem slot four
                [1; 2; 3; 4] mem [] (or_introl eq_refl) eq_refl) as [_ H].
    apply H. reflexivity.
Defined.

(** ** The BCD codec *)

(** Packing two nibbles into a byte and taking them out again. *)
Lemma nibble_land_disjoint (a b : Z) :
  0 <= b < 16 -> Z.land (Z.shiftl a 4) b = 0.
Proof.
  intros Hb. apply Z.bits_inj'. intros n Hn.
  rewrite Z.land_spec, Z.bits_0.
  destruct (Z.lt_ge_cases n 4) as [Hlt | Hge].
  - rewrite Z.shiftl_spec_low by assumption. reflexivity.
  - assert (Z.testbit b n = false) as ->; [| apply andb_false_r].
    apply Z.bits_above_log2; [lia |].
    destruct (Z.eq_dec b 0) as [-> | Hne]; [simpl; lia |].
    assert (Z.log2 b < 4) by (apply Z.log2_lt_pow2; lia). lia.
Qed.

Lemma nibble_pack (a b : Z) :
  0 <= b < 16 -> Z.lor (Z.shiftl a 4) b = a * 16 + b.
Proof.
  intros Hb.
  pose proof (Z.add_lor_land (Z.shiftl a 4) b) as E.
  rewrite nibble_land_disjoint in E by assumption.
  rewrite Z.shiftl_mul_pow2 in E |- * by lia.
  change (2 ^ 4) with 16 in E |- *. lia.
Qed.

Lemma nibble_unpack (a b : Z) :
  0 <= a < 16 -> 0 <= b < 16 ->
  let x := Z.lor (Z.shiftl a 4) b in
  Z.land (Z.shiftr x 4) 0xF = a /\ Z.land x 0xF = b /\ 0 <= x < 256.
Proof.
  intros Ha Hb x. subst x. rewrite nibble_pack by assumption.
  rewrite Z.shiftr_div_pow2 by lia. change (2 ^ 4) with 16.
  assert (E : forall y, Z.land y 0xF = y mod 16).
  { intros y. change 0xF with (Z.ones 4). rewrite Z.land_ones by lia.
    reflexivity. }
  rewrite !E. repeat split; Z.to_euclidean_division_equations; lia.
Qed.

Lemma int_of_digit_char (d : Z) :
  0 <= d <= 9 -> int_of_char (digit_char d) = Ok d.
Proof.
  intros H.
  assert (d = 0 \/ d = 1 \/ d = 2 \/ d = 3 \/ d = 4 \/ d = 5 \/ d = 6
          \/ d = 7 \/ d = 8 \/ d = 9) as Hd by lia.
  repeat (destruct Hd as [-> | Hd]; [reflexivity |]). subst d. reflexivity.
Qed.

Lemma mapM_int_of_digit_chars (ds : list Z) :
  Forall (fun d => 0 <= d <= 9) ds ->
  mapM int_of_char (map digit_char ds) = Ok ds.
Proof.
  induction 1 as [| d ds Hd _ IH]; [reflexivity |].
  cbn [map mapM]. rewrite int_of_digit_char by assumption.
  cbn [bind]. rewrite IH. reflexivity.
Qed.

(** Any fuel that covers the decimal length of [v] gives the same digits. *)
Lemma dec_digits_rev_fuel (f1 : nat) :
  forall (f2 : nat) (v : Z),
    0 <= v -> v < 10 ^ Z.of_nat f1 -> v < 10 ^ Z.of_nat f2 ->
    (0 < f1)%nat -> (0 < f2)%nat ->
    dec_digits_rev f1 v = dec_digits_rev f2 v.
Proof.
  induction f1 as [| f1 IH]; intros f2 v Hv H1 H2 Hf1 Hf2; [lia |].
  destruct f2 as [| f2]; [lia |].
  cbn [dec_digits_rev]. destruct (Z.ltb_spec v 10); [reflexivity |].
  f_equal.
  rewrite Nat2Z.inj_succ, Z.pow_succ_r in H1, H2 by lia.
  assert (1 <= v / 10) by (apply Z.div_le_lower_bound; lia).
  assert (v / 10 < 10 ^ Z.of_nat f1)
    by (apply Z.div_lt_upper_bound; lia).
  assert (v / 10 < 10 ^ Z.of_nat f2)
    by (apply Z.div_lt_upper_bound; lia).
  apply IH; try lia.
  - destruct f1; [cbn in *; lia | lia].
  - destruct f2; [cbn in *; lia | lia].
Qed.

Lemma log2_fuel_enough (v : Z) :
  0 <= v -> v < 10 ^ Z.of_nat (S (Z.to_nat (Z.log2 v))).
Proof.
  intros Hv. rewrite Nat2Z.inj_succ, Z2Nat.id by apply Z.log2_nonneg.
  destruct (Z.eq_dec v 0) as [-> | Hne]; [reflexivity |].
  pose proof (Z.log2_spec v ltac:(lia)) as [_ Hlt].
  assert (2 ^ Z.succ (Z.log2 v) <= 10 ^ Z.succ (Z.log2 v)).
  { apply Z.pow_le_mono_l. lia. }
  lia.
Qed.

Lemma decimal_digit_range (c i : Z) : 0 <= decimal_digit c i <= 9.
Proof.
  unfold decimal_digit. pose proof (Z.mod_pos_bound (c / 10 ^ i) 10 eq_refl).
  lia.
Qed.

Lemma six_digits_range (c : Z) : Forall (fun d => 0 <= d <= 9) (six_digits c).
Proof. repeat constructor; apply decimal_digit_range. Qed.

Ltac digit_goal :=
  unfold decimal_digit;
  change (10 ^ 5) with 100000; change (10 ^ 4) with 10000;
  change (10 ^ 3) with 1000; change (10 ^ 2) with 100;
  change (10 ^ 1) with 10; change (10 ^ 0) with 1;
  Z.to_euclidean_division_equations; lia.

(** [f"{c:06d}"] of a value in [0..999999] is its six decimal digits. *)
Lemma format_06d_six_digits (c : Z) :
  0 <= c <= 999999 -> format_06d c = map digit_char (six_digits c).
Proof.
  intros Hc. unfold format_06d, dec_digits.
  destruct (Z.ltb_spec c 0); [lia |].
  rewrite (dec_digits_rev_fuel _ 6 c);
    [| lia | apply log2_fuel_enough; lia | simpl; lia | lia | lia].
  unfold six_digits. cbn [dec_digits_rev].
  repeat match goal with
  | |- context [?a <? 10] => destruct (Z.ltb_spec a 10)
  end;
  cbn -[digit_char Z.div Z.modulo decimal_digit];
  change "0"%char with (digit_char 0);
  repeat (f_equal; try digit_goal).
Qed.

Lemma pack_digits_in_byte_range (c i j : Z) :
  in_byte_range (pack_nibbles (decimal_digit c i) (decimal_digit c j)) = true.
Proof.
  pose proof (decimal_digit_range c i). pose proof (decimal_digit_range c j).
  destruct (nibble_unpack (decimal_digit c i) (decimal_digit c j))
    as (_ & _ & Hx); [lia | lia |].
  unfold in_byte_range, pack_nibbles.
  destruct (Z.leb_spec 0 (Z.lor (Z.shiftl (decimal_digit c i) 4)
                            (decimal_digit c j))); [| lia].
  destruct (Z.ltb_spec (Z.lor (Z.shiftl (decimal_digit c i) 4)
                          (decimal_digit c j)) 256); [reflexivity | lia].
Qed.

(** The encoder never raises: it returns the packed digits of the clamped
    value. *)
Lemma encode_u24_bcd_packed (v : Z) :
  _encode_u24_bcd v = Ok (packed_bcd (clamp_u24_bcd v)).
Proof.
  unfold _encode_u24_bcd.
  assert (E : (if (if v <? 0 then 0 else v) >? 999999
               then 999999 else if v <? 0 then 0 else v)
              = clamp_u24_bcd v).
  { unfold clamp_u24_bcd. destruct (Z.ltb_spec v 0).
    - simpl. lia.
    - destruct (Z.gtb_spec v 999999); lia. }
  rewrite E.
  assert (Hc : 0 <= clamp_u24_bcd v <= 999999) by (unfold clamp_u24_bcd; lia).
  rewrite (format_06d_six_digits _ Hc).
  rewrite (mapM_int_of_digit_chars _ (six_digits_range _)).
  unfold six_digits, packed_bcd.
  cbn [bind foldM getitem nth_error Nat.add]. unfold bytearray_append.
  fold (pack_nibbles (decimal_digit (clamp_u24_bcd v) 5)
          (decimal_digit (clamp_u24_bcd v) 4)).
  fold (pack_nibbles (decimal_digit (clamp_u24_bcd v) 3)
          (decimal_digit (clamp_u24_bcd v) 2)).
  fold (pack_nibbles (decimal_digit (clamp_u24_bcd v) 1)
          (decimal_digit (clamp_u24_bcd v) 0)).
  rewrite !pack_digits_in_byte_range. reflexivity.
Qed.

Lemma packed_bcd_length (c : Z) : len (packed_bcd c) = 3.
Proof. reflexivity. Qed.

Lemma decode_packed_bcd (c : Z) :
  0 <= c <= 999999 -> _decode_u24_bcd (packed_bcd c) = c.
Proof.
  intros Hc. unfold packed_bcd. rewrite decode_u24_bcd_positional.
  pose proof (decimal_digit_range c 5). pose proof (decimal_digit_range c 4).
  pose proof (decimal_digit_range c 3). pose proof (decimal_digit_range c 2).
  pose proof (decimal_digit_range c 1). pose proof (decimal_digit_range c 0).
  unfold pack_nibbles.
  destruct (nibble_unpack (decimal_digit c 5) (decimal_digit c 4))
    as (-> & -> & _); [lia | lia |].
  destruct (nibble_unpack (decimal_digit c 3) (decimal_digit c 2))
    as (-> & -> & _); [lia | lia |].
  destruct (nibble_unpack (decimal_digit c 1) (decimal_digit c 0))
    as (-> & -> & _); [lia | lia |].
  digit_goal.
Qed.

(** C2: for every integer [v] in [0..999999], the encoder returns three
    bytes and decoding them gives [v] back. *)
Theorem bcd_roundtrip (v : Z) :
  0 <= v <= 999999 ->
  exists b, _encode_u24_bcd v = Ok b /\ _decode_u24_bcd b = v.
Proof.
  intros Hv. exists (packed_bcd (clamp_u24_bcd v)).
  split; [apply encode_u24_bcd_packed |].
  assert (clamp_u24_bcd v = v) as -> by (unfold clamp_u24_bcd; lia).
  apply decode_packed_bcd, Hv.
Qed.

Lemma bcd_roundtrip_witness :
  exists b, _encode_u24_bcd 123456 = Ok b /\ _decode_u24_bcd b = 123456.
Proof. apply (bcd_roundtrip 123456). lia. Defined.

(** C4: [_encode_u24_bcd] never raises and clamps silently: a negative
    input encodes as [0], an input above [999999] as [999999], and the
    result is always the six decimal digits of the clamped value packed
    two per byte, high nibble first, into three bytes. *)
Theorem encode_u24_bcd_clamps (v : Z) :
  (v < 0 -> _encode_u24_bcd v = _encode_u24_bcd 0)
  /\ (v > 999999 -> _encode_u24_bcd v = _encode_u24_bcd 999999)
  /\ (let c := clamp_u24_bcd v in
      0 <= c <= 999999
      /\ _encode_u24_bcd v
         = Ok [Z.lor (Z.shiftl (decimal_digit c 5) 4) (decimal_digit c 4);
               Z.lor (Z.shiftl (decimal_digit c 3) 4) (decimal_digit c 2);
               Z.lor (Z.shiftl (decimal_digit c 1) 4) (decimal_digit c 0)]
      /\ _encode_u24_bcd v
         = Ok [decimal_digit c 5 * 16 + decimal_digit c 4;
               decimal_digit c 3 * 16 + decimal_digit c 2;
               decimal_digit c 1 * 16 + decimal_digit c 0]).
Proof.
  split; [| split; [| split; [| split]]].
  - intros Hv. rewrite !encode_u24_bcd_packed. f_equal. f_equal.
    unfold clamp_u24_bcd. lia.
  - intros Hv. rewrite !encode_u24_bcd_packed. f_equal. f_equal.
    unfold clamp_u24_bcd. lia.
  - unfold clamp_u24_bcd. lia.
  - apply encode_u24_bcd_packed.
  - rewrite encode_u24_bcd_packed. unfold packed_bcd, pack_nibbles.
    pose proof (decimal_digit_range (clamp_u24_bcd v)) as Hd.
    rewrite !nibble_pack by (pose proof (Hd 4); pose proof (Hd 2);
                              pose proof (Hd 0); lia).
    reflexivity.
Qed.

Lemma encode_u24_bcd_clamps_witness :
  _encode_u24_bcd (-7) = _encode_u24_bcd 0
  /\ _encode_u24_bcd 1000000 = _encode_u24_bcd 999999.
Proof.
  split.
  - apply (proj1 (encode_u24_bcd_clamps (-7))). lia.
  - apply (proj1 (proj2 (encode_u24_bcd_clamps 1000000))). lia.
Defined.

(** ** The width invariant of the catalog *)

Lemma masked_in_byte_range (x : Z) : in_byte_range (Z.land x 0xFF) = true.
Proof.
  assert (E : Z.land x 0xFF = x mod 256).
  { change 0xFF with (Z.ones 8). rewrite Z.land_ones by lia. reflexivity. }
  rewrite E. pose proof (Z.mod_pos_bound x 256 eq_refl).
  unfold in_byte_range.
  destruct (Z.leb_spec 0 (x mod 256)); [| lia].
  destruct (Z.ltb_spec (x mod 256) 256); [reflexivity | lia].
Qed.

Lemma bytes_of_masked_ints (xs : list Z) :
  bytes_of_ints (map (fun x => Z.land x 0xFF) xs)
  = Ok (map (fun x => Z.land x 0xFF) xs).
Proof.
  unfold bytes_of_ints.
  assert (forallb in_byte_range (map (fun x => Z.land x 0xFF) xs) = true)
    as -> ; [| reflexivity].
  induction xs as [| x xs IH]; [reflexivity |].
  cbn [map forallb]. rewrite masked_in_byte_range, IH. reflexivity.
Qed.

(** Every integer encoder returns, and returns as many bytes as
    [enc_width] says. *)
Lemma encode_u8_width (n : Z) :
  exists data, bytes_of_ints [Z.land n 0xFF] = Ok data /\ len data = 1.
Proof.
  pose proof (bytes_of_masked_ints [n]) as E. cbn [map] in E. rewrite E.
  eexists. split; reflexivity.
Qed.

Lemma encode_u16_le_width (n : Z) :
  exists data, _encode_u16_le n = Ok data /\ len data = 2.
Proof.
  unfold _encode_u16_le.
  pose proof (bytes_of_masked_ints [n; Z.shiftr n 8]) as E.
  cbn [map] in E. rewrite E. eexists. split; reflexivity.
Qed.

Lemma encode_u16_be_width (n : Z) :
  exists data, _encode_u16_be n = Ok data /\ len data = 2.
Proof.
  unfold _encode_u16_be.
  pose proof (bytes_of_masked_ints [Z.shiftr n 8; n]) as E.
  cbn [map] in E. rewrite E. eexists. split; reflexivity.
Qed.

Lemma encode_u24_le_width (n : Z) :
  exists data, _encode_u24_le n = Ok data /\ len data = 3.
Proof.
  unfold _encode_u24_le.
  pose proof (bytes_of_masked_ints [n; Z.shiftr n 8; Z.shiftr n 16]) as E.
  cbn [map] in E. rewrite E. eexists. split; reflexivity.
Qed.

Lemma encode_u24_bcd_width (n : Z) :
  exists data, _encode_u24_bcd n = Ok data /\ len data = 3.
Proof. rewrite encode_u24_bcd_packed. eexists. split; reflexivity. Qed.

(** A successful [write_field] on a width-consistent field is one call of
    the writer, with exactly [field.size] bytes. *)
Lemma write_field_logged_width (f : MemField.t) (value : pyvalue)
    (calls calls' : list (Z * bytes)) :
  width_consistent f = true ->
  write_field log_writer f value calls = (Ok tt, calls') ->
  exists data,
    calls' = calls ++ [(MemField.addr f, data)]
    /\ len data = MemField.size f.
Proof.
  unfold width_consistent, write_field, bindM, lift, log_writer.
  destruct (MemField.enc f); cbn [enc_width]; intros Hw;
    try apply Z.eqb_eq in Hw.
  - destruct (py_int value) as [n |]; cbn [bind]; [| discriminate].
    destruct (encode_u8_width n) as (data & -> & Hlen).
    intros [= <-]. exists data. split; [reflexivity | lia].
  - destruct (py_int value) as [n |]; cbn [bind]; [| discriminate].
    destruct (encode_u16_le_width n) as (data & -> & Hlen).
    intros [= <-]. exists data. split; [reflexivity | lia].
  - destruct (py_int value) as [n |]; cbn [bind]; [| discriminate].
    destruct (encode_u16_be_width n) as (data & -> & Hlen).
    intros [= <-]. exists data. split; [reflexivity | lia].
  - destruct (py_int value) as [n |]; cbn [bind]; [| discriminate].
    destruct (encode_u24_le_width n) as (data & -> & Hlen).
    intros [= <-]. exists data. split; [reflexivity | lia].
  - destruct (py_int value) as [n |]; cbn [bind]; [| discriminate].
    destruct (encode_u24_bcd_width n) as (data & -> & Hlen).
    intros [= <-]. exists data. split; [reflexivity | lia].
  - destruct (py_bytes value) as [b |]; [| discriminate].
    destruct (Z.eqb_spec (len b) (MemField.size f)); cbn [negb];
      [| discriminate].
    intros [= <-]. exists b. split; [reflexivity | assumption].
  - destruct (py_bytes value) as [b |]; [| discriminate].
    destruct (Z.eqb_spec (len b) (MemField.size f)); cbn [negb];
      [| discriminate].
    intros [= <-]. exists b. split; [reflexivity | assumption].
Qed.

(** Inserting width-consistent fields keeps a catalog width-consistent. *)
Lemma catalog_consistent_empty : catalog_consistent ∅.
Proof. intros k f H. rewrite lookup_empty in H. discriminate. Qed.

Lemma catalog_consistent_insert (cat : gmap string MemField.t) (k : string)
    (f : MemField.t) :
  catalog_consistent cat -> width_consistent f = true ->
  catalog_consistent (<[k := f]> cat).
Proof.
  intros Hcat Hf k' f' H. destruct (decide (k = k')) as [-> | Hne].
  - rewrite lookup_insert_eq in H. congruence.
  - rewrite lookup_insert_ne in H by assumption. eapply Hcat, H.
Qed.

Lemma fold_insert_items_consistent (items : list (string * MemField.t)) :
  Forall (fun kv => width_consistent kv.2 = true) items ->
  forall cat0, catalog_consistent cat0 ->
    catalog_consistent
      (fold_left (fun cat kv => <[kv.1 := kv.2]> cat) items cat0).
Proof.
  induction 1 as [| kv items Hkv _ IH]; intros cat0 H0; [exact H0 |].
  cbn [fold_left]. apply IH, catalog_consistent_insert; assumption.
Qed.

Lemma fold_insert_fields_consistent (fs : list MemField.t) :
  Forall (fun f => width_consistent f = true) fs ->
  forall cat0, catalog_consistent cat0 ->
    catalog_consistent
      (fold_left (fun cat f => <[MemField.key f := f]> cat) fs cat0).
Proof.
  induction 1 as [| f fs Hf _ IH]; intros cat0 H0; [exact H0 |].
  cbn [fold_left]. apply IH, catalog_consistent_insert; assumption.
Qed.

Lemma RAM_FIELDS_CORE_consistent : catalog_consistent RAM_FIELDS_CORE.
Proof.
  apply fold_insert_items_consistent; [| apply catalog_consistent_empty].
  unfold RAM_FIELDS_CORE_items. repeat constructor.
Qed.

Lemma party_fields_for_slot_consistent (slot : Z)
    (items : list (string * MemField.t)) :
  party_fields_for_slot slot = Ok items ->
  Forall (fun kv => width_consistent kv.2 = true) items.
Proof.
  unfold party_fields_for_slot.
  destruct (party_mon_base slot) as [base |]; cbn [bind]; [| discriminate].
  intros [= <-]. repeat constructor.
Qed.

Lemma mapM_Forall2 {A B : Type} (g : A -> result B) (xs : list A) :
  forall ys, mapM g xs = Ok ys -> Forall2 (fun x y => g x = Ok y) xs ys.
Proof.
  induction xs as [| x xs IH]; cbn [mapM]; intros ys H.
  - injection H as <-. constructor.
  - destruct (g x) as [y |] eqn:Hgx; cbn [bind] in H; [| discriminate].
    destruct (mapM g xs) as [ys' |]; cbn [bind] in H; [| discriminate].
    injection H as <-. constructor; [exact Hgx | apply IH; reflexivity].
Qed.

Lemma iter_all_party_fields_consistent (fs : list MemField.t) :
  iter_all_party_fields = Ok fs ->
  Forall (fun f => width_consistent f = true) fs.
Proof.
  unfold iter_all_party_fields.
  destruct (mapM party_fields_for_slot range6) as [slots |] eqn:E;
    cbn [bind]; [| discriminate].
  intros [= <-]. apply mapM_Forall2 in E.
  induction E as [| slot items slots' dicts Hslot _ IH]; [constructor |].
  cbn [map concat]. apply Forall_app. split; [| exact IH].
  apply party_fields_for_slot_consistent in Hslot.
  apply Forall_map. exact Hslot.
Qed.

Lemma build_ram_catalog_consistent (include_party : bool)
    (cat : gmap string MemField.t) :
  build_ram_catalog include_party = Ok cat -> catalog_consistent cat.
Proof.
  unfold build_ram_catalog. destruct include_party.
  - destruct iter_all_party_fields as [fs |] eqn:E; cbn [bind];
      [| discriminate].
    intros [= <-]. apply fold_insert_fields_consistent.
    + apply iter_all_party_fields_consistent, E.
    + apply RAM_FIELDS_CORE_consistent.
  - intros [= <-]. apply RAM_FIELDS_CORE_consistent.
Qed.

(** The catalog is always built: no slot of [range(6)] is rejected. *)
Lemma build_ram_catalog_total (include_party : bool) :
  exists cat, build_ram_catalog include_party = Ok cat.
Proof.
  unfold build_ram_catalog.
  assert (exists fs, iter_all_party_fields = Ok fs) as [fs ->]
    by (vm_compute; eauto).
  destruct include_party; cbn [bind]; eauto.
Qed.

(** C9: for every field of the catalog that [build_ram_catalog] returns
    (the core table, and the six generated party slots when included), the
    declared size is the width of the field's encoding (1 for [U8], 2 for
    [U16_LE] and [U16_BE], 3 for [U24_LE] and [U24_BCD]), and a
    [write_field] that succeeds passes the writer, in one call at
    [field.addr], a byte string of length exactly [field.size]. *)
Theorem catalog_width_invariant (include_party : bool)
    (cat : gmap string MemField.t) (k : string) (f : MemField.t)
    (value : pyvalue) (calls calls' : list (Z * bytes)) :
  build_ram_catalog include_party = Ok cat ->
  cat !! k = Some f ->
  (forall w, enc_width (MemField.enc f) = Some w -> MemField.size f = w)
  /\ (write_field log_writer f value calls = (Ok tt, calls') ->
      exists data,
        calls' = calls ++ [(MemField.addr f, data)]
        /\ len data = MemField.size f).
Proof.
  intros Hcat Hk.
  pose proof (build_ram_catalog_consistent _ _ Hcat k f Hk) as Hw.
  split.
  - intros w He. unfold width_consistent in Hw. rewrite He in Hw.
    apply Z.eqb_eq, Hw.
  - apply write_field_logged_width, Hw.
Qed.

Lemma catalog_width_invariant_witness :
  let money := MemField.mk "money" (fst MONEY) 3 U24_BCD "Money (3-byte BCD)" in
  MemField.size money = 3
  /\ exists data,
       [(MemField.addr money, [0x05; 0x43; 0x21])]
         = [] ++ [(MemField.addr money, data)]
       /\ len data = MemField.size money.
Proof.
  intros money.
  destruct (catalog_width_invariant true
              (match build_ram_catalog true with
               | Ok cat => cat
               | Raise _ => ∅
               end)
              "money" money (VInt 54321) []
              [(MemField.addr money, [0x05; 0x43; 0x21])]) as [Hsize Hwrite].
  - destruct (build_ram_catalog_total true) as [cat ->]. reflexivity.
  - vm_compute. reflexivity.
  - split; [apply Hsize; reflexivity | apply Hwrite; vm_compute; reflexivity].
Defined.

(** * Further properties *)

(** ** The party tables *)

Lemma party_ot_name_addr_in_range (slot : Z) :
  0 <= slot <= 5 ->
  party_ot_name_addr slot = Ok (PARTY_OT_NAMES_START + slot * PARTY_NAME_LEN).
Proof. intros H. unfold party_ot_name_addr. range_cases. Qed.

Lemma party_nickname_addr_in_range (slot : Z) :
  0 <= slot <= 5 ->
  party_nickname_addr slot
    = Ok (PARTY_NICKNAMES_START + slot * PARTY_NAME_LEN).
Proof. intros H. unfold party_nickname_addr. range_cases. Qed.

Lemma party_region_inv (t : party_table) (slot a n : Z) :
  party_region t slot = Ok (a, n) ->
  0 <= slot <= 5
  /\ match t with
     | MonStructs => a = 0xDA2A + slot * 0x30 /\ n = 0x30
     | OtNames => a = 0xDB4A + slot * 11 /\ n = 11
     | Nicknames => a = 0xDB8C + slot * 11 /\ n = 11
     end.
Proof.
  assert (Hr : 0 <= slot <= 5 \/ ~ 0 <= slot <= 5) by lia.
  destruct Hr as [Hr | Hr].
  - destruct t; unfold party_region;
      [ rewrite party_mon_base_in_range by assumption
      | rewrite party_ot_name_addr_in_range by assumption
      | rewrite party_nickname_addr_in_range by assumption ];
      cbn [bind]; intros [= <- <-]; split; try assumption; split; reflexivity.
  - destruct t; unfold party_region, party_ot_name_addr, party_nickname_addr;
      [ rewrite party_mon_base_out_of_range by assumption; discriminate
      | | ];
      destruct (Z.leb_spec 0 slot), (Z.leb_spec slot 5); cbn;
      try discriminate; lia.
Qed.

(** X1: the name-table helpers return [PARTY_OT_NAMES_START + slot * 11]
    and [PARTY_NICKNAMES_START + slot * 11] for a slot in [0..5] and raise
    the slot range error for every other integer. *)
Theorem party_name_addr_spec (slot : Z) :
  (0 <= slot <= 5 ->
     party_ot_name_addr slot = Ok (0xDB4A + slot * 11)
     /\ party_nickname_addr slot = Ok (0xDB8C + slot * 11))
  /\ (~ 0 <= slot <= 5 ->
     party_ot_name_addr slot = Raise SlotIndexRange
     /\ party_nickname_addr slot = Raise SlotIndexRange).
Proof.
  split; intros H.
  - split; [apply party_ot_name_addr_in_range | apply party_nickname_addr_in_range];
      exact H.
  - unfold party_ot_name_addr, party_nickname_addr.
    destruct (Z.leb_spec 0 slot), (Z.leb_spec slot 5); cbn; try lia;
      split; reflexivity.
Qed.

Lemma party_name_addr_spec_witness :
  party_ot_name_addr 5 = Ok (0xDB4A + 5 * 11)
  /\ party_nickname_addr 6 = Raise SlotIndexRange.
Proof.
  split.
  - apply (proj1 (party_name_addr_spec 5)). lia.
  - apply (proj2 (party_name_addr_spec 6)). lia.
Defined.

(** X2: the regions that the slots own in the three party tables (a
    [0x30]-byte struct, an 11-byte OT name, an 11-byte nickname) never
    overlap: two different (table, slot) pairs have disjoint byte ranges,
    and every region lies in [0xDA2A .. 0xDBCE). *)
Theorem party_regions_disjoint (t1 t2 : party_table) (s1 s2 a1 n1 a2 n2 : Z) :
  party_region t1 s1 = Ok (a1, n1) ->
  party_region t2 s2 = Ok (a2, n2) ->
  (t1, s1) <> (t2, s2) ->
  (a1 + n1 <= a2 \/ a2 + n2 <= a1)
  /\ 0xDA2A <= a1 /\ a1 + n1 <= 0xDBCE.
Proof.
  intros H1 H2 Hne.
  apply party_region_inv in H1. apply party_region_inv in H2.
  destruct H1 as [Hs1 H1], H2 as [Hs2 H2].
  assert (t1 = t2 -> s1 <> s2) by (intros -> ->; apply Hne; reflexivity).
  destruct t1, t2; destruct H1 as [-> ->], H2 as [-> ->];
    try (assert (s1 <> s2) by auto); lia.
Qed.

Lemma party_regions_disjoint_witness :
  (0xDA2A + 5 * 0x30 + 0x30 <= 0xDB4A \/ 0xDB4A + 11 <= 0xDA2A + 5 * 0x30)
  /\ 0xDA2A <= 0xDA2A + 5 * 0x30 /\ 0xDA2A + 5 * 0x30 + 0x30 <= 0xDBCE.
Proof.
  apply (party_regions_disjoint MonStructs OtNames 5 0
           (0xDA2A + 5 * 0x30) 0x30 0xDB4A 11);
    [reflexivity | reflexivity | discriminate].
Defined.

(** X3: [party_mon_field_addr] raises the range error for a slot outside
    [0..5] whatever the offset; for a slot in range it adds the offset to
    the slot's base, and for offsets inside the struct
    ([0 <= offset < 0x30]) two calls return the same address only for the
    same slot and the same offset. *)
Theorem party_mon_field_addr_injective :
  (forall s off,
     ~ 0 <= s <= 5 -> party_mon_field_addr s off = Raise SlotIndexRange)
  /\ (forall s1 o1 s2 o2 a,
       0 <= o1 < PARTY_MON_STRUCT_SIZE ->
       0 <= o2 < PARTY_MON_STRUCT_SIZE ->
       party_mon_field_addr s1 o1 = Ok a ->
       party_mon_field_addr s2 o2 = Ok a ->
       s1 = s2 /\ o1 = o2
       /\ a = PARTY_MON_1_BASE + s1 * PARTY_MON_STRUCT_SIZE + o1).
Proof.
  unfold party_mon_field_addr, PARTY_MON_STRUCT_SIZE. split.
  - intros s off Hs. rewrite party_mon_base_out_of_range by assumption.
    reflexivity.
  - intros s1 o1 s2 o2 a Ho1 Ho2 H1 H2.
    assert (R : forall s, 0 <= s <= 5 \/ ~ 0 <= s <= 5) by (intros; lia).
    destruct (R s1) as [R1 | R1];
      [rewrite party_mon_base_in_range in H1 by assumption
      | rewrite party_mon_base_out_of_range in H1 by assumption;
        discriminate].
    destruct (R s2) as [R2 | R2];
      [rewrite party_mon_base_in_range in H2 by assumption
      | rewrite party_mon_base_out_of_range in H2 by assumption;
        discriminate].
    cbn [bind] in H1, H2. injection H1 as <-. injection H2 as H2.
    unfold PARTY_MON_1_BASE, PARTY_MON_STRUCT_SIZE in *. lia.
Qed.

Lemma party_mon_field_addr_injective_witness :
  party_mon_field_addr 6 0x22 = Raise SlotIndexRange
  /\ (2 = 2 /\ 0x22 = 0x22
      /\ 0xDAAC = PARTY_MON_1_BASE + 2 * PARTY_MON_STRUCT_SIZE + 0x22).
Proof.
  split.
  - apply (proj1 party_mon_field_addr_injective). lia.
  - apply (proj2 party_mon_field_addr_injective 2 0x22 2 0x22 0xDAAC);
      [unfold PARTY_MON_STRUCT_SIZE; lia | unfold PARTY_MON_STRUCT_SIZE; lia
      | reflexivity | reflexivity].
Defined.

(** ** The integer codecs *)

Lemma land_shiftl_disjoint (a b k : Z) :
  0 <= k -> 0 <= a < 2 ^ k -> Z.land a (Z.shiftl b k) = 0.
Proof.
  intros Hk Ha. apply Z.bits_inj'. intros n Hn.
  rewrite Z.land_spec, Z.bits_0.
  destruct (Z.lt_ge_cases n k) as [Hlt | Hge].
  - rewrite Z.shiftl_spec_low by assumption. apply andb_false_r.
  - assert (Z.testbit a n = false) as ->; [| reflexivity].
    destruct (Z.eq_dec a 0) as [-> | Hne]; [apply Z.bits_0 |].
    apply Z.bits_above_log2; [lia |].
    assert (Z.log2 a < k) by (apply Z.log2_lt_pow2; lia). lia.
Qed.

Lemma lor_shiftl_add (a b k : Z) :
  0 <= k -> 0 <= a < 2 ^ k -> Z.lor a (Z.shiftl b k) = a + b * 2 ^ k.
Proof.
  intros Hk Ha. pose proof (Z.add_lor_land a (Z.shiftl b k)) as E.
  rewrite land_shiftl_disjoint in E by assumption.
  rewrite Z.shiftl_mul_pow2 in E |- * by assumption. lia.
Qed.

Lemma land_0xFF_mod (x : Z) : Z.land x 0xFF = x mod 256.
Proof.
  change 0xFF with (Z.ones 8). rewrite Z.land_ones by lia. reflexivity.
Qed.

Lemma shiftr_div (x k : Z) : 0 <= k -> Z.shiftr x k = x / 2 ^ k.
Proof. intros Hk. apply Z.shiftr_div_pow2, Hk. Qed.

Lemma mod_256_range (x : Z) : 0 <= x mod 256 < 256.
Proof. apply Z.mod_pos_bound. reflexivity. Qed.

(** The value of two or three bytes, least significant first. *)
Lemma decode_u16_le_value (b0 b1 : Z) :
  0 <= b0 < 256 -> _decode_u16_le [b0; b1] = Ok (b0 + b1 * 256).
Proof.
  intros H0. unfold _decode_u16_le. cbn [getitem nth_error bind].
  rewrite (lor_shiftl_add b0 b1 8) by (simpl; lia). reflexivity.
Qed.

Lemma decode_u16_be_value (b0 b1 : Z) :
  0 <= b1 < 256 -> _decode_u16_be [b0; b1] = Ok (b0 * 256 + b1).
Proof.
  intros H1. unfold _decode_u16_be. cbn [getitem nth_error bind].
  rewrite Z.lor_comm, (lor_shiftl_add b1 b0 8) by (simpl; lia).
  f_equal. change (2 ^ 8) with 256. lia.
Qed.

Lemma decode_u24_le_value (b0 b1 b2 : Z) :
  0 <= b0 < 256 -> 0 <= b1 < 256 ->
  _decode_u24_le [b0; b1; b2] = Ok (b0 + b1 * 256 + b2 * 65536).
Proof.
  intros H0 H1. unfold _decode_u24_le. cbn [getitem nth_error bind].
  rewrite (lor_shiftl_add b0 b1 8) by (simpl; lia).
  rewrite (lor_shiftl_add (b0 + b1 * 2 ^ 8) b2 16) by (simpl; lia).
  reflexivity.
Qed.

Lemma encode_u16_le_bytes (v : Z) :
  _encode_u16_le v = Ok [v mod 256; (v / 256) mod 256].
Proof.
  unfold _encode_u16_le.
  pose proof (bytes_of_masked_ints [v; Z.shiftr v 8]) as E.
  cbn [map] in E. rewrite E, !land_0xFF_mod, shiftr_div by lia. reflexivity.
Qed.

Lemma encode_u16_be_bytes (v : Z) :
  _encode_u16_be v = Ok [(v / 256) mod 256; v mod 256].
Proof.
  unfold _encode_u16_be.
  pose proof (bytes_of_masked_ints [Z.shiftr v 8; v]) as E.
  cbn [map] in E. rewrite E, !land_0xFF_mod, shiftr_div by lia. reflexivity.
Qed.

Lemma encode_u24_le_bytes (v : Z) :
  _encode_u24_le v = Ok [v mod 256; (v / 256) mod 256; (v / 65536) mod 256].
Proof.
  unfold _encode_u24_le.
  pose proof (bytes_of_masked_ints [v; Z.shiftr v 8; Z.shiftr v 16]) as E.
  cbn [map] in E. rewrite E, !land_0xFF_mod, !shiftr_div by lia. reflexivity.
Qed.

(** X4: the fixed-width integer encoders truncate and the decoders invert
    them: for every integer [v], negative or too large included, decoding
    the encoding gives [v mod 2^16] for [U16_LE] and [U16_BE] and
    [v mod 2^24] for [U24_LE]; so a value that fits is read back
    unchanged. *)
Theorem int_codec_decode_encode (v : Z) :
  (exists b, _encode_u16_le v = Ok b /\ _decode_u16_le b = Ok (v mod 2 ^ 16))
  /\ (exists b, _encode_u16_be v = Ok b
                /\ _decode_u16_be b = Ok (v mod 2 ^ 16))
  /\ (exists b, _encode_u24_le v = Ok b
                /\ _decode_u24_le b = Ok (v mod 2 ^ 24))
  /\ (0 <= v < 2 ^ 16 -> v mod 2 ^ 16 = v)
  /\ (0 <= v < 2 ^ 24 -> v mod 2 ^ 24 = v).
Proof.
  pose proof (mod_256_range v). pose proof (mod_256_range (v / 256)).
  pose proof (mod_256_range (v / 65536)).
  change (2 ^ 16) with 65536. change (2 ^ 24) with 16777216.
  split; [| split; [| split; [| split]]].
  - eexists. split; [apply encode_u16_le_bytes |].
    rewrite decode_u16_le_value by assumption. f_equal.
    Z.to_euclidean_division_equations. lia.
  - eexists. split; [apply encode_u16_be_bytes |].
    rewrite decode_u16_be_value by assumption. f_equal.
    Z.to_euclidean_division_equations. lia.
  - eexists. split; [apply encode_u24_le_bytes |].
    rewrite decode_u24_le_value by assumption. f_equal.
    Z.to_euclidean_division_equations. lia.
  - intros Hv. apply Z.mod_small, Hv.
  - intros Hv. apply Z.mod_small, Hv.
Qed.

Lemma int_codec_decode_encode_witness : 1234 mod 2 ^ 16 = 1234.
Proof.
  apply (proj1 (proj2 (proj2 (proj2 (int_codec_decode_encode 1234))))).
  simpl. lia.
Defined.

(** X5: encoding what was decoded gives the bytes back: for bytes in
    [0..255], each integer encoder applied to the decoded value of a two-
    or three-byte string returns that string. *)
Theorem int_codec_encode_decode (b0 b1 b2 : Z) :
  0 <= b0 < 256 -> 0 <= b1 < 256 -> 0 <= b2 < 256 ->
  (let? v := _decode_u16_le [b0; b1] in _encode_u16_le v) = Ok [b0; b1]
  /\ (let? v := _decode_u16_be [b0; b1] in _encode_u16_be v) = Ok [b0; b1]
  /\ (let? v := _decode_u24_le [b0; b1; b2] in _encode_u24_le v)
     = Ok [b0; b1; b2].
Proof.
  intros H0 H1 H2.
  rewrite decode_u16_le_value, decode_u16_be_value, decode_u24_le_value
    by assumption.
  cbn [bind].
  rewrite encode_u16_le_bytes, encode_u16_be_bytes, encode_u24_le_bytes.
  repeat split; repeat f_equal; Z.to_euclidean_division_equations; lia.
Qed.

Lemma int_codec_encode_decode_witness :
  (let? v := _decode_u16_le [0x34; 0x12] in _encode_u16_le v)
    = Ok [0x34; 0x12]
  /\ (let? v := _decode_u16_be [0x34; 0x12] in _encode_u16_be v)
     = Ok [0x34; 0x12]
  /\ (let? v := _decode_u24_le [0x34; 0x12; 0xFF] in _encode_u24_le v)
     = Ok [0x34; 0x12; 0xFF].
Proof. apply (int_codec_encode_decode 0x34 0x12 0xFF); lia. Defined.

Lemma bcd_byte_nibbles (x : Z) :
  bcd_byte x ->
  Z.land (Z.shiftr x 4) 0xF = x / 16 /\ Z.land x 0xF = x mod 16
  /\ 0 <= x / 16 <= 9 /\ 0 <= x mod 16 <= 9.
Proof.
  intros (Hx & Hh & Hl).
  assert (E : forall y, Z.land y 0xF = y mod 16).
  { intros y. change 0xF with (Z.ones 4). rewrite Z.land_ones by lia.
    reflexivity. }
  rewrite !E, shiftr_div by lia. change (2 ^ 4) with 16.
  repeat split; Z.to_euclidean_division_equations; lia.
Qed.

(** X6: on well-formed BCD the encoder inverts the decoder: for three bytes
    whose nibbles are all decimal digits, encoding the decoded value gives
    the same three bytes. *)
Theorem bcd_encode_decode (x0 x1 x2 : Z) :
  bcd_byte x0 -> bcd_byte x1 -> bcd_byte x2 ->
  _encode_u24_bcd (_decode_u24_bcd [x0; x1; x2]) = Ok [x0; x1; x2].
Proof.
  intros B0 B1 B2. rewrite decode_u24_bcd_positional.
  destruct (bcd_byte_nibbles x0 B0) as (-> & -> & ? & ?).
  destruct (bcd_byte_nibbles x1 B1) as (-> & -> & ? & ?).
  destruct (bcd_byte_nibbles x2 B2) as (-> & -> & ? & ?).
  set (c := x0 / 16 * 100000 + x0 mod 16 * 10000 + x1 / 16 * 1000
            + x1 mod 16 * 100 + x2 / 16 * 10 + x2 mod 16).
  assert (Hc : 0 <= c <= 999999) by (subst c; lia).
  rewrite encode_u24_bcd_packed.
  assert (clamp_u24_bcd c = c) as -> by (unfold clamp_u24_bcd; lia).
  unfold packed_bcd, pack_nibbles.
  pose proof (decimal_digit_range c) as Hd.
  rewrite !nibble_pack
    by (pose proof (Hd 4); pose proof (Hd 2); pose proof (Hd 0); lia).
  assert (decimal_digit c 5 = x0 / 16) as -> by (subst c; digit_goal).
  assert (decimal_digit c 4 = x0 mod 16) as -> by (subst c; digit_goal).
  assert (decimal_digit c 3 = x1 / 16) as -> by (subst c; digit_goal).
  assert (decimal_digit c 2 = x1 mod 16) as -> by (subst c; digit_goal).
  assert (decimal_digit c 1 = x2 / 16) as -> by (subst c; digit_goal).
  assert (decimal_digit c 0 = x2 mod 16) as -> by (subst c; digit_goal).
  repeat f_equal; Z.to_euclidean_division_equations; lia.
Qed.

Lemma bcd_encode_decode_witness :
  _encode_u24_bcd (_decode_u24_bcd [0x12; 0x34; 0x56])
  = Ok [0x12; 0x34; 0x56].
Proof.
  apply (bcd_encode_decode 0x12 0x34 0x56);
    unfold bcd_byte; repeat split; try lia; vm_compute; discriminate.
Defined.

(** Bytes with a nibble above 9 do not round-trip: [0x0A 0x00 0x00] is
    read as [100000] and written back as [0x10 0x00 0x00]. *)
Example bcd_non_decimal_nibble_not_preserved :
  _encode_u24_bcd (_decode_u24_bcd [0x0A; 0x00; 0x00]) = Ok [0x10; 0x00; 0x00].
Proof. reflexivity. Qed.

(** ** Reading and writing fields *)

(** X7: [read_field] does not check the length of what the reader
    returns.  A reader exception is passed on; a read too short for an
    integer encoding surfaces as the [IndexError] of the byte indexing; the
    BCD decoder accepts any length and never raises; [BYTES] and
    [TEXT_GSC] return the raw bytes whatever their length, so the size
    contract of [write_field] has no counterpart on the read side. *)
Theorem read_field_unchecked_length {S : Type} (read_mem : ReadFn S)
    (f : MemField.t) (st st' : S) :
  (forall e,
     read_mem (MemField.addr f) (MemField.size f) st = (Raise e, st') ->
     read_field read_mem f st = (Raise e, st'))
  /\ (forall raw,
     read_mem (MemField.addr f) (MemField.size f) st = (Ok raw, st') ->
     match MemField.enc f with
     | U8 => raw = [] -> read_field read_mem f st = (Raise IndexError, st')
     | U16_LE | U16_BE =>
         (length raw < 2)%nat ->
         read_field read_mem f st = (Raise IndexError, st')
     | U24_LE =>
         (length raw < 3)%nat ->
         read_field read_mem f st = (Raise IndexError, st')
     | U24_BCD =>
         read_field read_mem f st = (Ok (DInt (_decode_u24_bcd raw)), st')
     | BYTES | TEXT_GSC =>
         read_field read_mem f st = (Ok (DBytes raw), st')
     end).
Proof.
  unfold read_field, bindM, lift. split.
  - intros e ->. reflexivity.
  - intros raw ->. destruct (MemField.enc f); try reflexivity.
    + intros ->. reflexivity.
    + intros Hlen. destruct raw as [| b0 [| b1 raw]]; cbn in Hlen |- *;
        try reflexivity; lia.
    + intros Hlen. destruct raw as [| b0 [| b1 raw]]; cbn in Hlen |- *;
        try reflexivity; lia.
    + intros Hlen. destruct raw as [| b0 [| b1 [| b2 raw]]];
        cbn in Hlen |- *; try reflexivity; lia.
Qed.

Lemma read_field_unchecked_length_witness :
  read_field FakeMem.read_mem (MemField.mk "edge" 7 2 U16_BE "") [0; 0; 0; 0; 0; 0; 0; 9]
    = (Raise IndexError, [0; 0; 0; 0; 0; 0; 0; 9])
  /\ read_field FakeMem.read_mem (MemField.mk "edge" 7 3 U24_BCD "")
       [0; 0; 0; 0; 0; 0; 0; 0x12]
     = (Ok (DInt 12), [0; 0; 0; 0; 0; 0; 0; 0x12]).
Proof.
  split.
  - apply (proj2 (read_field_unchecked_length FakeMem.read_mem
             (MemField.mk "edge" 7 2 U16_BE "")
             [0; 0; 0; 0; 0; 0; 0; 9] [0; 0; 0; 0; 0; 0; 0; 9]) [9]);
      [reflexivity | simpl; lia].
  - apply (proj2 (read_field_unchecked_length FakeMem.read_mem
             (MemField.mk "edge" 7 3 U24_BCD "")
             [0; 0; 0; 0; 0; 0; 0; 0x12] [0; 0; 0; 0; 0; 0; 0; 0x12]) [0x12]).
    reflexivity.
Defined.

(** *** The splice of [FakeMem.write_mem] *)

Lemma py_slice_assign_in_bounds {A : Type} (mem data : list A) (a : Z) :
  0 <= a -> a + len data <= len mem ->
  py_slice_assign mem a (a + len data) data
  = firstn (Z.to_nat a) mem ++ data
    ++ skipn (Z.to_nat a + length data) mem.
Proof.
  intros Ha Hb. unfold py_slice_assign, slice_bound, len in *.
  destruct (Z.ltb_spec a 0); [lia |].
  destruct (Z.ltb_spec (a + Z.of_nat (length data)) 0); [lia |].
  rewrite !Z.min_l, Z.max_r by lia.
  repeat f_equal. lia.
Qed.

Lemma py_slice_assign_length {A : Type} (mem data : list A) (a : Z) :
  0 <= a -> a + len data <= len mem ->
  len (py_slice_assign mem a (a + len data) data) = len mem.
Proof.
  intros Ha Hb. rewrite py_slice_assign_in_bounds by assumption.
  unfold len in *. rewrite !length_app, length_take, length_drop. lia.
Qed.

Lemma py_slice_assign_nth_inside {A : Type} (mem data : list A) (a : Z)
    (i : nat) :
  0 <= a -> a + len data <= len mem ->
  (i < length data)%nat ->
  nth_error (py_slice_assign mem a (a + len data) data) (Z.to_nat a + i)
  = nth_error data i.
Proof.
  intros Ha Hb Hi. rewrite py_slice_assign_in_bounds by assumption.
  unfold len in *.
  rewrite nth_error_app2 by (rewrite length_take; lia).
  rewrite length_take, Nat.min_l by lia.
  replace (Z.to_nat a + i - Z.to_nat a)%nat with i by lia.
  apply nth_error_app1, Hi.
Qed.

Lemma py_slice_assign_nth_outside {A : Type} (mem data : list A) (a : Z)
    (i : nat) :
  0 <= a -> a + len data <= len mem ->
  (Z.of_nat i < a \/ a + len data <= Z.of_nat i) ->
  nth_error (py_slice_assign mem a (a + len data) data) i = nth_error mem i.
Proof.
  intros Ha Hb Hi. rewrite py_slice_assign_in_bounds by assumption.
  unfold len in *. destruct Hi as [Hi | Hi].
  - rewrite nth_error_app1 by (rewrite length_take; lia).
    rewrite nth_error_firstn.
    destruct (Nat.ltb_spec i (Z.to_nat a)); [reflexivity | lia].
  - rewrite nth_error_app2 by (rewrite length_take; lia).
    rewrite length_take, Nat.min_l by lia.
    rewrite nth_error_app2 by lia.
    rewrite nth_error_skipn. f_equal. lia.
Qed.

(** Two lists of the same length with the same elements are equal. *)
Lemma nth_error_ext_eq {A : Type} (l1 l2 : list A) :
  (forall i, nth_error l1 i = nth_error l2 i) -> l1 = l2.
Proof.
  revert l2. induction l1 as [| x l1 IH]; intros [| y l2] H.
  - reflexivity.
  - specialize (H 0%nat). discriminate.
  - specialize (H 0%nat). discriminate.
  - f_equal.
    + specialize (H 0%nat). cbn in H. congruence.
    + apply IH. intros i. apply (H (S i)).
Qed.

Lemma py_slice_nth_beyond {A : Type} (l : list A) (s e : Z) (i : nat) :
  0 <= s <= e -> e <= len l -> e - s <= Z.of_nat i ->
  nth_error (py_slice l s e) i = None.
Proof.
  intros Hs He Hi. apply nth_error_None.
  pose proof (py_slice_length l s e Hs He) as Hlen. unfold len in Hlen. lia.
Qed.

(** Reading back the region just written gives the written bytes. *)
Lemma read_back_written {A : Type} (mem data : list A) (a : Z) :
  0 <= a -> a + len data <= len mem ->
  py_slice (py_slice_assign mem a (a + len data) data) a (a + len data)
  = data.
Proof.
  intros Ha Hb.
  pose proof (py_slice_assign_length mem data a Ha Hb) as Hlen.
  assert (Hd : 0 <= len data) by (unfold len; lia).
  apply nth_error_ext_eq. intros i.
  destruct (Nat.lt_ge_cases i (length data)) as [Hi | Hi].
  - rewrite py_slice_nth by (unfold len in *; lia).
    apply py_slice_assign_nth_inside; assumption.
  - rewrite py_slice_nth_beyond by (unfold len in *; lia).
    symmetry. apply nth_error_None. exact Hi.
Qed.

(** Reading a region disjoint from the one written gives what was there. *)
Lemma read_other_region {A : Type} (mem data : list A) (a a2 n2 : Z) :
  0 <= a -> a + len data <= len mem ->
  0 <= a2 -> 0 <= n2 -> a2 + n2 <= len mem ->
  (a2 + n2 <= a \/ a + len data <= a2) ->
  py_slice (py_slice_assign mem a (a + len data) data) a2 (a2 + n2)
  = py_slice mem a2 (a2 + n2).
Proof.
  intros Ha Hb Ha2 Hn2 Hb2 Hdisj.
  pose proof (py_slice_assign_length mem data a Ha Hb) as Hlen.
  apply nth_error_ext_eq. intros i.
  destruct (Z.lt_ge_cases (Z.of_nat i) n2) as [Hi | Hi].
  - rewrite !py_slice_nth by lia.
    apply py_slice_assign_nth_outside; try assumption. lia.
  - rewrite !py_slice_nth_beyond by lia. reflexivity.
Qed.

(** [write_field] converts first and calls the writer once, last. *)
Lemma write_field_factors {S : Type} (w : WriteFn S) (f : MemField.t)
    (value : pyvalue) (st : S) :
  write_field w f value st
  = match encoded_bytes f value with
    | Ok data => w (MemField.addr f) data st
    | Raise e => (Raise e, st)
    end.
Proof.
  unfold write_field, encoded_bytes, bindM, lift.
  destruct (MemField.enc f);
    try (destruct (py_int value) as [n |]; cbn [bind]; reflexivity);
    destruct (py_bytes value) as [b |]; cbn [bind]; try reflexivity;
    destruct (len b =? MemField.size f); reflexivity.
Qed.

Lemma encoded_bytes_length (f : MemField.t) (value : pyvalue) (data : bytes) :
  width_consistent f = true ->
  encoded_bytes f value = Ok data -> len data = MemField.size f.
Proof.
  unfold width_consistent, encoded_bytes.
  destruct (MemField.enc f); cbn [enc_width]; intros Hw;
    try apply Z.eqb_eq in Hw.
  - destruct (py_int value) as [n |]; cbn [bind]; [| discriminate].
    destruct (encode_u8_width n) as (d & -> & Hlen). intros [= <-]. lia.
  - destruct (py_int value) as [n |]; cbn [bind]; [| discriminate].
    destruct (encode_u16_le_width n) as (d & -> & Hlen). intros [= <-]. lia.
  - destruct (py_int value) as [n |]; cbn [bind]; [| discriminate].
    destruct (encode_u16_be_width n) as (d & -> & Hlen). intros [= <-]. lia.
  - destruct (py_int value) as [n |]; cbn [bind]; [| discriminate].
    destruct (encode_u24_le_width n) as (d & -> & Hlen). intros [= <-]. lia.
  - destruct (py_int value) as [n |]; cbn [bind]; [| discriminate].
    destruct (encode_u24_bcd_width n) as (d & -> & Hlen). intros [= <-]. lia.
  - destruct (py_bytes value) as [b |]; cbn [bind]; [| discriminate].
    destruct (Z.eqb_spec (len b) (MemField.size f)); [| discriminate].
    intros [= <-]. assumption.
  - destruct (py_bytes value) as [b |]; cbn [bind]; [| discriminate].
    destruct (Z.eqb_spec (len b) (MemField.size f)); [| discriminate].
    intros [= <-]. assumption.
Qed.

(** Writing through [FakeMem] and reading the same field back. *)
Lemma fakemem_write_read_raw (f : MemField.t) (value : pyvalue)
    (data mem : bytes) :
  encoded_bytes f value = Ok data ->
  len data = MemField.size f ->
  in_memory f (len mem) ->
  exists mem',
    write_field FakeMem.write_mem f value mem = (Ok tt, mem')
    /\ len mem' = len mem
    /\ FakeMem.read_mem (MemField.addr f) (MemField.size f) mem'
       = (Ok data, mem').
Proof.
  intros He Hlen (Ha & Hs & Hb).
  rewrite write_field_factors, He. unfold FakeMem.write_mem, FakeMem.read_mem.
  eexists. split; [reflexivity |]. rewrite <- Hlen in *.
  split; [apply py_slice_assign_length; assumption |].
  rewrite read_back_written by assumption. reflexivity.
Qed.

(** X8: a value that fits the field's integer encoding is read back
    unchanged: for a width-consistent field lying inside the memory,
    [write_field] through [FakeMem] succeeds, keeps the memory length, and
    a following [read_field] returns the integer written. *)
Theorem fakemem_int_round_trip (f : MemField.t) (v : Z) (mem : bytes) :
  width_consistent f = true ->
  in_memory f (len mem) ->
  fits (MemField.enc f) v ->
  exists mem',
    write_field FakeMem.write_mem f (VInt v) mem = (Ok tt, mem')
    /\ len mem' = len mem
    /\ read_field FakeMem.read_mem f mem' = (Ok (DInt v), mem').
Proof.
  intros Hw Hin Hfit.
  assert (Hdata : exists data,
             encoded_bytes f (VInt v) = Ok data
             /\ match MemField.enc f with
                | U8 => getitem data 0 = Ok v
                | U16_LE => _decode_u16_le data = Ok v
                | U16_BE => _decode_u16_be data = Ok v
                | U24_LE => _decode_u24_le data = Ok v
                | U24_BCD => _decode_u24_bcd data = v
                | BYTES | TEXT_GSC => False
                end).
  { unfold encoded_bytes. destruct (MemField.enc f); cbn [fits] in Hfit;
      cbn [VInt py_int bind]; try contradiction.
    - pose proof (bytes_of_masked_ints [v]) as E. cbn [map] in E.
      rewrite E, land_0xFF_mod, Z.mod_small by lia.
      eexists. split; reflexivity.
    - rewrite encode_u16_le_bytes. eexists. split; [reflexivity |].
      rewrite decode_u16_le_value by apply mod_256_range.
      f_equal. Z.to_euclidean_division_equations. lia.
    - rewrite encode_u16_be_bytes. eexists. split; [reflexivity |].
      rewrite decode_u16_be_value by apply mod_256_range.
      f_equal. Z.to_euclidean_division_equations. lia.
    - rewrite encode_u24_le_bytes. eexists. split; [reflexivity |].
      rewrite decode_u24_le_value by apply mod_256_range.
      f_equal. Z.to_euclidean_division_equations. lia.
    - rewrite encode_u24_bcd_packed.
      assert (clamp_u24_bcd v = v) as -> by (unfold clamp_u24_bcd; lia).
      eexists. split; [reflexivity |]. apply decode_packed_bcd. lia. }
  destruct Hdata as (data & He & Hdec).
  pose proof (encoded_bytes_length f (VInt v) data Hw He) as Hlen.
  destruct (fakemem_write_read_raw f (VInt v) data mem He Hlen Hin)
    as (mem' & Hwrite & Hlen' & Hread).
  exists mem'. split; [exact Hwrite | split; [exact Hlen' |]].
  unfold read_field, bindM. rewrite Hread. unfold lift.
  destruct (MemField.enc f); try contradiction; rewrite ?Hdec; reflexivity.
Qed.

Lemma fakemem_int_round_trip_witness :
  exists mem',
    write_field FakeMem.write_mem (MemField.mk "your_hp_battle" 4 2 U16_BE "")
      (VInt 1234) [0; 0; 0; 0; 0; 0; 0; 0] = (Ok tt, mem')
    /\ len mem' = len [0; 0; 0; 0; 0; 0; 0; 0]
    /\ read_field FakeMem.read_mem (MemField.mk "your_hp_battle" 4 2 U16_BE "")
         mem' = (Ok (DInt 1234), mem').
Proof.
  apply (fakemem_int_round_trip (MemField.mk "your_hp_battle" 4 2 U16_BE "")
           1234 [0; 0; 0; 0; 0; 0; 0; 0]).
  - reflexivity.
  - unfold in_memory, len. simpl. lia.
  - simpl. lia.
Defined.

(** X9: a byte string of the declared size is read back unchanged from a
    [BYTES] or [TEXT_GSC] field lying inside the memory. *)
Theorem fakemem_blob_round_trip (f : MemField.t) (value : pyvalue)
    (b mem : bytes) :
  blob_encoding (MemField.enc f) ->
  py_bytes value = Ok b ->
  len b = MemField.size f ->
  in_memory f (len mem) ->
  exists mem',
    write_field FakeMem.write_mem f value mem = (Ok tt, mem')
    /\ len mem' = len mem
    /\ read_field FakeMem.read_mem f mem' = (Ok (DBytes b), mem').
Proof.
  intros Hblob Hb Hlen Hin.
  assert (He : encoded_bytes f value = Ok b).
  { unfold encoded_bytes. destruct Hblob as [-> | ->]; rewrite Hb;
      cbn [bind]; rewrite (proj2 (Z.eqb_eq _ _) Hlen); reflexivity. }
  destruct (fakemem_write_read_raw f value b mem He Hlen Hin)
    as (mem' & Hwrite & Hlen' & Hread).
  exists mem'. split; [exact Hwrite | split; [exact Hlen' |]].
  unfold read_field, bindM. rewrite Hread. unfold lift.
  destruct Hblob as [-> | ->]; reflexivity.
Qed.

Lemma fakemem_blob_round_trip_witness :
  exists mem',
    write_field FakeMem.write_mem (MemField.mk "party[0].moves" 2 4 BYTES "")
      (mkValue (Raise InvalidIntLiteral) (Ok [1; 2; 3; 4]))
      [0; 0; 0; 0; 0; 0; 0; 0] = (Ok tt, mem')
    /\ len mem' = len [0; 0; 0; 0; 0; 0; 0; 0]
    /\ read_field FakeMem.read_mem (MemField.mk "party[0].moves" 2 4 BYTES "")
         mem' = (Ok (DBytes [1; 2; 3; 4]), mem').
Proof.
  apply (fakemem_blob_round_trip (MemField.mk "party[0].moves" 2 4 BYTES "")
           (mkValue (Raise InvalidIntLiteral) (Ok [1; 2; 3; 4]))
           [1; 2; 3; 4] [0; 0; 0; 0; 0; 0; 0; 0]).
  - left. reflexivity.
  - reflexivity.
  - reflexivity.
  - unfold in_memory, len. simpl. lia.
Defined.



(** ** The catalog as a whole *)

Lemma fold_insert_lookup_notin (items : list (string * MemField.t)) :
  forall (cat : gmap string MemField.t) (k : string),
    k ∉ items.*1 ->
    fold_left insert_item items cat !! k = cat !! k.
Proof.
  induction items as [| kv items IH]; intros cat k Hk; [reflexivity |].
  cbn [fold_left]. rewrite fmap_cons in Hk.
  apply not_elem_of_cons in Hk as [Hne Hk].
  rewrite IH by assumption. unfold insert_item.
  apply lookup_insert_ne. congruence.
Qed.

Lemma fold_insert_lookup_elem (items : list (string * MemField.t)) :
  forall (cat : gmap string MemField.t) (k : string) (f : MemField.t),
    NoDup items.*1 -> (k, f) ∈ items ->
    fold_left insert_item items cat !! k = Some f.
Proof.
  induction items as [| kv items IH]; intros cat k f Hnd Hin.
  - apply elem_of_nil in Hin. contradiction.
  - cbn [fold_left]. rewrite fmap_cons in Hnd.
    apply NoDup_cons in Hnd as [Hfresh Hnd].
    apply elem_of_cons in Hin as [<- | Hin].
    + rewrite fold_insert_lookup_notin by exact Hfresh.
      unfold insert_item. apply lookup_insert_eq.
    + apply IH; assumption.
Qed.

Lemma fold_insert_lookup_inv (items : list (string * MemField.t)) :
  forall (cat : gmap string MemField.t) (k : string) (f : MemField.t),
    fold_left insert_item items cat !! k = Some f ->
    (k, f) ∈ items \/ cat !! k = Some f.
Proof.
  induction items as [| kv items IH]; intros cat k f H; [right; exact H |].
  cbn [fold_left] in H. apply IH in H as [H | H].
  - left. apply elem_of_cons. right. exact H.
  - unfold insert_item in H. destruct (decide (kv.1 = k)) as [<- | Hne].
    + rewrite lookup_insert_eq in H. injection H as <-.
      left. apply elem_of_cons. left. destruct kv; reflexivity.
    + rewrite lookup_insert_ne in H by assumption. right. exact H.
Qed.

Lemma fold_insert_fields_as_items (fs : list MemField.t) :
  forall cat : gmap string MemField.t,
    fold_left (fun cat f => <[MemField.key f := f]> cat) fs cat
    = fold_left insert_item (map (fun f => (MemField.key f, f)) fs) cat.
Proof.
  induction fs as [| f fs IH]; intros cat; [reflexivity |].
  cbn [map fold_left]. apply IH.
Qed.

Lemma RAM_FIELDS_CORE_as_fold :
  RAM_FIELDS_CORE = fold_left insert_item RAM_FIELDS_CORE_items ∅.
Proof. unfold RAM_FIELDS_CORE, dict_of_items. reflexivity. Qed.

(** The catalog is the dictionary of [catalog_items]. *)
Lemma build_ram_catalog_items (include_party : bool)
    (cat : gmap string MemField.t) :
  build_ram_catalog include_party = Ok cat ->
  cat = fold_left insert_item (catalog_items include_party) ∅.
Proof.
  intros H. unfold build_ram_catalog in H. unfold catalog_items, party_items.
  destruct include_party.
  - destruct iter_all_party_fields as [fs |]; [| discriminate H].
    cbn [bind] in H. injection H as <-.
    rewrite (fold_left_app insert_item RAM_FIELDS_CORE_items _ ∅).
    rewrite fold_insert_fields_as_items.
    rewrite <- RAM_FIELDS_CORE_as_fold. reflexivity.
  - injection H as <-. rewrite app_nil_r. apply RAM_FIELDS_CORE_as_fold.
Qed.

Lemma catalog_items_NoDup (include_party : bool) :
  NoDup (catalog_items include_party).*1.
Proof.
  destruct include_party; apply (bool_decide_unpack _); vm_compute; exact I.
Qed.

Lemma catalog_lookup_iff (include_party : bool)
    (cat : gmap string MemField.t) (k : string) (f : MemField.t) :
  build_ram_catalog include_party = Ok cat ->
  cat !! k = Some f <-> (k, f) ∈ catalog_items include_party.
Proof.
  intros Hcat. rewrite (build_ram_catalog_items _ _ Hcat). split.
  - intros H. apply fold_insert_lookup_inv in H as [H | H]; [exact H |].
    rewrite lookup_empty in H. discriminate.
  - apply fold_insert_lookup_elem, catalog_items_NoDup.
Qed.

Lemma party_fields_for_slot_keys (slot : Z)
    (items : list (string * MemField.t)) :
  party_fields_for_slot slot = Ok items ->
  Forall (fun kv => MemField.key kv.2 = kv.1) items.
Proof.
  unfold party_fields_for_slot.
  destruct (party_mon_base slot) as [base |]; cbn [bind]; [| discriminate].
  intros [= <-]. repeat constructor.
Qed.

Lemma party_fields_for_slot_range (slot : Z)
    (items : list (string * MemField.t)) :
  party_fields_for_slot slot = Ok items -> slot ∈ range6.
Proof.
  unfold party_fields_for_slot. intros H.
  assert (Hr : 0 <= slot <= 5 \/ ~ 0 <= slot <= 5) by lia.
  destruct Hr as [Hr | Hr].
  - assert (slot = 0 \/ slot = 1 \/ slot = 2 \/ slot = 3 \/ slot = 4
            \/ slot = 5) as Hs by lia.
    unfold range6.
    repeat (destruct Hs as [-> | Hs];
            [repeat first [apply list_elem_of_here
                          | apply list_elem_of_further] |]).
    subst slot.
    repeat first [apply list_elem_of_here | apply list_elem_of_further].
  - rewrite party_mon_base_out_of_range in H by assumption. discriminate.
Qed.

Lemma Forall2_elem_l {A B : Type} (R : A -> B -> Prop) (xs : list A)
    (ys : list B) (x : A) :
  Forall2 R xs ys -> x ∈ xs -> exists y, y ∈ ys /\ R x y.
Proof.
  induction 1 as [| x' y' xs ys Hxy _ IH]; intros Hin.
  - apply elem_of_nil in Hin. contradiction.
  - apply elem_of_cons in Hin as [-> | Hin].
    + exists y'. split; [apply elem_of_cons; left; reflexivity | exact Hxy].
    + destruct (IH Hin) as (y & Hy & HR).
      exists y. split; [apply elem_of_cons; right; exact Hy | exact HR].
Qed.

Lemma party_items_elem (slot : Z) (items : list (string * MemField.t))
    (k : string) (f : MemField.t) :
  party_fields_for_slot slot = Ok items ->
  (k, f) ∈ items -> (k, f) ∈ party_items.
Proof.
  intros Hslot Hin. unfold party_items, iter_all_party_fields.
  assert (exists slots, mapM party_fields_for_slot range6 = Ok slots)
    as [slots E] by (vm_compute; eauto).
  rewrite E. cbn [bind].
  apply mapM_Forall2 in E.
  destruct (Forall2_elem_l _ _ _ slot E
              (party_fields_for_slot_range _ _ Hslot)) as (items' & Hi & Hs).
  assert (items' = items) as -> by congruence.
  pose proof (party_fields_for_slot_keys _ _ Hslot) as Hkeys.
  rewrite Forall_forall in Hkeys. specialize (Hkeys (k, f) Hin).
  cbn in Hkeys. subst k.
  apply list_elem_of_In. apply list_elem_of_In in Hin, Hi.
  apply (in_map (fun f => (MemField.key f, f))).
  apply in_concat. exists (map snd items). split.
  - apply (in_map (map snd)), Hi.
  - apply (in_map snd) in Hin. exact Hin.
Qed.

Lemma catalog_items_incl (include_party : bool) (kv : string * MemField.t) :
  kv ∈ catalog_items include_party -> kv ∈ catalog_items true.
Proof.
  unfold catalog_items. destruct include_party; [auto |].
  rewrite app_nil_r. intros H. apply elem_of_app. left. exact H.
Qed.

Lemma catalog_items_well_placed (include_party : bool)
    (kv : string * MemField.t) :
  kv ∈ catalog_items include_party ->
  MemField.key kv.2 = kv.1
  /\ 0 < MemField.size kv.2
  /\ 0xCB1C <= MemField.addr kv.2
  /\ MemField.addr kv.2 + MemField.size kv.2 <= 0xDB4A.
Proof.
  intros H. apply catalog_items_incl in H.
  assert (Hall : forallb well_placedb (catalog_items true) = true)
    by (vm_compute; reflexivity).
  rewrite forallb_forall in Hall.
  specialize (Hall kv (proj1 (list_elem_of_In _ _) H)).
  unfold well_placedb in Hall.
  repeat (apply andb_prop in Hall as [Hall ?]).
  apply String.eqb_eq in Hall. repeat split; [exact Hall |..]; lia.
Qed.

Lemma catalog_items_pairwise_disjoint (include_party : bool)
    (x y : string * MemField.t) :
  x ∈ catalog_items include_party -> y ∈ catalog_items include_party ->
  x.1 <> y.1 -> regions_disjoint x.2 y.2.
Proof.
  intros Hx Hy Hne. apply catalog_items_incl in Hx, Hy.
  assert (Hall : pairwise_disjointb (catalog_items true) = true)
    by (vm_compute; reflexivity).
  unfold pairwise_disjointb in Hall. rewrite forallb_forall in Hall.
  specialize (Hall x (proj1 (list_elem_of_In _ _) Hx)).
  rewrite forallb_forall in Hall.
  specialize (Hall y (proj1 (list_elem_of_In _ _) Hy)).
  apply orb_prop in Hall as [Heq | Hd].
  - apply String.eqb_eq in Heq. contradiction.
  - unfold regions_disjointb in Hd. unfold regions_disjoint.
    apply orb_prop in Hd as [Hd | Hd]; apply Z.leb_le in Hd; lia.
Qed.

Lemma fold_insert_size (items : list (string * MemField.t)) :
  forall cat : gmap string MemField.t,
    NoDup items.*1 ->
    (forall k, k ∈ items.*1 -> cat !! k = None) ->
    size (fold_left insert_item items cat) = (length items + size cat)%nat.
Proof.
  induction items as [| kv items IH]; intros cat Hnd Hfresh; [reflexivity |].
  cbn [fold_left length]. rewrite fmap_cons in Hnd, Hfresh.
  apply NoDup_cons in Hnd as [Hkv Hnd].
  rewrite IH.
  - unfold insert_item. rewrite map_size_insert_None; [lia |].
    apply Hfresh, list_elem_of_here.
  - exact Hnd.
  - intros k Hk. unfold insert_item. rewrite lookup_insert_ne.
    + apply Hfresh, list_elem_of_further, Hk.
    + intros Heq. apply Hkv. rewrite Heq. exact Hk.
Qed.

(** X11: the catalog has no key collision.  Every entry is stored under
    its field's own key; every entry of the core table is in the catalog
    unchanged; with the party included, every field generated for a slot
    is in the catalog under its generated key; and the catalog has
    29 entries without the party and 29 + 6 * 17 = 131 with it. *)
Theorem catalog_keys_consistent (include_party : bool)
    (cat : gmap string MemField.t) :
  build_ram_catalog include_party = Ok cat ->
  (forall k f, cat !! k = Some f -> MemField.key f = k)
  /\ (forall k f, RAM_FIELDS_CORE !! k = Some f -> cat !! k = Some f)
  /\ (include_party = true ->
      forall slot items k f,
        party_fields_for_slot slot = Ok items ->
        (k, f) ∈ items -> cat !! k = Some f)
  /\ size cat = (if include_party then 131 else 29)%nat.
Proof.
  intros Hcat. split; [| split; [| split]].
  - intros k f H. apply (catalog_lookup_iff _ _ _ _ Hcat) in H.
    apply (catalog_items_well_placed _ (k, f)) in H. apply H.
  - intros k f H.
    apply (catalog_lookup_iff false RAM_FIELDS_CORE k f eq_refl) in H.
    apply (catalog_lookup_iff _ _ _ _ Hcat).
    unfold catalog_items in *. rewrite app_nil_r in H.
    apply elem_of_app. left. exact H.
  - intros -> slot items k f Hslot Hin.
    apply (catalog_lookup_iff _ _ _ _ Hcat).
    unfold catalog_items. apply elem_of_app. right.
    eapply party_items_elem; eassumption.
  - rewrite (build_ram_catalog_items _ _ Hcat).
    rewrite fold_insert_size;
      [| apply catalog_items_NoDup | intros; apply lookup_empty].
    rewrite map_size_empty, Nat.add_0_r.
    destruct include_party; vm_compute; reflexivity.
Qed.

Lemma catalog_keys_consistent_witness :
  let cat :=
    match build_ram_catalog true with Ok cat => cat | Raise _ => ∅ end in
  cat !! "party[3].hp"
  = Some (MemField.mk "party[3].hp" (0xDA2A + 3 * 0x30 + 0x22) 2 U16_BE "HP")
  /\ size cat = 131%nat.
Proof.
  intros cat.
  assert (Hcat : build_ram_catalog true = Ok cat).
  { subst cat. destruct (build_ram_catalog_total true) as [c ->].
    reflexivity. }
  destruct (catalog_keys_consistent true cat Hcat) as (_ & _ & Hparty & Hsize).
  split; [| exact Hsize].
  apply (Hparty eq_refl 3
           (match party_fields_for_slot 3 with
            | Ok items => items
            | Raise _ => []
            end)).
  - reflexivity.
  - vm_compute. repeat first [apply list_elem_of_here
                             | apply list_elem_of_further].
Defined.

(** X12: every field generated for a party slot lies inside that slot's
    [0x30]-byte struct, and a slot has 17 fields. *)
Theorem party_fields_inside_struct (slot : Z)
    (items : list (string * MemField.t)) :
  party_fields_for_slot slot = Ok items ->
  exists base,
    party_mon_base slot = Ok base
    /\ length items = 17%nat
    /\ Forall (fun kv =>
                 base <= MemField.addr kv.2
                 /\ 0 < MemField.size kv.2
                 /\ MemField.addr kv.2 + MemField.size kv.2
                    <= base + PARTY_MON_STRUCT_SIZE) items.
Proof.
  unfold party_fields_for_slot.
  destruct (party_mon_base slot) as [base |]; cbn [bind]; [| discriminate].
  intros [= <-]. exists base. split; [reflexivity | split; [reflexivity |]].
  cbv delta [PARTY_MON_STRUCT_SIZE PARTY_MON_SPECIES_OFF
             PARTY_MON_HELD_ITEM_OFF PARTY_MON_MOVES_OFF PARTY_MON_ID_OFF
             PARTY_MON_EXP_OFF PARTY_MON_PP_OFF PARTY_MON_HAPPINESS_OFF
             PARTY_MON_POKERUS_OFF PARTY_MON_LEVEL_OFF PARTY_MON_STATUS_OFF
             PARTY_MON_HP_OFF PARTY_MON_MAX_HP_OFF PARTY_MON_ATK_OFF
             PARTY_MON_DEF_OFF PARTY_MON_SPD_OFF PARTY_MON_SPDEF_OFF
             PARTY_MON_SPATK_OFF].
  repeat (apply Forall_cons_2;
          [cbn [fst snd MemField.addr MemField.size]; lia |]).
  apply Forall_nil_2.
Qed.

Lemma party_fields_inside_struct_witness :
  exists base,
    party_mon_base 5 = Ok base
    /\ length (match party_fields_for_slot 5 with
               | Ok items => items
               | Raise _ => []
               end) = 17%nat
    /\ Forall (fun kv =>
                 base <= MemField.addr kv.2
                 /\ 0 < MemField.size kv.2
                 /\ MemField.addr kv.2 + MemField.size kv.2
                    <= base + PARTY_MON_STRUCT_SIZE)
         (match party_fields_for_slot 5 with
          | Ok items => items
          | Raise _ => []
          end).
Proof. apply (party_fields_inside_struct 5). reflexivity. Defined.

(** X13: the fields of the catalog occupy pairwise disjoint memory: two
    entries under different keys never share a byte, and every entry is
    non-empty and lies in [0xCB1C .. 0xDB4A). *)
Theorem catalog_regions_disjoint (include_party : bool)
    (cat : gmap string MemField.t) (k1 k2 : string) (f1 f2 : MemField.t) :
  build_ram_catalog include_party = Ok cat ->
  cat !! k1 = Some f1 ->
  cat !! k2 = Some f2 ->
  k1 <> k2 ->
  regions_disjoint f1 f2
  /\ 0 < MemField.size f1
  /\ 0xCB1C <= MemField.addr f1
  /\ MemField.addr f1 + MemField.size f1 <= 0xDB4A.
Proof.
  intros Hcat H1 H2 Hne.
  apply (catalog_lookup_iff _ _ _ _ Hcat) in H1, H2.
  split.
  - apply (catalog_items_pairwise_disjoint include_party (k1, f1) (k2, f2));
      assumption.
  - apply (catalog_items_well_placed _ (k1, f1)) in H1. apply H1.
Qed.

Lemma catalog_regions_disjoint_witness :
  regions_disjoint
    (MemField.mk "money" (fst MONEY) 3 U24_BCD "Money (3-byte BCD)")
    (MemField.mk "mom_money" (fst MOM_MONEY) 3 U24_BCD "Money held by Mom")
  /\ 0 < 3 /\ 0xCB1C <= fst MONEY /\ fst MONEY + 3 <= 0xDB4A.
Proof.
  apply (catalog_regions_disjoint true
           (match build_ram_catalog true with Ok cat => cat | Raise _ => ∅ end)
           "money" "mom_money").
  - destruct (build_ram_catalog_total true) as [c ->]. reflexivity.
  - vm_compute. reflexivity.
  - vm_compute. reflexivity.
  - discriminate.
Defined.

Lemma read_field_fakemem_same_bytes (f : MemField.t) (m1 m2 : bytes) :
  py_slice m1 (MemField.addr f) (MemField.addr f + MemField.size f)
  = py_slice m2 (MemField.addr f) (MemField.addr f + MemField.size f) ->
  fst (read_field FakeMem.read_mem f m1)
  = fst (read_field FakeMem.read_mem f m2).
Proof.
  intros H. unfold read_field, bindM, FakeMem.read_mem, lift. rewrite H.
  destruct (MemField.enc f); reflexivity.
Qed.

(** X14: writing one catalog field never disturbs another: in a memory
    that covers the catalog's address range, whatever value is written to
    the field of one key (and whether or not the write succeeds), reading
    the field of any other key afterwards gives what it gave before. *)
Theorem catalog_write_does_not_disturb (include_party : bool)
    (cat : gmap string MemField.t) (k1 k2 : string) (f1 f2 : MemField.t)
    (value : pyvalue) (mem : bytes) :
  build_ram_catalog include_party = Ok cat ->
  cat !! k1 = Some f1 ->
  cat !! k2 = Some f2 ->
  k1 <> k2 ->
  0xDB4A <= len mem ->
  fst (read_field FakeMem.read_mem f2
         (snd (write_field FakeMem.write_mem f1 value mem)))
  = fst (read_field FakeMem.read_mem f2 mem).
Proof.
  intros Hcat H1 H2 Hne Hmem.
  pose proof (build_ram_catalog_consistent _ _ Hcat k1 f1 H1) as Hw.
  apply (catalog_lookup_iff _ _ _ _ Hcat) in H1, H2.
  pose proof (catalog_items_pairwise_disjoint _ (k1, f1) (k2, f2) H1 H2 Hne)
    as Hd.
  apply (catalog_items_well_placed _ (k1, f1)) in H1.
  apply (catalog_items_well_placed _ (k2, f2)) in H2.
  cbn [fst snd] in *. unfold regions_disjoint in Hd.
  rewrite write_field_factors.
  destruct (encoded_bytes f1 value) as [data |] eqn:He; [| reflexivity].
  pose proof (encoded_bytes_length f1 value data Hw He) as Hlen.
  unfold FakeMem.write_mem. cbn [snd].
  apply read_field_fakemem_same_bytes.
  apply read_other_region; lia.
Qed.

Lemma catalog_write_does_not_disturb_witness :
  let mem := repeat 0 (Z.to_nat 0xDB4A) in
  fst (read_field FakeMem.read_mem
         (MemField.mk "casino_coins" (fst CASINO_COINS) 2 U16_LE "Casino coins")
         (snd (write_field FakeMem.write_mem
                 (MemField.mk "mom_money" (fst MOM_MONEY) 3 U24_BCD
                    "Money held by Mom")
                 (VInt 999999) mem)))
  = fst (read_field FakeMem.read_mem
           (MemField.mk "casino_coins" (fst CASINO_COINS) 2 U16_LE
              "Casino coins") mem).
Proof.
  intros mem.
  apply (catalog_write_does_not_disturb true
           (match build_ram_catalog true with Ok cat => cat | Raise _ => ∅ end)
           "mom_money" "casino_coins").
  - destruct (build_ram_catalog_total true) as [c ->]. reflexivity.
  - vm_compute. reflexivity.
  - vm_compute. reflexivity.
  - discriminate.
  - vm_compute. discriminate.
Defined.

(** ** Reading the ROM *)

Lemma py_slice_length_nonneg {A : Type} (l : list A) (s e : Z) :
  0 <= s -> 0 <= e ->
  len (py_slice l s e) = Z.max 0 (Z.min e (len l) - Z.min s (len l)).
Proof.
  intros Hs He. unfold py_slice, slice_bound, len.
  destruct (Z.ltb_spec s 0); [lia |]. destruct (Z.ltb_spec e 0); [lia |].
  rewrite length_take, length_drop. lia.
Qed.

(** X15: for a [RomField] of kind [BANK_ADDR], [read_rom_field] raises the
    missing-field error when [bank_addr] or [size] is absent, passes on the
    range error of an invalid banked address, and otherwise returns the
    slice of [size] bytes at the translated file offset; when that slice
    lies inside the ROM it has exactly [size] bytes and its byte [i] is
    [rom[offset + i]]. *)
Theorem read_rom_field_bank_addr (rom : bytes) (f : RomField.t) :
  RomField.kind f = BANK_ADDR ->
  (RomField.bank_addr f = None \/ RomField.size f = None ->
     read_rom_field rom f = Raise (MissingBankAddrSize (RomField.key f)))
  /\ (forall p n,
        RomField.bank_addr f = Some p -> RomField.size f = Some n ->
        (forall e, bankaddr_to_file_offset p = Raise e ->
                   read_rom_field rom f = Raise e)
        /\ (forall off, bankaddr_to_file_offset p = Ok off ->
              read_rom_field rom f = Ok (py_slice rom off (off + n))
              /\ (0 <= n -> off + n <= len rom ->
                  len (py_slice rom off (off + n)) = n
                  /\ forall i : nat,
                       Z.of_nat i < n ->
                       nth_error (py_slice rom off (off + n)) i
                       = nth_error rom (Z.to_nat off + i)))).
Proof.
  intros Hk. unfold read_rom_field. rewrite Hk. split.
  - intros [-> | ->]; [reflexivity |].
    destruct (RomField.bank_addr f); reflexivity.
  - intros p n -> ->. unfold read_rom_bankaddr. split.
    + intros e ->. reflexivity.
    + intros off Hoff. rewrite Hoff. cbn [bind]. split; [reflexivity |].
      intros Hn Hend.
      assert (0 <= off).
      { apply bankaddr_ok_inv in Hoff. lia. }
      split.
      * rewrite py_slice_length by lia. lia.
      * intros i Hi. apply py_slice_nth; lia.
Qed.

Lemma read_rom_field_bank_addr_witness :
  read_rom_field [10; 11; 12; 13; 14; 15]
    (RomField.mk "ptr.synthetic" BANK_ADDR "" None
       (Some (RomBankAddr.mk 0 2)) (Some 2))
  = Ok [12; 13]
  /\ read_rom_field [10; 11; 12; 13; 14; 15]
       (RomField.mk "ptr.synthetic" BANK_ADDR "" None
          (Some (RomBankAddr.mk 0 0x4000)) (Some 2))
     = Raise Bank0AddrRange
  /\ read_rom_field [10; 11; 12; 13; 14; 15]
       (RomField.mk "ptr.synthetic" BANK_ADDR "" None
          (Some (RomBankAddr.mk 0 2)) None)
     = Raise (MissingBankAddrSize "ptr.synthetic").
Proof.
  split; [| split].
  - destruct (read_rom_field_bank_addr [10; 11; 12; 13; 14; 15]
                (RomField.mk "ptr.synthetic" BANK_ADDR "" None
                   (Some (RomBankAddr.mk 0 2)) (Some 2)) eq_refl)
      as [_ H].
    destruct (H (RomBankAddr.mk 0 2) 2 eq_refl eq_refl) as [_ Hok].
    apply (Hok 2). reflexivity.
  - destruct (read_rom_field_bank_addr [10; 11; 12; 13; 14; 15]
                (RomField.mk "ptr.synthetic" BANK_ADDR "" None
                   (Some (RomBankAddr.mk 0 0x4000)) (Some 2)) eq_refl)
      as [_ H].
    destruct (H (RomBankAddr.mk 0 0x4000) 2 eq_refl eq_refl) as [Herr _].
    apply Herr. reflexivity.
  - destruct (read_rom_field_bank_addr [10; 11; 12; 13; 14; 15]
                (RomField.mk "ptr.synthetic" BANK_ADDR "" None
                   (Some (RomBankAddr.mk 0 2)) None) eq_refl)
      as [H _].
    apply H. right. reflexivity.
Defined.

(** X16: ROM reads never fail on a ROM that is too short, they truncate:
    for a range with non-negative bounds [read_rom_range] returns
    [max 0 (min end (len rom) - min start (len rom))] bytes, so a range that
    starts at or after the end of the ROM reads as the empty string. *)
Theorem read_rom_range_truncates (rom : bytes) (r : RomRange.t) :
  0 <= RomRange.start_off r -> 0 <= RomRange.end_off_excl r ->
  len (read_rom_range rom r)
  = Z.max 0 (Z.min (RomRange.end_off_excl r) (len rom)
             - Z.min (RomRange.start_off r) (len rom))
  /\ (len rom <= RomRange.start_off r -> read_rom_range rom r = []).
Proof.
  intros Hs He. unfold read_rom_range.
  pose proof (py_slice_length_nonneg rom _ _ Hs He) as Hlen.
  split; [exact Hlen |].
  intros Hshort.
  destruct (py_slice rom (RomRange.start_off r) (RomRange.end_off_excl r))
    as [| x l]; [reflexivity |].
  unfold len in *. cbn [length] in Hlen. lia.
Qed.

Lemma read_rom_range_truncates_witness :
  len (read_rom_range [1; 2; 3; 4] (RomRange.mk 4 9 ""))
  = Z.max 0 (Z.min 9 (len [1; 2; 3; 4]) - Z.min 4 (len [1; 2; 3; 4]))
  /\ (len [1; 2; 3; 4] <= 4 ->
      read_rom_range [1; 2; 3; 4] (RomRange.mk 4 9 "") = []).
Proof.
  apply (read_rom_range_truncates [1; 2; 3; 4] (RomRange.mk 4 9 ""));
    simpl; lia.
Defined.

(** ** The GSC text codec *)

Lemma encode_gsc_char_cases (ch : Z) :
  in_byte_range (encode_gsc_char ch) = true
  /\ encode_gsc_char ch <> 0x50
  /\ decode_gsc_char (encode_gsc_char ch) = gsc_sanitize ch.
Proof.
  unfold encode_gsc_char, decode_gsc_char, gsc_sanitize, gsc_alnum,
    in_byte_range.
  destruct (Z.eqb_spec ch 32) as [-> | Hsp]; [repeat split; discriminate |].
  destruct (Z.leb_spec 65 ch), (Z.leb_spec ch 90), (Z.leb_spec 97 ch),
    (Z.leb_spec ch 122), (Z.leb_spec 48 ch), (Z.leb_spec ch 57);
    cbn [andb orb]; try lia;
    (split; [| split; [lia |]]);
    repeat match goal with
    | |- context [?a <=? ?b] => destruct (Z.leb_spec a b); try lia
    | |- context [?a <? ?b] => destruct (Z.ltb_spec a b); try lia
    | |- context [?a =? ?b] => destruct (Z.eqb_spec a b); try lia
    end; cbn [andb orb]; try reflexivity; try lia; f_equal; lia.
Qed.

Lemma encode_gsc_loop_closed (text : pystr) (size : Z) :
  forall out : bytes,
    encode_gsc_loop text size out
    = Ok (out ++ map encode_gsc_char
                   (firstn (Z.to_nat (size - len out)) text)).
Proof.
  induction text as [| ch rest IH]; intros out.
  - cbn [encode_gsc_loop]. rewrite firstn_nil, app_nil_r. reflexivity.
  - cbn [encode_gsc_loop]. destruct (Z.geb_spec (len out) size) as [Hge | Hlt].
    + replace (Z.to_nat (size - len out)) with 0%nat by lia.
      cbn [firstn map]. rewrite app_nil_r. reflexivity.
    + unfold bytearray_append.
      rewrite (proj1 (encode_gsc_char_cases ch)). cbn [bind]. rewrite IH.
      assert (Hlen : len (out ++ [encode_gsc_char ch]) = len out + 1).
      { unfold len. rewrite length_app. cbn [length]. lia. }
      rewrite Hlen.
      replace (Z.to_nat (size - len out))
        with (S (Z.to_nat (size - (len out + 1)))) by lia.
      cbn [firstn map]. rewrite <- app_assoc. reflexivity.
Qed.

Lemma append_terminators_closed (n : nat) :
  forall out : bytes, append_terminators n out = Ok (out ++ repeat 0x50 n).
Proof.
  induction n as [| n IH]; intros out; cbn [append_terminators repeat].
  - rewrite app_nil_r. reflexivity.
  - unfold bytearray_append. cbn [in_byte_range bind]. 
    change (in_byte_range 80) with true. cbn iota. cbn [bind].
    rewrite IH, <- app_assoc. reflexivity.
Qed.

Lemma py_slice_from_zero {A : Type} (l : list A) (n : Z) :
  0 <= n -> py_slice l 0 n = firstn (Z.to_nat n) l.
Proof.
  intros Hn. unfold py_slice, slice_bound.
  destruct (Z.ltb_spec n 0); [lia |].
  change (0 <? 0) with false. cbn iota.
  rewrite (Z.min_l 0) by (unfold len; lia).
  change (Z.to_nat 0) with 0%nat. change (skipn 0 l) with l.
  rewrite Z.sub_0_r.
  destruct (Z.le_gt_cases n (len l)) as [Hle | Hgt].
  - rewrite Z.min_l by assumption. reflexivity.
  - rewrite Z.min_r by lia. unfold len in *. rewrite Nat2Z.id.
    rewrite firstn_all. symmetry. apply firstn_all2. lia.
Qed.

(** The encoder in closed form: the encoded prefix of the text, then
    terminators up to [size]. *)
Lemma encode_gsc_text_closed (text : pystr) (size : Z) :
  encode_gsc_text text size
  = Ok (map encode_gsc_char (firstn (Z.to_nat size) text)
        ++ repeat 0x50
             (Z.to_nat size - length (firstn (Z.to_nat size) text))).
Proof.
  unfold encode_gsc_text. rewrite encode_gsc_loop_closed. cbn [bind app].
  change (len []) with 0. rewrite Z.sub_0_r.
  set (m := map encode_gsc_char (firstn (Z.to_nat size) text)).
  assert (Hm : length m = length (firstn (Z.to_nat size) text))
    by (subst m; apply length_map).
  assert (Hle : (length m <= Z.to_nat size)%nat).
  { rewrite Hm, length_take. lia. }
  rewrite <- Hm.
  unfold bytearray_append. change (in_byte_range 80) with true. cbn iota.
  cbn [bind]. rewrite append_terminators_closed. cbn [bind]. f_equal.
  assert (Hlen1 : len (m ++ [80]) = len m + 1).
  { unfold len. rewrite length_app. cbn [length]. lia. }
  rewrite Hlen1. unfold len.
  destruct (Z.ltb_spec size 0) as [Hneg | Hpos].
  - replace (Z.to_nat size) with 0%nat in * by lia.
    assert (m = []) as -> by (destruct m; [reflexivity | cbn in Hle; lia]).
    cbn [length Nat.sub repeat app].
    replace (Z.to_nat (size - (Z.of_nat 0 + 1))) with 0%nat by lia.
    cbn [repeat app]. unfold py_slice, slice_bound, len. cbn [length].
    destruct (Z.ltb_spec size 0); [| lia].
    change (0 <? 0) with false. cbn iota.
    replace (Z.to_nat (Z.max 0 (size + Z.of_nat 1) - Z.min 0 (Z.of_nat 1)))
      with 0%nat by lia.
    reflexivity.
  - rewrite py_slice_from_zero by assumption.
    rewrite <- app_assoc. rewrite firstn_app.
    rewrite firstn_all2 by lia. f_equal.
    destruct (Z.to_nat size - length m)%nat as [| k] eqn:Hk.
    + reflexivity.
    + cbn [app firstn repeat]. f_equal.
      replace (Z.to_nat (size - (Z.of_nat (length m) + 1))) with k by lia.
      apply firstn_all2. rewrite repeat_length. lia.
Qed.

Lemma gsc_alnum_range (c : Z) : gsc_alnum c = true -> 48 <= c <= 122.
Proof.
  unfold gsc_alnum.
  destruct (Z.leb_spec 65 c), (Z.leb_spec c 90), (Z.leb_spec 97 c),
    (Z.leb_spec c 122), (Z.leb_spec 48 c), (Z.leb_spec c 57);
    cbn [andb orb]; intros Hb; try discriminate Hb; lia.
Qed.

Lemma gsc_alnum_not_space (c : Z) : gsc_alnum c = true -> py_isspace c = false.
Proof.
  intros H. apply gsc_alnum_range in H. unfold py_isspace.
  repeat match goal with
  | |- context [?a <=? ?b] => destruct (Z.leb_spec a b); try lia
  | |- context [?a =? ?b] => destruct (Z.eqb_spec a b); try lia
  end; try reflexivity.
Qed.

Lemma py_lstrip_no_space (s : pystr) :
  Forall (fun c => py_isspace c = false) s -> py_lstrip s = s.
Proof.
  destruct 1 as [| c s Hc _]; [reflexivity |].
  cbn [py_lstrip]. rewrite Hc. reflexivity.
Qed.

Lemma py_strip_no_space (s : pystr) :
  Forall (fun c => py_isspace c = false) s -> py_strip s = s.
Proof.
  intros H. unfold py_strip. rewrite (py_lstrip_no_space s H).
  rewrite py_lstrip_no_space; [apply rev_involutive |].
  apply Forall_rev, H.
Qed.

Lemma decode_gsc_loop_encoded (chars : pystr) (k : nat) :
  decode_gsc_loop (map encode_gsc_char chars ++ repeat 0x50 k)
  = map gsc_sanitize chars.
Proof.
  induction chars as [| ch chars IH].
  - cbn [map app]. destruct k; reflexivity.
  - cbn [map app decode_gsc_loop].
    destruct (encode_gsc_char_cases ch) as (_ & Hne & Hdec).
    destruct (Z.eqb_spec (encode_gsc_char ch) 0x50); [contradiction |].
    rewrite Hdec, IH. reflexivity.
Qed.

(** X17: [encode_gsc_text] never raises and always returns exactly
    [max 0 size] bytes, whatever the text: the encoded first [size]
    characters followed by [0x50] terminators; a text of [size] or more
    characters is cut and gets no terminator. *)
Theorem encode_gsc_text_length (text : pystr) (size : Z) :
  exists b,
    encode_gsc_text text size = Ok b
    /\ len b = Z.max 0 size
    /\ b = map encode_gsc_char (firstn (Z.to_nat size) text)
           ++ repeat 0x50 (Z.to_nat size - length text)
    /\ (size <= len text -> Forall (fun x => x <> 0x50) b).
Proof.
  eexists. split; [apply encode_gsc_text_closed |].
  assert (Hlen : length (firstn (Z.to_nat size) text)
                 = Nat.min (Z.to_nat size) (length text))
    by apply length_take.
  assert (Hpad : (Z.to_nat size - length (firstn (Z.to_nat size) text)
                  = Z.to_nat size - length text)%nat) by lia.
  rewrite Hpad. split; [| split; [reflexivity |]].
  - unfold len. rewrite length_app, length_map, repeat_length. lia.
  - intros Hcut. unfold len in Hcut.
    replace (Z.to_nat size - length text)%nat with 0%nat by lia.
    cbn [repeat]. rewrite app_nil_r.
    apply Forall_map, Forall_forall. intros ch _.
    apply (encode_gsc_char_cases ch).
Qed.

Lemma encode_gsc_text_length_witness :
  Forall (fun x => x <> 0x50)
    (map encode_gsc_char (firstn (Z.to_nat 2) [71; 79; 76; 68])
     ++ repeat 0x50 (Z.to_nat 2 - length [71; 79; 76; 68])).
Proof.
  destruct (encode_gsc_text_length [71; 79; 76; 68] 2)
    as (b & _ & _ & -> & H).
  apply H. unfold len. simpl. lia.
Defined.

(** X18: a text encoded for a field always fits it: for a [BYTES] or
    [TEXT_GSC] field of non-negative size, [write_field] given
    [encode_gsc_text text field.size] never raises the length-mismatch
    error; it is one call of the writer with [field.size] bytes. *)
Theorem encoded_text_fits_field {S : Type} (w : WriteFn S) (f : MemField.t)
    (text : pystr) (value : pyvalue) (st : S) :
  blob_encoding (MemField.enc f) ->
  0 <= MemField.size f ->
  py_bytes value = encode_gsc_text text (MemField.size f) ->
  exists b,
    py_bytes value = Ok b
    /\ len b = MemField.size f
    /\ write_field w f value st = w (MemField.addr f) b st.
Proof.
  intros Hblob Hsize Hval.
  pose proof (encode_gsc_text_closed text (MemField.size f)) as Hb.
  set (b := map encode_gsc_char (firstn (Z.to_nat (MemField.size f)) text)
            ++ repeat 0x50
                 (Z.to_nat (MemField.size f)
                  - length (firstn (Z.to_nat (MemField.size f)) text)))
    in Hb.
  exists b. rewrite Hval, Hb. split; [reflexivity |].
  assert (Hfit : len b = MemField.size f).
  { subst b. unfold len.
    rewrite length_app, length_map, repeat_length, length_take. lia. }
  split; [exact Hfit |].
  rewrite (write_field_blob w f value b st Hblob)
    by (rewrite Hval; exact Hb).
  rewrite (proj2 (Z.eqb_eq _ _) Hfit). reflexivity.
Qed.

Lemma encoded_text_fits_field_witness :
  exists b,
    encode_gsc_text [71; 79; 76; 68] 10 = Ok b
    /\ len b = 10
    /\ write_field log_writer
         (MemField.mk "player_name" 0xD1A3 10 TEXT_GSC "")
         (mkValue (Raise InvalidIntLiteral)
            (encode_gsc_text [71; 79; 76; 68] 10)) []
       = log_writer 0xD1A3 b [].
Proof.
  apply (encoded_text_fits_field log_writer
           (MemField.mk "player_name" 0xD1A3 10 TEXT_GSC "")
           [71; 79; 76; 68]
           (mkValue (Raise InvalidIntLiteral)
              (encode_gsc_text [71; 79; 76; 68] 10)) []).
  - right. reflexivity.
  - simpl. lia.
  - reflexivity.
Defined.

(** X19: decoding an encoded text gives the first [size] characters of
    the text with every character other than a letter or a digit turned
    into a space, stripped of surrounding white space; a text of letters
    and digits only comes back as its first [size] characters, and
    unchanged when it has at most [size] characters. *)
Theorem gsc_text_round_trip (text : pystr) (size : Z) (b : bytes) :
  encode_gsc_text text size = Ok b ->
  decode_gsc_text b
  = py_strip (map gsc_sanitize (firstn (Z.to_nat size) text))
  /\ (Forall (fun ch => gsc_alnum ch = true) text ->
      decode_gsc_text b = firstn (Z.to_nat size) text
      /\ (len text <= size -> decode_gsc_text b = text)).
Proof.
  rewrite encode_gsc_text_closed. intros [= <-].
  unfold decode_gsc_text. rewrite decode_gsc_loop_encoded.
  split; [reflexivity |]. intros Halnum.
  assert (Hcut : Forall (fun ch => gsc_alnum ch = true)
                   (firstn (Z.to_nat size) text))
    by (apply Forall_take, Halnum).
  assert (Hsan : map gsc_sanitize (firstn (Z.to_nat size) text)
                 = firstn (Z.to_nat size) text).
  { induction Hcut as [| ch l Hch _ IH]; [reflexivity |].
    cbn [map]. unfold gsc_sanitize at 1. rewrite Hch, IH. reflexivity. }
  rewrite Hsan.
  assert (Hstrip : py_strip (firstn (Z.to_nat size) text)
                   = firstn (Z.to_nat size) text).
  { apply py_strip_no_space.
    eapply Forall_impl; [exact Hcut |].
    intros ch Hch. apply gsc_alnum_not_space, Hch. }
  rewrite Hstrip. split; [reflexivity |].
  intros Hshort. apply firstn_all2. unfold len in Hshort. lia.
Qed.

Lemma gsc_text_round_trip_witness :
  decode_gsc_text [0x86; 0x8E; 0x8B; 0x83; 0x50; 0x50]
  = [71; 79; 76; 68].
Proof.
  destruct (gsc_text_round_trip [71; 79; 76; 68] 6
              [0x86; 0x8E; 0x8B; 0x83; 0x50; 0x50] eq_refl) as [_ H].
  assert (Ha : Forall (fun ch => gsc_alnum ch = true) [71; 79; 76; 68])
    by (repeat constructor).
  destruct (H Ha) as [_ Hall]. apply Hall. unfold len. simpl. lia.
Defined.

(** X20: [decode_gsc_text] reads up to the first [0x50] terminator only:
    whatever follows the terminator does not change the result. *)
Theorem decode_gsc_text_stops_at_terminator (name rest : bytes) :
  Forall (fun x => x <> 0x50) name ->
  decode_gsc_text (name ++ 0x50 :: rest) = decode_gsc_text name
  /\ decode_gsc_text name = py_strip (map decode_gsc_char name).
Proof.
  intros Hname. unfold decode_gsc_text.
  assert (H1 : decode_gsc_loop (name ++ 0x50 :: rest)
               = map decode_gsc_char name).
  { induction Hname as [| x l Hx _ IH]; [reflexivity |].
    cbn [app decode_gsc_loop map].
    destruct (Z.eqb_spec x 0x50); [contradiction |]. rewrite IH.
    reflexivity. }
  assert (H2 : decode_gsc_loop name = map decode_gsc_char name).
  { clear H1. induction Hname as [| x l Hx _ IH]; [reflexivity |].
    cbn [decode_gsc_loop map].
    destruct (Z.eqb_spec x 0x50); [contradiction |]. rewrite IH.
    reflexivity. }
  rewrite H1, H2. split; reflexivity.
Qed.

Lemma decode_gsc_text_stops_at_terminator_witness :
  decode_gsc_text ([0x86; 0x8E] ++ 0x50 :: [0x8B; 0x83])
  = decode_gsc_text [0x86; 0x8E]
  /\ decode_gsc_text [0x86; 0x8E]
     = py_strip (map decode_gsc_char [0x86; 0x8E]).
Proof.
  apply (decode_gsc_text_stops_at_terminator [0x86; 0x8E] [0x8B; 0x83]).
  repeat constructor; discriminate.
Defined.

(** ** Snapshots *)

Lemma snapshot_loop_app {S : Type} (read_mem : ReadFn S)
    (cat : gmap string MemField.t) (pre post : list string) :
  forall (acc : gmap string decoded) (st : S),
    snapshot_loop read_mem cat (pre ++ post) acc st
    = match snapshot_loop read_mem cat pre acc st with
      | (Snapshot acc', st') => snapshot_loop read_mem cat post acc' st'
      | other => other
      end.
Proof.
  induction pre as [| k pre IH]; intros acc st; [reflexivity |].
  cbn [app snapshot_loop]. destruct (cat !! k) as [field |]; [| reflexivity].
  destruct (read_field read_mem field st) as [[v | e] st'];
    [apply IH | reflexivity].
Qed.

Lemma catalog_lookup_none (cat : gmap string MemField.t) (k : string) :
  build_ram_catalog true = Ok cat ->
  k ∉ (catalog_items true).*1 -> cat !! k = None.
Proof.
  intros Hcat Hk. destruct (cat !! k) as [f |] eqn:E; [| reflexivity].
  apply (catalog_lookup_iff _ _ _ _ Hcat) in E.
  exfalso. apply Hk. apply (list_elem_of_fmap_2 fst _ (k, f)), E.
Qed.

(** X21: a key that is not in the catalog stops the snapshot with its
    [KeyError]: the keys before it are read (an exception among them wins),
    the state is the one their reads left, and no key after it is read. *)
Theorem snapshot_ram_missing_key {S : Type} (read_mem : ReadFn S)
    (pre post : list string) (k : string) (st : S) :
  k ∉ (catalog_items true).*1 ->
  snapshot_ram read_mem (Some (pre ++ k :: post)) st
  = match snapshot_ram read_mem (Some pre) st with
    | (Snapshot _, st') => (SnapshotKeyError k, st')
    | other => other
    end.
Proof.
  intros Hk. unfold snapshot_ram.
  destruct (build_ram_catalog true) as [cat |] eqn:Hcat; [| reflexivity].
  rewrite snapshot_loop_app.
  destruct (snapshot_loop read_mem cat pre ∅ st) as [[acc | k' | e] st'];
    try reflexivity.
  cbn [snapshot_loop]. rewrite (catalog_lookup_none cat k Hcat Hk).
  reflexivity.
Qed.

Lemma snapshot_ram_missing_key_witness :
  snapshot_ram FakeMem.read_mem (Some (["money"] ++ "no_such_key" :: ["mom_money"]))
    (repeat 0 (Z.to_nat 0xDB4A))
  = match snapshot_ram FakeMem.read_mem (Some ["money"])
            (repeat 0 (Z.to_nat 0xDB4A)) with
    | (Snapshot _, st') => (SnapshotKeyError "no_such_key", st')
    | other => other
    end.
Proof.
  apply (snapshot_ram_missing_key FakeMem.read_mem ["money"] ["mom_money"]
           "no_such_key").
  apply (bool_decide_unpack _). vm_compute. exact I.
Defined.

(** Reading a well-placed field from a large enough [FakeMem] succeeds. *)
Lemma read_field_fakemem_total (f : MemField.t) (mem : bytes) :
  width_consistent f = true ->
  in_memory f (len mem) ->
  exists v, read_field FakeMem.read_mem f mem = (Ok v, mem).
Proof.
  intros Hw (Ha & Hs & Hb). unfold read_field, bindM, FakeMem.read_mem, lift.
  pose proof (py_slice_length mem (MemField.addr f)
                (MemField.addr f + MemField.size f)) as Hlen.
  specialize (Hlen ltac:(lia) ltac:(lia)).
  set (raw := py_slice mem (MemField.addr f)
                (MemField.addr f + MemField.size f)) in *.
  unfold width_consistent in Hw. unfold len in Hlen.
  destruct (MemField.enc f); cbn [enc_width] in Hw;
    try apply Z.eqb_eq in Hw; try (eexists; reflexivity).
  - destruct raw as [| b0 raw]; cbn [length] in Hlen; [lia |].
    eexists. reflexivity.
  - destruct raw as [| b0 [| b1 raw]]; cbn [length] in Hlen; try lia.
    eexists. reflexivity.
  - destruct raw as [| b0 [| b1 raw]]; cbn [length] in Hlen; try lia.
    eexists. reflexivity.
  - destruct raw as [| b0 [| b1 [| b2 raw]]]; cbn [length] in Hlen; try lia.
    eexists. reflexivity.
Qed.

Lemma snapshot_loop_fakemem (cat : gmap string MemField.t) (mem : bytes)
    (keys : list string) :
  build_ram_catalog true = Ok cat ->
  0xDB4A <= len mem ->
  (forall k, k ∈ keys -> k ∈ (catalog_items true).*1) ->
  forall acc : gmap string decoded,
  exists values,
    snapshot_loop FakeMem.read_mem cat keys acc mem = (Snapshot values, mem)
    /\ (forall k, k ∈ keys -> is_Some (values !! k))
    /\ (forall k v, values !! k = Some v ->
          acc !! k = Some v
          \/ (k ∈ keys
              /\ exists f, cat !! k = Some f
                   /\ read_field FakeMem.read_mem f mem = (Ok v, mem))).
Proof.
  intros Hcat Hmem. induction keys as [| k keys IH]; intros Hkeys acc.
  - exists acc. split; [reflexivity | split].
    + intros k Hk. apply elem_of_nil in Hk. contradiction.
    + intros k v H. left. exact H.
  - assert (Hk : k ∈ (catalog_items true).*1)
      by (apply Hkeys, list_elem_of_here).
    apply list_elem_of_fmap in Hk as ([k' f] & Hkk & Hin). cbn in Hkk.
    subst k'.
    pose proof Hin as Hlook. apply (catalog_lookup_iff _ _ _ _ Hcat) in Hlook.
    pose proof (build_ram_catalog_consistent _ _ Hcat k f Hlook) as Hw.
    pose proof (catalog_items_well_placed _ _ Hin) as (_ & Hsz & Hlo & Hhi).
    cbn [snd] in Hsz, Hlo, Hhi.
    destruct (read_field_fakemem_total f mem Hw) as [v Hv].
    { unfold in_memory. lia. }
    cbn [snapshot_loop]. rewrite Hlook, Hv.
    destruct (IH (fun k0 H0 => Hkeys k0 (list_elem_of_further _ _ _ H0))
                (<[k := v]> acc)) as (values & Hrun & Hall & Hval).
    exists values. split; [exact Hrun | split].
    + intros k0 Hk0. apply elem_of_cons in Hk0 as [-> | Hk0].
      * destruct (decide (k ∈ keys)) as [Hin' | Hnotin];
          [apply Hall, Hin' |].
        clear IH Hall Hval.
        assert (G : forall ks (a : gmap string decoded) vals,
                  k ∉ ks ->
                  snapshot_loop FakeMem.read_mem cat ks a mem
                  = (Snapshot vals, mem) ->
                  vals !! k = a !! k).
        { induction ks as [| k1 ks IHks]; intros a vals Hn Hr.
          - cbn in Hr. injection Hr as <-. reflexivity.
          - cbn [snapshot_loop] in Hr.
            apply not_elem_of_cons in Hn as [Hne Hn].
            destruct (cat !! k1) as [f1 |]; [| discriminate].
            destruct (read_field FakeMem.read_mem f1 mem) as [[v1 | e1] m1]
              eqn:Hr1; [| discriminate].
            assert (m1 = mem) as ->.
            { unfold read_field, bindM, FakeMem.read_mem in Hr1.
              destruct (MemField.enc f1); unfold lift in Hr1;
                repeat match type of Hr1 with
                | context [match ?x with _ => _ end] => destruct x
                end; congruence. }
            rewrite (IHks _ _ Hn Hr). apply lookup_insert_ne. congruence. }
        rewrite (G keys _ values Hnotin Hrun), lookup_insert_eq. eauto.
      * apply Hall, Hk0.
    + intros k0 v0 H0. apply Hval in H0 as [H0 | (Hk0 & f0 & Hf0 & Hr0)].
      * destruct (decide (k = k0)) as [<- | Hne].
        -- rewrite lookup_insert_eq in H0. injection H0 as <-.
           right. split; [apply list_elem_of_here |]. eauto.
        -- rewrite lookup_insert_ne in H0 by assumption. left. exact H0.
      * right. split; [apply list_elem_of_further, Hk0 |]. eauto.
Qed.

Lemma insertion_order_NoDup (ks : list string) :
  forall seen : list string,
    NoDup ks -> (forall k, k ∈ ks -> k ∉ seen) ->
    insertion_order seen ks = ks.
Proof.
  induction ks as [| k ks IH]; intros seen Hnd Hseen; [reflexivity |].
  apply NoDup_cons in Hnd as [Hk Hnd]. cbn [insertion_order].
  rewrite bool_decide_eq_false_2 by (apply Hseen, list_elem_of_here).
  f_equal. apply IH; [exact Hnd |].
  intros k0 Hk0 Hin. apply elem_of_cons in Hin as [-> | Hin].
  - contradiction.
  - apply (Hseen k0); [apply list_elem_of_further, Hk0 | exact Hin].
Qed.

Lemma catalog_keys_all : catalog_keys = (catalog_items true).*1.
Proof.
  unfold catalog_keys. apply insertion_order_NoDup.
  - apply catalog_items_NoDup.
  - intros k _ H. apply elem_of_nil in H. contradiction.
Qed.

(** X22: on a [FakeMem] memory that covers the catalog's address range a
    snapshot never fails and leaves the memory as it is: for requested keys
    that are all catalog keys (or for the default, every catalog key) the
    result has exactly the requested keys, and each value is what
    [read_field] returns for that key's field. *)
Theorem snapshot_ram_fakemem (keys : option (list string)) (mem : bytes) :
  0xDB4A <= len mem ->
  (forall ks, keys = Some ks ->
     forall k, k ∈ ks -> k ∈ (catalog_items true).*1) ->
  exists values,
    snapshot_ram FakeMem.read_mem keys mem = (Snapshot values, mem)
    /\ (forall k,
          is_Some (values !! k)
          <-> match keys with
              | Some ks => k ∈ ks
              | None => k ∈ (catalog_items true).*1
              end)
    /\ (forall k v,
          values !! k = Some v ->
          exists f,
            (k, f) ∈ catalog_items true
            /\ read_field FakeMem.read_mem f mem = (Ok v, mem)).
Proof.
  intros Hmem Hkeys. unfold snapshot_ram.
  destruct (build_ram_catalog_total true) as [cat Hcat]. rewrite Hcat.
  set (ks := match keys with None => catalog_keys | Some ks => ks end).
  assert (Hks : forall k, k ∈ ks -> k ∈ (catalog_items true).*1).
  { subst ks. destruct keys as [l |]; [apply (Hkeys l eq_refl) |].
    rewrite catalog_keys_all. auto. }
  destruct (snapshot_loop_fakemem cat mem ks Hcat Hmem Hks ∅)
    as (values & Hrun & Hall & Hval).
  exists values. split; [exact Hrun | split].
  - intros k. split.
    + intros [v Hv]. apply Hval in Hv as [Hv | (Hk & _)].
      * rewrite lookup_empty in Hv. discriminate.
      * subst ks. destruct keys; [exact Hk |].
        rewrite catalog_keys_all in Hk. exact Hk.
    + intros Hk. apply Hall. subst ks. destruct keys; [exact Hk |].
      rewrite catalog_keys_all. exact Hk.
  - intros k v Hv. apply Hval in Hv as [Hv | (_ & f & Hf & Hr)].
    + rewrite lookup_empty in Hv. discriminate.
    + exists f. split; [| exact Hr].
      apply (catalog_lookup_iff _ _ _ _ Hcat), Hf.
Qed.

Lemma snapshot_ram_fakemem_witness :
  exists values,
    snapshot_ram FakeMem.read_mem (Some ["money"; "party[0].hp"])
      (repeat 0 (Z.to_nat 0xDB4A))
    = (Snapshot values, repeat 0 (Z.to_nat 0xDB4A))
    /\ (forall k,
          is_Some (values !! k) <-> k ∈ ["money"; "party[0].hp"])
    /\ (forall k v,
          values !! k = Some v ->
          exists f,
            (k, f) ∈ catalog_items true
            /\ read_field FakeMem.read_mem f (repeat 0 (Z.to_nat 0xDB4A))
               = (Ok v, repeat 0 (Z.to_nat 0xDB4A))).
Proof.
  apply (snapshot_ram_fakemem (Some ["money"; "party[0].hp"])
           (repeat 0 (Z.to_nat 0xDB4A))).
  - vm_compute. discriminate.
  - intros ks [= <-] k Hk.
    apply elem_of_cons in Hk as [-> | Hk];
      [apply (bool_decide_unpack _); vm_compute; exact I |].
    apply elem_of_cons in Hk as [-> | Hk];
      [apply (bool_decide_unpack _); vm_compute; exact I |].
    apply elem_of_nil in Hk. contradiction.
Defined.

(** ** The bag item list *)

Lemma normalize_items_stored (items : list (Z * Z)) :
  Forall stored_item (normalize_items items).
Proof.
  induction items as [| [item_id qty] items IH]; [constructor |].
  cbn [normalize_items].
  pose proof (masked_in_byte_range item_id) as Hb.
  unfold in_byte_range in Hb. apply andb_prop in Hb as [Hlo Hhi].
  apply Z.leb_le in Hlo. apply Z.ltb_lt in Hhi.
  destruct (Z.eqb_spec (Z.land item_id 0xFF) 0);
    destruct (Z.eqb_spec (Z.land item_id 0xFF) 0xFF); cbn [orb];
    try exact IH.
  constructor; [| exact IH]. unfold stored_item. cbn [fst snd]. lia.
Qed.

Lemma land_0xFF_small (x : Z) : 0 <= x < 256 -> Z.land x 0xFF = x.
Proof. intros H. rewrite land_0xFF_mod. apply Z.mod_small, H. Qed.

Lemma item_bytes_length (items : list (Z * Z)) :
  length (item_bytes items) = (2 * length items)%nat.
Proof.
  induction items as [| [iid q] items IH]; [reflexivity |].
  cbn [item_bytes length]. rewrite IH. lia.
Qed.

Lemma bytearray_setitem_at (done rest : list Z) (old x : Z) :
  0 <= x < 256 ->
  bytearray_setitem (done ++ old :: rest) (len done) x
  = Ok (done ++ x :: rest).
Proof.
  intros Hx. unfold bytearray_setitem, len, in_byte_range.
  destruct (Z.ltb_spec (Z.of_nat (length done)) 0); [lia |].
  rewrite length_app. cbn [length].
  destruct (Z.leb_spec 0 (Z.of_nat (length done))); [| lia].
  destruct (Z.ltb_spec (Z.of_nat (length done))
              (Z.of_nat (length done + S (length rest)))); [| lia].
  destruct (Z.leb_spec 0 x); [| lia]. destruct (Z.ltb_spec x 256); [| lia].
  cbn [andb]. f_equal. rewrite Nat2Z.id.
  rewrite insert_app_r_alt by lia. rewrite Nat.sub_diag. reflexivity.
Qed.

Lemma fill_items_closed (items : list (Z * Z)) :
  forall (done : bytes) (n : nat),
    Forall stored_item items ->
    (2 * length items <= n)%nat ->
    fill_items items (done ++ repeat 0 n) (len done)
    = Ok (done ++ item_bytes items ++ repeat 0 (n - 2 * length items),
          len done + 2 * Z.of_nat (length items)).
Proof.
  induction items as [| [iid q] items IH]; intros done n Hst Hn.
  - cbn [fill_items item_bytes length app]. rewrite Nat.sub_0_r, Z.add_0_r.
    reflexivity.
  - apply Forall_cons in Hst as [[Hid Hq] Hst]. cbn [fst snd] in Hid, Hq.
    cbn [length] in Hn. cbn [fill_items].
    assert (Hlen : len (done ++ repeat 0 n) = len done + Z.of_nat n).
    { unfold len. rewrite length_app, repeat_length. lia. }
    rewrite Hlen. destruct (Z.gtb_spec (len done + 2) (len done + Z.of_nat n));
      [lia |].
    destruct n as [| [| n]]; [lia | lia |]. cbn [repeat].
    rewrite !land_0xFF_small by lia.
    rewrite bytearray_setitem_at by lia. cbn [bind].
    replace (done ++ iid :: 0 :: repeat 0 n)
      with ((done ++ [iid]) ++ 0 :: repeat 0 n)
      by (rewrite <- app_assoc; reflexivity).
    replace (len done + 1) with (len (done ++ [iid]))
      by (unfold len; rewrite length_app; cbn [length]; lia).
    rewrite bytearray_setitem_at by lia. cbn [bind].
    replace ((done ++ [iid]) ++ q :: repeat 0 n)
      with ((done ++ [iid; q]) ++ repeat 0 n)
      by (rewrite <- !app_assoc; reflexivity).
    replace (len done + 2) with (len (done ++ [iid; q]))
      by (unfold len; rewrite length_app; cbn [length]; lia).
    rewrite IH by (try assumption; lia).
    replace (S (S n) - 2 * length ((iid, q) :: items))%nat
      with (n - 2 * length items)%nat by (cbn [length]; lia).
    f_equal. f_equal.
    + rewrite <- !app_assoc. reflexivity.
    + unfold len. rewrite length_app. cbn [length]. lia.
Qed.

Lemma read_items_from_stored (items : list (Z * Z)) (rest : bytes) :
  Forall stored_item items ->
  read_items_from (item_bytes items ++ 0xFF :: rest) = items.
Proof.
  induction 1 as [| [iid q] items [Hid Hq] _ IH]; [reflexivity |].
  cbn [fst snd] in Hid, Hq. cbn [item_bytes app read_items_from].
  destruct (Z.eqb_spec iid 0xFF); [lia |].
  destruct (Z.eqb_spec iid 0); [lia |]. cbn [negb]. rewrite IH.
  reflexivity.
Qed.

(** X23: writing the bag and reading it back.  On a [FakeMem] memory that
    contains the bag, [_write_bag_items] succeeds and keeps the memory
    length; [_read_bag_items] then returns the normalised list: ids masked
    to a byte, entries with id 0 or 0xFF dropped, quantities clamped to
    [1..99], at most 20 entries; the bag count byte holds the number of
    entries; and no byte outside [0xD5B7 .. 0xD5E0] is changed. *)
Theorem bag_items_round_trip (items : list (Z * Z)) (mem : bytes) :
  0xD5E1 <= len mem ->
  exists mem',
    _write_bag_items FakeMem.write_mem items mem = (Ok tt, mem')
    /\ len mem' = len mem
    /\ _read_bag_items FakeMem.read_mem mem'
       = (Ok (firstn 20 (normalize_items items)), mem')
    /\ read_field FakeMem.read_mem
         (MemField.mk "bag_item_count" BAG_ITEM_COUNT 1 U8 "Bag item count")
         mem'
       = (Ok (DInt (len (firstn 20 (normalize_items items)))), mem')
    /\ Forall stored_item (firstn 20 (normalize_items items))
    /\ (forall i : nat,
          Z.of_nat i < 0xD5B7 \/ 0xD5E1 <= Z.of_nat i ->
          nth_error mem' i = nth_error mem i).
Proof.
  intros Hmem.
  set (stored := firstn 20 (normalize_items items)).
  assert (Hst : Forall stored_item stored)
    by (apply Forall_take, normalize_items_stored).
  assert (Hk : (length stored <= 20)%nat)
    by (subst stored; rewrite length_take; lia).
  set (data := item_bytes stored
               ++ 0xFF :: repeat 0 (40 - 2 * length stored)).
  assert (Hdata : len data = 41).
  { subst data. unfold len.
    rewrite length_app, item_bytes_length. cbn [length].
    rewrite repeat_length. lia. }
  unfold _write_bag_items, _read_bag_items.
  change ((BAG_ITEMS_END_OF_LIST - BAG_ITEMS_START) + 1) with 41.
  change (Z.max 0 ((41 - 1) / 2)) with 20.
  rewrite (py_slice_from_zero (normalize_items items) 20) by lia.
  change (Z.to_nat 20) with 20%nat. fold stored.
  change (Z.to_nat 41) with 41%nat.
  pose proof (fill_items_closed stored [] 41 Hst ltac:(lia)) as Hfill.
  cbn [app] in Hfill. change (len []) with 0 in Hfill.
  rewrite Z.add_0_l in Hfill.
  unfold bindM at 1. unfold lift at 1. rewrite Hfill. cbn [bind fst snd].
  assert (Hlenfill : len (item_bytes stored
                          ++ repeat 0 (41 - 2 * length stored)) = 41).
  { unfold len. rewrite length_app, item_bytes_length, repeat_length. lia. }
  rewrite Hlenfill.
  destruct (Z.ltb_spec (2 * Z.of_nat (length stored)) 41); [| lia].
  replace (41 - 2 * length stored)%nat
    with (S (40 - 2 * length stored)) by lia.
  cbn [repeat].
  replace (2 * Z.of_nat (length stored)) with (len (item_bytes stored))
    by (unfold len; rewrite item_bytes_length; lia).
  rewrite bytearray_setitem_at by lia. fold data.
  unfold bindM, lift, FakeMem.write_mem.
  pose proof (bytes_of_masked_ints [len stored]) as Hcount.
  cbn [map] in Hcount. rewrite Hcount.
  rewrite land_0xFF_small by (unfold len; lia).
  set (mem1 := py_slice_assign mem BAG_ITEMS_START
                 (BAG_ITEMS_START + len data) data).
  set (mem2 := py_slice_assign mem1 BAG_ITEM_COUNT
                 (BAG_ITEM_COUNT + len [len stored]) [len stored]).
  assert (Hs : BAG_ITEMS_START = 0xD5B8) by reflexivity.
  assert (Hc : BAG_ITEM_COUNT = 0xD5B7) by reflexivity.
  assert (Hlen1 : len mem1 = len mem).
  { subst mem1. apply py_slice_assign_length; lia. }
  assert (H1 : len [len stored] = 1) by reflexivity.
  assert (Hlen2 : len mem2 = len mem1).
  { subst mem2. apply py_slice_assign_length; lia. }
  exists mem2. split; [reflexivity |]. split; [lia |].
  assert (Hblob : py_slice mem2 BAG_ITEMS_START (BAG_ITEMS_START + 41)
                  = data).
  { subst mem2. rewrite read_other_region by lia.
    subst mem1. rewrite <- Hdata. apply read_back_written; lia. }
  assert (Hcnt : py_slice mem2 BAG_ITEM_COUNT (BAG_ITEM_COUNT + 1)
                 = [len stored]).
  { subst mem2.
    change (BAG_ITEM_COUNT + 1) with (BAG_ITEM_COUNT + len [len stored]).
    apply read_back_written; lia. }
  split; [| split; [| split; [exact Hst |]]].
  - unfold FakeMem.read_mem. rewrite Hblob. subst data.
    rewrite read_items_from_stored by exact Hst. reflexivity.
  - unfold read_field, bindM, FakeMem.read_mem, lift.
    cbn [MemField.addr MemField.size MemField.enc].
    rewrite Hcnt. reflexivity.
  - intros i Hi. subst mem2.
    rewrite py_slice_assign_nth_outside by lia.
    subst mem1. apply py_slice_assign_nth_outside; lia.
Qed.

Lemma bag_items_round_trip_witness :
  exists mem',
    _write_bag_items FakeMem.write_mem
      [(5, 300); (0, 3); (0x1FF, 2); (20, 0)] (repeat 0 (Z.to_nat 0xD5E1))
    = (Ok tt, mem')
    /\ len mem' = len (repeat 0 (Z.to_nat 0xD5E1))
    /\ _read_bag_items FakeMem.read_mem mem'
       = (Ok (firstn 20
                (normalize_items [(5, 300); (0, 3); (0x1FF, 2); (20, 0)])),
          mem')
    /\ read_field FakeMem.read_mem
         (MemField.mk "bag_item_count" BAG_ITEM_COUNT 1 U8 "Bag item count")
         mem'
       = (Ok (DInt (len (firstn 20
                           (normalize_items
                              [(5, 300); (0, 3); (0x1FF, 2); (20, 0)])))),
          mem')
    /\ Forall stored_item
         (firstn 20 (normalize_items [(5, 300); (0, 3); (0x1FF, 2); (20, 0)]))
    /\ (forall i : nat,
          Z.of_nat i < 0xD5B7 \/ 0xD5E1 <= Z.of_nat i ->
          nth_error mem' i = nth_error (repeat 0 (Z.to_nat 0xD5E1)) i).
Proof.
  apply (bag_items_round_trip [(5, 300); (0, 3); (0x1FF, 2); (20, 0)]
           (repeat 0 (Z.to_nat 0xD5E1))).
  vm_compute. discriminate.
Defined.

(** The normalisation of the witness: [(5, 99); (20, 1)]. *)
Example normalize_items_example :
  normalize_items [(5, 300); (0, 3); (0x1FF, 2); (20, 0)] = [(5, 99); (20, 1)].
Proof. reflexivity. Qed.

Lemma read_items_from_bounds (n : nat) :
  forall blob : bytes,
    (length blob <= n)%nat ->
    (2 * length (read_items_from blob) <= length blob)%nat
    /\ Forall (fun it => it.1 <> 0 /\ it.1 <> 0xFF /\ In it.1 blob
                         /\ In it.2 blob)
         (read_items_from blob).
Proof.
  induction n as [| n IH]; intros blob Hn.
  - destruct blob; [| cbn in Hn; lia]. split; [cbn; lia | constructor].
  - destruct blob as [| item_id [| qty rest]].
    + split; [cbn; lia | constructor].
    + cbn [read_items_from]. destruct (item_id =? 255);
        (split; [cbn; lia | constructor]).
    + cbn [read_items_from length] in *.
      destruct (IH rest ltac:(lia)) as [Hlen Hall].
      assert (Hall' : Forall (fun it => it.1 <> 0 /\ it.1 <> 0xFF
                                /\ In it.1 (item_id :: qty :: rest)
                                /\ In it.2 (item_id :: qty :: rest))
                        (read_items_from rest)).
      { eapply Forall_impl; [exact Hall |].
        intros it (? & ? & ? & ?). repeat split; try assumption;
          right; right; assumption. }
      destruct (Z.eqb_spec item_id 255); [split; [cbn; lia | constructor] |].
      destruct (Z.eqb_spec item_id 0); cbn [negb].
      * split; [lia | exact Hall'].
      * split; [cbn [length]; lia |].
        constructor; [| exact Hall'].
        cbn [fst snd]. repeat split; try assumption;
          [left; reflexivity | right; left; reflexivity].
Qed.

(** X24: whatever the memory holds, [_read_bag_items] returns at most half
    as many entries as the reader returned bytes (at most 20 for the 41
    bytes of the bag), never an entry with id 0 or 0xFF, and only ids and
    quantities that are bytes of the block read; a reader exception is
    passed on. *)
Theorem read_bag_items_bounds {S : Type} (read_mem : ReadFn S) (st st' : S) :
  (forall e,
     read_mem BAG_ITEMS_START 41 st = (Raise e, st') ->
     _read_bag_items read_mem st = (Raise e, st'))
  /\ (forall blob,
        read_mem BAG_ITEMS_START 41 st = (Ok blob, st') ->
        exists items,
          _read_bag_items read_mem st = (Ok items, st')
          /\ 2 * len items <= len blob
          /\ Forall (fun it => it.1 <> 0 /\ it.1 <> 0xFF /\ In it.1 blob
                               /\ In it.2 blob) items).
Proof.
  unfold _read_bag_items, bindM, lift.
  change ((BAG_ITEMS_END_OF_LIST - BAG_ITEMS_START) + 1) with 41. split.
  - intros e ->. reflexivity.
  - intros blob ->. eexists. split; [reflexivity |].
    destruct (read_items_from_bounds (length blob) blob (le_n _))
      as [Hlen Hall].
    split; [unfold len; lia | exact Hall].
Qed.

Lemma read_bag_items_bounds_witness :
  exists items,
    _read_bag_items
      (fun _ _ (st : unit) => (Ok [7; 3; 0; 9; 8; 1; 0xFF; 4; 4], st)) tt
    = (Ok items, tt)
    /\ 2 * len items <= len [7; 3; 0; 9; 8; 1; 0xFF; 4; 4]
    /\ Forall (fun it => it.1 <> 0 /\ it.1 <> 0xFF
                         /\ In it.1 [7; 3; 0; 9; 8; 1; 0xFF; 4; 4]
                         /\ In it.2 [7; 3; 0; 9; 8; 1; 0xFF; 4; 4]) items.
Proof.
  apply (proj2 (read_bag_items_bounds
                  (fun _ _ (st : unit) =>
                     (Ok [7; 3; 0; 9; 8; 1; 0xFF; 4; 4], st)) tt tt)).
  reflexivity.
Defined.

(** ** The two catalog modules *)

Lemma ram_fields_party_fields_same (slot : Z) :
  GscRamFieldsCatalog.party_fields_for_slot slot = party_fields_for_slot slot.
Proof. reflexivity. Qed.

Lemma ram_fields_build_items (cat : gmap string MemField.t) :
  GscRamFieldsCatalog.build_catalog true = Ok cat ->
  cat = fold_left insert_item ram_fields_items ∅.
Proof.
  unfold GscRamFieldsCatalog.build_catalog, ram_fields_items, party_items.
  change GscRamFieldsCatalog.iter_all_party_fields with iter_all_party_fields.
  intros H.
  destruct iter_all_party_fields as [fs |]; [| discriminate H].
  cbn [bind] in H. injection H as <-.
  rewrite (fold_left_app insert_item GscRamFieldsCatalog.FIELDS_items _ ∅).
  rewrite fold_insert_fields_as_items. reflexivity.
Qed.

Lemma ram_fields_items_NoDup : NoDup ram_fields_items.*1.
Proof. apply (bool_decide_unpack _). vm_compute. exact I. Qed.

Lemma placed_in_spec (items : list (string * MemField.t)) (k : string)
    (f : MemField.t) :
  placed_in items k f = true ->
  exists g, (k, g) ∈ items /\ same_placement f g.
Proof.
  unfold placed_in. intros H. apply existsb_exists in H as ([k' g] & Hin & H).
  cbn [fst snd] in H. apply andb_prop in H as [Hk Hp].
  apply String.eqb_eq in Hk. subst k'.
  exists g. split; [apply list_elem_of_In, Hin |].
  unfold same_placementb in Hp. apply andb_prop in Hp as [Hp He].
  apply andb_prop in Hp as [Ha Hs].
  apply Z.eqb_eq in Ha, Hs. apply bool_decide_eq_true in He.
  repeat split; assumption.
Qed.

(** X25: the two catalog modules agree.  [party_fields_for_slot] of
    gsc_ram_fields.py generates the same fields as that of
    gsc_memory_lib.py; every key of [build_catalog(True)] other than
    ["enemy_level"] is a key of [build_ram_catalog(True)] with the same
    address, size and encoding; every key of [build_ram_catalog(True)]
    other than ["trainer_id"] and ["player_name"] is a key of
    [build_catalog(True)] with the same address, size and encoding; and
    ["enemy_level"] is a second name of the byte of ["wild_level"]. *)
Theorem catalog_modules_agree (cat1 cat2 : gmap string MemField.t) :
  build_ram_catalog true = Ok cat1 ->
  GscRamFieldsCatalog.build_catalog true = Ok cat2 ->
  (forall slot,
     GscRamFieldsCatalog.party_fields_for_slot slot
     = party_fields_for_slot slot)
  /\ (forall k f,
        cat2 !! k = Some f -> k <> "enemy_level"%string ->
        exists g, cat1 !! k = Some g /\ same_placement f g)
  /\ (forall k g,
        cat1 !! k = Some g ->
        k <> "trainer_id"%string -> k <> "player_name"%string ->
        exists f, cat2 !! k = Some f /\ same_placement g f)
  /\ (exists f g,
        cat2 !! "enemy_level"%string = Some f
        /\ cat2 !! "wild_level"%string = Some g
        /\ same_placement f g).
Proof.
  intros H1 H2. apply ram_fields_build_items in H2. subst cat2.
  split; [exact ram_fields_party_fields_same |].
  split; [| split].
  - intros k f Hk Hne.
    apply fold_insert_lookup_inv in Hk as [Hin | Hk];
      [| rewrite lookup_empty in Hk; discriminate].
    assert (Hall : forallb (fun kv => String.eqb kv.1 "enemy_level"
                                      || placed_in (catalog_items true)
                                           kv.1 kv.2)
                     ram_fields_items = true) by (vm_compute; reflexivity).
    rewrite forallb_forall in Hall.
    specialize (Hall (k, f) (proj1 (list_elem_of_In _ _) Hin)).
    cbn [fst snd] in Hall. apply orb_prop in Hall as [Heq | Hp].
    + apply String.eqb_eq in Heq. contradiction.
    + apply placed_in_spec in Hp as (g & Hg & Hsame).
      exists g. split; [| exact Hsame].
      apply (catalog_lookup_iff _ _ _ _ H1), Hg.
  - intros k g Hk Hn1 Hn2.
    apply (catalog_lookup_iff _ _ _ _ H1) in Hk.
    assert (Hall : forallb (fun kv => String.eqb kv.1 "trainer_id"
                                      || String.eqb kv.1 "player_name"
                                      || placed_in ram_fields_items
                                           kv.1 kv.2)
                     (catalog_items true) = true) by (vm_compute; reflexivity).
    rewrite forallb_forall in Hall.
    specialize (Hall (k, g) (proj1 (list_elem_of_In _ _) Hk)).
    cbn [fst snd] in Hall. apply orb_prop in Hall as [Heq | Hp].
    + apply orb_prop in Heq as [Heq | Heq]; apply String.eqb_eq in Heq;
        contradiction.
    + apply placed_in_spec in Hp as (f & Hf & Hsame).
      exists f. split; [| exact Hsame].
      apply fold_insert_lookup_elem; [apply ram_fields_items_NoDup | exact Hf].
  - exists (MemField.mk "enemy_level" 0xD0FC 1 U8 "Enemy level"),
      (MemField.mk "wild_level" 0xD0FC 1 U8 "Wild/enemy level").
    split; [| split; [| repeat split]];
      (apply fold_insert_lookup_elem; [apply ram_fields_items_NoDup |]);
      apply list_elem_of_In; vm_compute; tauto.
Qed.

Lemma catalog_modules_agree_witness :
  exists g,
    match build_ram_catalog true with Ok cat => cat | Raise _ => ∅ end
      !! "money"%string = Some g
    /\ same_placement
         (MemField.mk "money" 0xD573 3 U24_BCD "Money (3-byte BCD)") g.
Proof.
  destruct (catalog_modules_agree
              (match build_ram_catalog true with
               | Ok cat => cat
               | Raise _ => ∅
               end)
              (match GscRamFieldsCatalog.build_catalog true with
               | Ok cat => cat
               | Raise _ => ∅
               end)) as (_ & H & _).
  - destruct (build_ram_catalog_total true) as [c ->]. reflexivity.
  - unfold GscRamFieldsCatalog.build_catalog.
    change GscRamFieldsCatalog.iter_all_party_fields
      with iter_all_party_fields.
    assert (exists fs, iter_all_party_fields = Ok fs) as [fs ->]
      by (vm_compute; eauto).
    reflexivity.
  - apply (H "money"%string).
    + vm_compute. reflexivity.
    + discriminate.
Defined.
